(** * Gobbler: admission, resumption, run control and embedding scheduling

    A shallow embedding of the decision logic of the PDF ingestion pipeline
    (package [cake_gobbler]) and the properties established about it:
    the acceptance policy, the structural analyzer, the resumption ledger,
    the run controller, the embedding scheduler, the per-file orchestrator
    and the [ingest] command.

    Python objects mutated in place are modelled by explicit state
    passing, exceptions by a sum type, dictionaries with a fixed key set
    by records, the SQLite table [runs] by a finite map keyed by its
    primary key and the table [ingestion_log] by the list of its rows.
    What the external collaborators answer (the parsers, the vector
    store, the embedding workers, the clock) is an input of the model. *)

From Stdlib Require Import ZArith String Ascii List Lia Permutation.
From Stdlib Require Import Strings.Byte DecimalString.
From stdpp Require Import gmap strings list.

Import ListNotations.
Local Open Scope string_scope.
Local Open Scope Z_scope.

(* ===================================================================== *)
(** ** Python helpers *)
(* ===================================================================== *)

(** Python's [sep.join(items)]. *)
Definition join (sep : string) (items : list string) : string :=
  String.concat sep items.

(** [needle in hay] on Python strings, as a proposition. *)
Definition Substring (needle hay : string) : Prop :=
  exists pre post : string, hay = pre +:+ needle +:+ post.

(** [needle in hay] on Python strings, as a test. *)
Fixpoint str_contains (needle hay : string) : bool :=
  String.prefix needle hay ||
  match hay with
  | EmptyString => false
  | String _ rest => str_contains needle rest
  end.

(** Truth value of a Python list: the empty list is falsy. *)
Definition list_truthy {A} (l : list A) : bool :=
  match l with [] => false | _ :: _ => true end.

(** Truth value of a Python string: the empty string is falsy. *)
Definition str_truthy (s : string) : bool :=
  match s with EmptyString => false | String _ _ => true end.

(** Truth value of an optional string ([None] and the empty string are
    falsy). *)
Definition opt_truthy (o : option string) : bool :=
  match o with None => false | Some s => str_truthy s end.

(** [key in d] for a dictionary kept as a list of items. *)
Definition has_key {V} (key : string) (d : list (string * V)) : bool :=
  existsb (fun item => String.eqb (fst item) key) d.

(** An exception in flight: its class and its message ([str(e)]). *)
Record Exn := MkExn { exn_class : string; exn_msg : string }.

(** Outcome of a call that may raise. *)
Inductive Outcome (A : Type) : Type :=
| Returns (a : A)
| Raises (e : Exn).
Arguments Returns {A} a.
Arguments Raises {A} e.

(** A computation that mutates an object of type [S] in place and may
    raise: what was written before an exception stays written. *)
Definition ST (S A : Type) : Type := S -> Outcome A * S.

Definition ret {S A} (a : A) : ST S A := fun s => (Returns a, s).

Definition bind {S A B} (c : ST S A) (k : A -> ST S B) : ST S B :=
  fun s => match c s with
           | (Returns a, s') => k a s'
           | (Raises e, s') => (Raises e, s')
           end.

Definition lift {S A} (o : Outcome A) : ST S A := fun s => (o, s).

Definition modify {S} (f : S -> S) : ST S unit := fun s => (Returns tt, f s).

Definition get_state {S} : ST S S := fun s => (Returns s, s).

(** [try: c except Exception as e: handler e] *)
Definition try_except {S A} (c : ST S A) (handler : Exn -> ST S A) : ST S A :=
  fun s => match c s with
           | (Raises e, s') => handler e s'
           | done => done
           end.

(** [if b: c] *)
Definition when {S} (b : bool) (c : ST S unit) : ST S unit :=
  if b then c else ret tt.

Notation "'do' x <- c ; k" := (bind c (fun x => k))
  (at level 10, x name, c at level 100, k at level 200).
Notation "'exec' c ; k" := (bind c (fun _ => k))
  (at level 10, c at level 100, k at level 200).

(* ===================================================================== *)
(** ** models/pdf_models.py *)
(* ===================================================================== *)

Module PdfModels.

Inductive EncodingType :=
| ASCII | UTF8 | UTF8_WITH_BOM | UTF16 | UTF16BE | UTF16LE
| UTF16BE_WITH_BOM | UTF16LE_WITH_BOM | IDENTITY_H | WINANSI
| MACROMAN | LATIN1 | CUSTOM | UNKNOWN.

Inductive PDFIssueType :=
| PASSWORD_PROTECTED | DAMAGED | ENCRYPTED | MISSING_FONTS | EMBEDDED_FILES
| JAVASCRIPT | FORM_FIELDS | DIGITAL_SIGNATURES | LARGE_SIZE
| HIGH_COMPRESSION | SCANNED_IMAGE | WATERMARK | CUSTOM_METADATA
| UNUSUAL_STRUCTURE | ENCODING_ISSUE | UTF16_ENCODING | MIXED_ENCODINGS.

#[global] Instance EncodingType_eq_dec : EqDecision EncodingType.
Proof. solve_decision. Defined.

#[global] Instance PDFIssueType_eq_dec : EqDecision PDFIssueType.
Proof. solve_decision. Defined.

(** [auto()] numbers the members from 1 in declaration order. *)
Definition encoding_value (e : EncodingType) : positive :=
  match e with
  | ASCII => 1 | UTF8 => 2 | UTF8_WITH_BOM => 3 | UTF16 => 4 | UTF16BE => 5
  | UTF16LE => 6 | UTF16BE_WITH_BOM => 7 | UTF16LE_WITH_BOM => 8
  | IDENTITY_H => 9 | WINANSI => 10 | MACROMAN => 11 | LATIN1 => 12
  | CUSTOM => 13 | UNKNOWN => 14
  end%positive.

Definition encoding_of_value (p : positive) : option EncodingType :=
  match p with
  | 1 => Some ASCII | 2 => Some UTF8 | 3 => Some UTF8_WITH_BOM
  | 4 => Some UTF16 | 5 => Some UTF16BE | 6 => Some UTF16LE
  | 7 => Some UTF16BE_WITH_BOM | 8 => Some UTF16LE_WITH_BOM
  | 9 => Some IDENTITY_H | 10 => Some WINANSI | 11 => Some MACROMAN
  | 12 => Some LATIN1 | 13 => Some CUSTOM | 14 => Some UNKNOWN
  | _ => None
  end%positive.

#[global] Program Instance EncodingType_countable : Countable EncodingType :=
  {| encode := encoding_value; decode := encoding_of_value |}.
Next Obligation. intros []; reflexivity. Qed.

(** [EncodingType[name]]: lookup of a member by name, [None] for KeyError. *)
Definition encoding_by_name (s : string) : option EncodingType :=
  if String.eqb s "ASCII" then Some ASCII
  else if String.eqb s "UTF8" then Some UTF8
  else if String.eqb s "UTF8_WITH_BOM" then Some UTF8_WITH_BOM
  else if String.eqb s "UTF16" then Some UTF16
  else if String.eqb s "UTF16BE" then Some UTF16BE
  else if String.eqb s "UTF16LE" then Some UTF16LE
  else if String.eqb s "UTF16BE_WITH_BOM" then Some UTF16BE_WITH_BOM
  else if String.eqb s "UTF16LE_WITH_BOM" then Some UTF16LE_WITH_BOM
  else if String.eqb s "IDENTITY_H" then Some IDENTITY_H
  else if String.eqb s "WINANSI" then Some WINANSI
  else if String.eqb s "MACROMAN" then Some MACROMAN
  else if String.eqb s "LATIN1" then Some LATIN1
  else if String.eqb s "CUSTOM" then Some CUSTOM
  else if String.eqb s "UNKNOWN" then Some UNKNOWN
  else None.

(** [issue.type.name]. *)
Definition issue_type_name (t : PDFIssueType) : string :=
  match t with
  | PASSWORD_PROTECTED => "PASSWORD_PROTECTED" | DAMAGED => "DAMAGED"
  | ENCRYPTED => "ENCRYPTED" | MISSING_FONTS => "MISSING_FONTS"
  | EMBEDDED_FILES => "EMBEDDED_FILES" | JAVASCRIPT => "JAVASCRIPT"
  | FORM_FIELDS => "FORM_FIELDS" | DIGITAL_SIGNATURES => "DIGITAL_SIGNATURES"
  | LARGE_SIZE => "LARGE_SIZE" | HIGH_COMPRESSION => "HIGH_COMPRESSION"
  | SCANNED_IMAGE => "SCANNED_IMAGE" | WATERMARK => "WATERMARK"
  | CUSTOM_METADATA => "CUSTOM_METADATA"
  | UNUSUAL_STRUCTURE => "UNUSUAL_STRUCTURE"
  | ENCODING_ISSUE => "ENCODING_ISSUE" | UTF16_ENCODING => "UTF16_ENCODING"
  | MIXED_ENCODINGS => "MIXED_ENCODINGS"
  end.

Definition all_issue_types : list PDFIssueType :=
  [PASSWORD_PROTECTED; DAMAGED; ENCRYPTED; MISSING_FONTS; EMBEDDED_FILES;
   JAVASCRIPT; FORM_FIELDS; DIGITAL_SIGNATURES; LARGE_SIZE; HIGH_COMPRESSION;
   SCANNED_IMAGE; WATERMARK; CUSTOM_METADATA; UNUSUAL_STRUCTURE;
   ENCODING_ISSUE; UTF16_ENCODING; MIXED_ENCODINGS].

(** [PDFIssueType[name]]: lookup of a member by name, [None] for KeyError. *)
Definition issue_type_by_name (s : string) : option PDFIssueType :=
  List.find (fun t => String.eqb (issue_type_name t) s) all_issue_types.

Record FontInfo := {
  font_name : string;
  font_type : string;
  font_encoding : EncodingType;
  font_embedded : bool;
  font_subset : bool
}.

Record PDFIssue := {
  issue_type : PDFIssueType;
  description : string;
  severity : string;                       (* "low", "medium", "high" *)
  page_numbers : list Z;
  details : list (string * string)
}.

Record PDFAnalysisResult := {
  filepath : string;
  filesize : Z;
  num_pages : Z;
  is_encrypted : bool;
  is_damaged : bool;
  encoding_types : gset EncodingType;
  fonts : list FontInfo;
  issues : list PDFIssue;
  metadata : list (string * string)
}.

(** [issue.severity == "high"]. *)
Definition is_high (i : PDFIssue) : bool := String.eqb (severity i) "high".

(** Property [has_critical_issues]. *)
Definition has_critical_issues (r : PDFAnalysisResult) : bool :=
  existsb is_high (issues r).

(** Property [has_issues]. *)
Definition has_issues (r : PDFAnalysisResult) : bool :=
  (0 <? Z.of_nat (List.length (issues r))).

Definition get_issues_by_type (r : PDFAnalysisResult) (t : PDFIssueType)
  : list PDFIssue :=
  List.filter (fun i => bool_decide (issue_type i = t)) (issues r).

Definition get_issues_by_severity (r : PDFAnalysisResult) (s : string)
  : list PDFIssue :=
  List.filter (fun i => String.eqb (severity i) s) (issues r).

End PdfModels.

(* ===================================================================== *)
(** ** core/pdf_processor.py: the acceptance policy *)
(* ===================================================================== *)

Module PDFProcessor.
Import PdfModels.

(** One entry of [detailed_diagnostics["all_issues"]]. *)
Record IssueEntry := {
  entry_type : string;
  entry_description : string;
  entry_severity : string;
  entry_page_numbers : option (list Z);
  entry_details : option (list (string * string))
}.

(** The dictionary [detailed_diagnostics]. *)
Record Diagnostics := {
  issues_found : list string;
  primary_rejection_reason : option string;
  all_issues : list IssueEntry
}.

(** [x if x else None] on a list. *)
Definition nonempty_or_none {A} (l : list A) : option (list A) :=
  match l with [] => None | _ => Some l end.

Definition issue_entry (i : PDFIssue) : IssueEntry :=
  {| entry_type := issue_type_name (issue_type i);
     entry_description := description i;
     entry_severity := severity i;
     entry_page_numbers := nonempty_or_none (page_numbers i);
     entry_details := nonempty_or_none (details i) |}.

(** [detailed_diagnostics] after [issues_found.append(tag)] and, when
    [cat] is given, after the assignment of [primary_rejection_reason]. *)
Definition diagnostics (r : PDFAnalysisResult) (tag : option string)
    (cat : option string) : Diagnostics :=
  {| issues_found := match tag with Some t => [t] | None => [] end;
     primary_rejection_reason := cat;
     all_issues := List.map issue_entry (issues r) |}.

Definition is_scanned (i : PDFIssue) : bool :=
  bool_decide (issue_type i = SCANNED_IMAGE).

Definition is_encoding_issue (i : PDFIssue) : bool :=
  bool_decide (issue_type i = ENCODING_ISSUE)
  || bool_decide (issue_type i = UTF16_ENCODING)
  || bool_decide (issue_type i = MIXED_ENCODINGS).

Definition critical_reason (r : PDFAnalysisResult) : string :=
  "Critical issues detected: "
  +:+ join ", " (List.map description (List.filter is_high (issues r))).

Definition is_pdf_acceptable (r : PDFAnalysisResult)
  : bool * string * Diagnostics :=
  if has_critical_issues r then
    (false, critical_reason r,
     diagnostics r (Some "critical_issues") (Some "critical_issues"))
  else if is_damaged r then
    (false, "PDF is damaged", diagnostics r (Some "damaged") (Some "damaged"))
  else if is_encrypted r then
    (false, "PDF is encrypted",
     diagnostics r (Some "encrypted") (Some "encrypted"))
  else if num_pages r =? 0 then
    (false, "PDF has no pages",
     diagnostics r (Some "empty_document") (Some "empty_document"))
  else if list_truthy (List.filter is_scanned (issues r)) then
    (true, "PDF may be scanned (will attempt extraction but may fail)",
     diagnostics r (Some "scanned_image") (Some "likely_scanned_document"))
  else if list_truthy (List.filter is_encoding_issue (issues r)) then
    (true,
     "PDF has encoding issues (will attempt extraction but may have character problems)",
     diagnostics r (Some "encoding_issues") None)
  else
    (true, "PDF is acceptable for processing", diagnostics r None None).

End PDFProcessor.

(* ===================================================================== *)
(** ** core/pdf_analyzer.py: the structural analyzer *)
(* ===================================================================== *)

Module PDFAnalyzer.
Import PdfModels.

(** In-place updates of the result object. *)
Definition set_num_pages (n : Z) (r : PDFAnalysisResult) : PDFAnalysisResult :=
  {| filepath := filepath r; filesize := filesize r; num_pages := n;
     is_encrypted := is_encrypted r; is_damaged := is_damaged r;
     encoding_types := encoding_types r; fonts := fonts r;
     issues := issues r; metadata := metadata r |}.

Definition set_is_encrypted (b : bool) (r : PDFAnalysisResult) : PDFAnalysisResult :=
  {| filepath := filepath r; filesize := filesize r; num_pages := num_pages r;
     is_encrypted := b; is_damaged := is_damaged r;
     encoding_types := encoding_types r; fonts := fonts r;
     issues := issues r; metadata := metadata r |}.

Definition set_is_damaged (b : bool) (r : PDFAnalysisResult) : PDFAnalysisResult :=
  {| filepath := filepath r; filesize := filesize r; num_pages := num_pages r;
     is_encrypted := is_encrypted r; is_damaged := b;
     encoding_types := encoding_types r; fonts := fonts r;
     issues := issues r; metadata := metadata r |}.

Definition set_metadata (m : list (string * string)) (r : PDFAnalysisResult)
  : PDFAnalysisResult :=
  {| filepath := filepath r; filesize := filesize r; num_pages := num_pages r;
     is_encrypted := is_encrypted r; is_damaged := is_damaged r;
     encoding_types := encoding_types r; fonts := fonts r;
     issues := issues r; metadata := m |}.

(** [result.encoding_types.add(e)] *)
Definition add_encoding (e : EncodingType) (r : PDFAnalysisResult)
  : PDFAnalysisResult :=
  {| filepath := filepath r; filesize := filesize r; num_pages := num_pages r;
     is_encrypted := is_encrypted r; is_damaged := is_damaged r;
     encoding_types := {[ e ]} ∪ encoding_types r; fonts := fonts r;
     issues := issues r; metadata := metadata r |}.

(** [result.fonts.append(f)] *)
Definition append_font (f : FontInfo) (r : PDFAnalysisResult) : PDFAnalysisResult :=
  {| filepath := filepath r; filesize := filesize r; num_pages := num_pages r;
     is_encrypted := is_encrypted r; is_damaged := is_damaged r;
     encoding_types := encoding_types r; fonts := fonts r ++ [f];
     issues := issues r; metadata := metadata r |}.

(** [result.issues.append(i)] *)
Definition append_issue (i : PDFIssue) (r : PDFAnalysisResult) : PDFAnalysisResult :=
  {| filepath := filepath r; filesize := filesize r; num_pages := num_pages r;
     is_encrypted := is_encrypted r; is_damaged := is_damaged r;
     encoding_types := encoding_types r; fonts := fonts r;
     issues := issues r ++ [i]; metadata := metadata r |}.

(** [PDFIssue(type=.., description=.., severity=..)] with the defaults of
    the dataclass for the other fields. *)
Definition mk_issue (t : PDFIssueType) (d s : string) (pages : list Z) : PDFIssue :=
  {| issue_type := t; description := d; severity := s;
     page_numbers := pages; details := [] |}.

(** [str(n)] for an integer. *)
Definition str_of_Z (n : Z) : string :=
  DecimalString.NilZero.string_of_int (Z.to_int n).

(** *** The file on disk *)

(** What the file system answers for the path: the size reported by
    [stat] and what [open(..,'rb').read()] gives (it may raise). *)
Record FileEntry := {
  st_size : Z;
  file_bytes : Outcome (list byte)
}.

(** [b'%PDF-'] *)
Definition pdf_signature : list byte := [x25; x50; x44; x46; x2d].

(** [header.startswith(sig)] on byte strings. *)
Fixpoint startswith (sig header : list byte) : bool :=
  match sig, header with
  | [], _ => true
  | _ :: _, [] => false
  | a :: sig', b :: header' => Byte.eqb a b && startswith sig' header'
  end.

(** [_is_valid_pdf]: reads at most 1024 bytes; any exception gives False. *)
Definition _is_valid_pdf (f : FileEntry) : bool :=
  match file_bytes f with
  | Returns content => startswith pdf_signature (firstn 1024 content)
  | Raises _ => false
  end.

(** *** What the primary parser reports

    [utils/pymupdf_interface.py] defines no [analyze_pdf]; the call runs in
    an external process.  Its answer is an input of the model: either an
    exception, or a dictionary whose keys may be missing and whose values
    have their JSON types. *)

Record FontDict := {
  fd_name : option string;
  fd_type : option string;
  fd_encoding : option string;
  fd_embedded : option bool;
  fd_subset : option bool
}.

Record IssueDict := {
  id_type : option string;
  id_description : option string;
  id_severity : option string;
  id_page_numbers : option (list Z);
  id_details : option (list (string * string))
}.

Record Analysis := {
  a_success : option bool;
  a_error : option string;
  a_num_pages : option Z;
  a_is_encrypted : option bool;
  a_is_damaged : option bool;
  a_metadata : option (list (string * string));
  a_encoding_types : option (list string);
  a_fonts : option (list FontDict);
  a_issues : option (list IssueDict)
}.

(** [d.get(key, default)] *)
Definition get_or {A} (o : option A) (d : A) : A :=
  match o with Some a => a | None => d end.

(** *** What pikepdf reports

    Every access to the opened document may raise; [pikepdf.open] itself
    may raise too, with class [PasswordError] for a protected file. *)

Record PikeFontDescriptor := {
  has_FontFile : bool;
  has_FontFile2 : bool;
  has_FontFile3 : bool
}.

Record PikeFont := {
  pf_Subtype : option string;
  pf_BaseFont : option string;
  pf_Encoding : option string;
  pf_FontDescriptor : option (Outcome PikeFontDescriptor)
}.

Record PikeResources := {
  res_Font : option (list (string * Outcome PikeFont))
}.

Record PikePage := {
  page_Resources : option PikeResources
}.

Record PikePdf := {
  pike_pages : Outcome (list PikePage);
  pike_docinfo : Outcome (list (string * string));
  pike_Root_has_EmbeddedFiles : Outcome bool;
  pike_objects_len : Outcome Z
}.

Definition is_PasswordError (e : Exn) : bool :=
  String.eqb (exn_class e) "PasswordError".

(** *** Font extraction with pikepdf *)

Definition font_encoding_of (encoding_str : string) : option EncodingType :=
  if str_contains "Identity-H" encoding_str then Some IDENTITY_H
  else if str_contains "WinAnsi" encoding_str then Some WINANSI
  else if str_contains "MacRoman" encoding_str then Some MACROMAN
  else if str_contains "Custom" encoding_str then Some CUSTOM
  else None.

(** [font_type not in ('/Type1', '/MMType1')] *)
Definition not_base_type1 (font_type : string) : bool :=
  negb (String.eqb font_type "/Type1" || String.eqb font_type "/MMType1").

(** Body of the loop over [fonts.keys()], with its [try]/[except Exception]
    that swallows everything: the state is (font_set, result). *)
Definition extract_one_font (page_num : Z) (entry : string * Outcome PikeFont)
    (st : gset string * PDFAnalysisResult) : gset string * PDFAnalysisResult :=
  let '(font_set, r) := st in
  match snd entry with
  | Raises _ => (font_set, r)
  | Returns font =>
      let font_type := get_or (pf_Subtype font) "Unknown" in
      let base_font := get_or (pf_BaseFont font) "Unknown" in
      let encoding_str := get_or (pf_Encoding font) "Unknown" in
      if bool_decide (base_font ∈ font_set) then (font_set, r)
      else
        let font_set := {[ base_font ]} ∪ font_set in
        let encoding := get_or (font_encoding_of encoding_str) UNKNOWN in
        let r := match font_encoding_of encoding_str with
                 | Some e => add_encoding e r
                 | None => r
                 end in
        match pf_FontDescriptor font with
        | Some (Raises _) => (font_set, r)
        | descriptor =>
            let is_embedded :=
              match descriptor with
              | Some (Returns fd) =>
                  has_FontFile fd || has_FontFile2 fd || has_FontFile3 fd
              | _ => false
              end in
            let is_subset := str_contains "+" base_font in
            let r := append_font
                       {| font_name := base_font; font_type := font_type;
                          font_encoding := encoding;
                          font_embedded := is_embedded;
                          font_subset := is_subset |} r in
            let r := if negb is_embedded && not_base_type1 font_type
                     then append_issue
                            (mk_issue MISSING_FONTS
                               ("Non-embedded font: " +:+ base_font)
                               "medium" [page_num]) r
                     else r in
            (font_set, r)
        end
  end.

(** The fonts of one page; pages without [/Resources] or [/Font] are skipped. *)
Definition extract_page_fonts (page_num : Z) (page : PikePage)
    (st : gset string * PDFAnalysisResult) : gset string * PDFAnalysisResult :=
  match page_Resources page with
  | None => st
  | Some resources =>
      match res_Font resources with
      | None => st
      | Some page_fonts =>
          fold_left (fun st entry => extract_one_font page_num entry st)
                    page_fonts st
      end
  end.

(** [for page_num, page in enumerate(pdf.pages)] *)
Fixpoint extract_pages (page_num : Z) (pages : list PikePage)
    (st : gset string * PDFAnalysisResult) : gset string * PDFAnalysisResult :=
  match pages with
  | [] => st
  | page :: rest =>
      extract_pages (page_num + 1) rest (extract_page_fonts page_num page st)
  end.

Definition _extract_fonts_with_pikepdf (pages : list PikePage)
  : ST PDFAnalysisResult unit :=
  modify (fun r => snd (extract_pages 0 pages (∅, r))).

(** *** The fallback parser *)

Definition pikepdf_body (opened : Outcome PikePdf) : ST PDFAnalysisResult unit :=
  do pdf <- lift opened;
  do pages <- lift (pike_pages pdf);
  exec modify (set_num_pages (Z.of_nat (List.length pages)));
  do docinfo <- lift (pike_docinfo pdf);
  exec when (list_truthy docinfo) (modify (set_metadata docinfo));
  do embedded <- lift (pike_Root_has_EmbeddedFiles pdf);
  exec when embedded
        (modify (append_issue
                   (mk_issue EMBEDDED_FILES "PDF contains embedded files"
                             "medium" [])));
  do n_objects <- lift (pike_objects_len pdf);
  do r <- get_state;
  exec when (n_objects >? num_pages r * 10)
        (modify (append_issue
                   (mk_issue UNUSUAL_STRUCTURE
                      ("PDF has an unusually complex structure ("
                       +:+ str_of_Z n_objects +:+ " objects)")
                      "medium" [])));
  _extract_fonts_with_pikepdf pages.

(** [_analyze_with_pikepdf]: a [PasswordError] is handled here, any other
    exception propagates to the caller. *)
Definition _analyze_with_pikepdf (opened : Outcome PikePdf)
  : ST PDFAnalysisResult unit :=
  try_except (pikepdf_body opened)
    (fun e =>
       if is_PasswordError e then
         exec modify (set_is_encrypted true);
         modify (append_issue
                   (mk_issue PASSWORD_PROTECTED "PDF is password protected"
                             "high" []))
       else lift (Raises e)).

(** *** Processing the answer of the primary parser *)

Definition process_encoding_types (names : list string) (r : PDFAnalysisResult)
  : PDFAnalysisResult :=
  fold_left (fun r name => match encoding_by_name name with
                           | Some e => add_encoding e r
                           | None => r
                           end) names r.

Definition process_font (r : PDFAnalysisResult) (fd : FontDict) : PDFAnalysisResult :=
  append_font
    {| font_name := get_or (fd_name fd) "Unknown";
       font_type := get_or (fd_type fd) "Unknown";
       font_encoding :=
         get_or (encoding_by_name (get_or (fd_encoding fd) "UNKNOWN")) UNKNOWN;
       font_embedded := get_or (fd_embedded fd) false;
       font_subset := get_or (fd_subset fd) false |} r.

Definition process_issue (r : PDFAnalysisResult) (d : IssueDict) : PDFAnalysisResult :=
  match issue_type_by_name (get_or (id_type d) "UNKNOWN") with
  | None => r                                         (* continue *)
  | Some t =>
      append_issue
        {| issue_type := t;
           description := get_or (id_description d) "Unknown issue";
           severity := get_or (id_severity d) "medium";
           page_numbers := get_or (id_page_numbers d) [];
           details := get_or (id_details d) [] |} r
  end.

Definition process_analysis (a : Analysis) (r : PDFAnalysisResult)
  : PDFAnalysisResult :=
  let r := set_num_pages (get_or (a_num_pages a) 0) r in
  let r := set_is_encrypted (get_or (a_is_encrypted a) false) r in
  let r := set_is_damaged (get_or (a_is_damaged a) false) r in
  let r := match a_metadata a with
           | Some m => if list_truthy m then set_metadata m r else r
           | None => r
           end in
  let r := process_encoding_types (get_or (a_encoding_types a) []) r in
  let r := fold_left process_font (get_or (a_fonts a) []) r in
  fold_left process_issue (get_or (a_issues a) []) r.

(** *** [analyze_file] *)

Inductive ParserCall := CallPyMuPDF | CallPikepdf.

Definition initial_result (path : string) (size : Z) : PDFAnalysisResult :=
  {| filepath := path; filesize := size; num_pages := 0;
     is_encrypted := false; is_damaged := false; encoding_types := ∅;
     fonts := []; issues := []; metadata := [] |}.

(** The handler shared by both places where the fallback is tried:
    mark the result damaged with the two messages. *)
Definition mark_failed (first second : string) (r : PDFAnalysisResult)
  : PDFAnalysisResult :=
  append_issue
    (mk_issue DAMAGED
       ("Failed to analyze PDF: " +:+ first +:+ "; " +:+ second) "high" [])
    (set_is_damaged true r).

(** [try: self._analyze_with_pikepdf(..) except Exception as e2: ..] *)
Definition fallback (first : string) (opened : Outcome PikePdf)
    (r : PDFAnalysisResult) : PDFAnalysisResult :=
  match _analyze_with_pikepdf opened r with
  | (Returns _, r') => r'
  | (Raises e2, r') => mark_failed first (exn_msg e2) r'
  end.

(** [self.pymupdf.analyze_pdf(str(filepath), password)], the call of the
    primary parser: class [PyMuPDFInterface] defines [extract_text] and
    [get_page_count] and no method [analyze_pdf], so the attribute lookup
    raises. *)
Definition pymupdf_analyze_pdf : Outcome Analysis :=
  Raises (MkExn "AttributeError"
            "'PyMuPDFInterface' object has no attribute 'analyze_pdf'").

(** [analyze_file path]: [file] is [None] when the path does not exist;
    [primary] and [opened] are what the two parsers answer when called.
    The second component lists the parsers that were invoked, in order. *)
Definition analyze_file (path : string) (file : option FileEntry)
    (primary : Outcome Analysis) (opened : Outcome PikePdf)
  : Outcome PDFAnalysisResult * list ParserCall :=
  match file with
  | None =>
      (Raises (MkExn "FileNotFoundError" ("File not found: " +:+ path)), [])
  | Some f =>
      let result := initial_result path (st_size f) in
      if negb (_is_valid_pdf f) then
        (Returns
           (append_issue
              (mk_issue DAMAGED "File does not appear to be a valid PDF"
                        "high" [])
              (set_is_damaged true result)), [])
      else
        match primary with
        | Returns analysis =>
            if negb (get_or (a_success analysis) false) then
              (Returns (fallback (get_or (a_error analysis) "Unknown error")
                                 opened result),
               [CallPyMuPDF; CallPikepdf])
            else
              (Returns (process_analysis analysis result), [CallPyMuPDF])
        | Raises e =>
            (Returns (fallback (exn_msg e) opened result),
             [CallPyMuPDF; CallPikepdf])
        end
  end.

End PDFAnalyzer.

(* ===================================================================== *)
(** ** models/db_models.py and core/db_manager.py: the relational log *)
(* ===================================================================== *)

Module DatabaseManager.
Import PdfModels.

(** Values of column [runs.status]. *)
Inductive RunStatus :=
| not_started | running | completed | completed_with_errors | failed.

(** Values returned by [ingest_file]; the first three are also the values
    of column [ingestion_log.status]. *)
Inductive IngestionStatus := success | error | skipped | already_processed.

#[global] Instance RunStatus_eq_dec : EqDecision RunStatus.
Proof. solve_decision. Defined.

#[global] Instance IngestionStatus_eq_dec : EqDecision IngestionStatus.
Proof. solve_decision. Defined.

(** Dataclass [RunRecord]; timestamps are clock readings.  A field read
    back from a NULL column holds [None]. *)
Record RunRecord := {
  rr_run_id : string;
  rr_start_time : option Z;
  rr_end_time : option Z;
  rr_status : option RunStatus;
  rr_total_files : option Z;
  rr_processed_files : option Z;
  rr_failed_files : option Z;
  rr_skipped_files : option Z;
  rr_already_processed_files : option Z;
  rr_total_processing_time : option Z;
  rr_run_name : option string;
  rr_collection : option string;
  rr_embedding_model : option string;
  rr_chunk_size : option Z;
  rr_chunk_overlap : option Z
}.

(** A row of table [runs] without its primary key [run_id]. *)
Record RunRow := {
  start_time : option Z;
  end_time : option Z;
  status : option RunStatus;
  total_files : option Z;
  processed_files : option Z;
  failed_files : option Z;
  skipped_files : option Z;
  already_processed_files : option Z;
  total_processing_time : option Z;
  run_name : option string;
  collection : option string;
  embedding_model : option string;
  chunk_size : option Z;
  chunk_overlap : option Z
}.

(** What column [error_message] serialises. *)
Inductive ErrorPayload :=
| NoMessage
| Message (msg : string)
| Rejection (reason : string) (diag : PDFProcessor.Diagnostics)
| ExtractionFailure (msg : string) (diag : PDFProcessor.Diagnostics).

(** A row of table [ingestion_log].  Columns [issues] and
    [encoding_types], which no query modelled here reads, are left out;
    column [analysis_result] holds the analysis it serialises. *)
Record LogRow := {
  id : Z;
  file_path : string;
  log_collection : option string;
  log_status : IngestionStatus;
  error_message : ErrorPayload;
  ingestion_time : Z;
  log_is_encrypted : bool;
  log_is_damaged : bool;
  log_num_pages : Z;
  log_filesize : Z;
  analysis_result : option PDFAnalysisResult;
  run_id : option string;
  file_fingerprint : option string
}.

(** The database: [last_id] is the AUTOINCREMENT counter of [ingestion_log]. *)
Record Db := {
  runs : gmap string RunRow;
  ingestion_log : list LogRow;
  last_id : Z
}.

Definition empty_db : Db := {| runs := ∅; ingestion_log := []; last_id := 0 |}.

(** SQL [column = ?]: a NULL on either side never matches. *)
Definition sql_eq (column param : option string) : bool :=
  match column, param with
  | Some a, Some b => String.eqb a b
  | _, _ => false
  end.

(** [log_ingestion]: INSERT of one row, then commit. *)
Definition log_ingestion (now : Z) (path : string) (coll : option string)
    (st : IngestionStatus) (analysis : option PDFAnalysisResult)
    (msg : ErrorPayload) (rid : option string) (fp : option string)
    (db : Db) : Db :=
  let row :=
    {| id := last_id db + 1;
       file_path := path;
       log_collection := coll;
       log_status := st;
       error_message := msg;
       ingestion_time := now;
       log_is_encrypted :=
         match analysis with Some a => is_encrypted a | None => false end;
       log_is_damaged :=
         match analysis with Some a => is_damaged a | None => false end;
       log_num_pages :=
         match analysis with Some a => num_pages a | None => 0 end;
       log_filesize :=
         match analysis with Some a => filesize a | None => 0 end;
       analysis_result := analysis;
       run_id := rid;
       file_fingerprint := fp |} in
  {| runs := runs db;
     ingestion_log := ingestion_log db ++ [row];
     last_id := last_id db + 1 |}.

(** [create_run]: INSERT into [runs]; the primary key makes a second
    insertion of the same [run_id] fail. *)
Definition create_run (rid : string) (start : Z) (total : Z)
    (rec : option RunRecord) (db : Db) : Outcome Db :=
  match runs db !! rid with
  | Some _ =>
      Raises (MkExn "IntegrityError" "UNIQUE constraint failed: runs.run_id")
  | None =>
      let row :=
        {| start_time := Some start; end_time := None;
           status := Some running; total_files := Some total;
           processed_files := Some 0; failed_files := Some 0;
           skipped_files := Some 0; already_processed_files := Some 0;
           total_processing_time := None;
           run_name := rec ≫= rr_run_name;
           collection := rec ≫= rr_collection;
           embedding_model := rec ≫= rr_embedding_model;
           chunk_size := rec ≫= rr_chunk_size;
           chunk_overlap := rec ≫= rr_chunk_overlap |} in
      Returns {| runs := <[rid := row]> (runs db);
                 ingestion_log := ingestion_log db;
                 last_id := last_id db |}
  end.

(** The keyword arguments of [update_run] ([None] = not given).  The
    [metadata] argument is never passed by the callers and is left out. *)
Record RunUpdate := {
  u_end_time : option Z;
  u_status : option RunStatus;
  u_processed_files : option Z;
  u_failed_files : option Z;
  u_skipped_files : option Z;
  u_already_processed_files : option Z;
  u_total_processing_time : option Z;
  u_run_record : option RunRecord
}.

Definition no_update : RunUpdate :=
  {| u_end_time := None; u_status := None; u_processed_files := None;
     u_failed_files := None; u_skipped_files := None;
     u_already_processed_files := None; u_total_processing_time := None;
     u_run_record := None |}.

(** [SET column = ?] when the argument is given, the old value otherwise. *)
Definition set_if {A} (new old : option A) : option A :=
  match new with Some v => Some v | None => old end.

Definition apply_update (u : RunUpdate) (row : RunRow) : RunRow :=
  {| start_time := start_time row;
     end_time := set_if (u_end_time u) (end_time row);
     status := set_if (u_status u) (status row);
     total_files := total_files row;
     processed_files := set_if (u_processed_files u) (processed_files row);
     failed_files := set_if (u_failed_files u) (failed_files row);
     skipped_files := set_if (u_skipped_files u) (skipped_files row);
     already_processed_files :=
       set_if (u_already_processed_files u) (already_processed_files row);
     total_processing_time :=
       set_if (u_total_processing_time u) (total_processing_time row);
     run_name := set_if (u_run_record u ≫= rr_run_name) (run_name row);
     collection := set_if (u_run_record u ≫= rr_collection) (collection row);
     embedding_model :=
       set_if (u_run_record u ≫= rr_embedding_model) (embedding_model row);
     chunk_size := set_if (u_run_record u ≫= rr_chunk_size) (chunk_size row);
     chunk_overlap :=
       set_if (u_run_record u ≫= rr_chunk_overlap) (chunk_overlap row) |}.

(** [update_run]: UPDATE .. WHERE run_id = ?; no row, no change. *)
Definition update_run (rid : string) (u : RunUpdate) (db : Db) : Db :=
  {| runs := alter (apply_update u) rid (runs db);
     ingestion_log := ingestion_log db;
     last_id := last_id db |}.

(** [get_run_record]: the row as a [RunRecord], [None] when absent. *)
Definition get_run_record (rid : string) (db : Db) : option RunRecord :=
  match runs db !! rid with
  | None => None
  | Some row =>
      Some {| rr_run_id := rid;
              rr_start_time := start_time row;
              rr_end_time := end_time row;
              rr_status := status row;
              rr_total_files := total_files row;
              rr_processed_files := processed_files row;
              rr_failed_files := failed_files row;
              rr_skipped_files := skipped_files row;
              rr_already_processed_files := already_processed_files row;
              rr_total_processing_time := total_processing_time row;
              rr_run_name := run_name row;
              rr_collection := collection row;
              rr_embedding_model := embedding_model row;
              rr_chunk_size := chunk_size row;
              rr_chunk_overlap := chunk_overlap row |}
  end.

(** The rows selected by
    [SELECT il.* FROM ingestion_log il JOIN runs r ON il.run_id = r.run_id
     WHERE il.file_fingerprint = ? AND r.collection = ?]. *)
Definition fingerprint_match (db : Db) (fp : option string)
    (collection_name : option string) (il : LogRow) : bool :=
  sql_eq (file_fingerprint il) fp
  && match run_id il with
     | None => false
     | Some rid =>
         match runs db !! rid with
         | None => false
         | Some r => sql_eq (collection r) collection_name
         end
     end.

(** [ORDER BY id DESC LIMIT 1]: the row with the greatest [id]. *)
Fixpoint latest (rows : list LogRow) : option LogRow :=
  match rows with
  | [] => None
  | row :: rest =>
      match latest rest with
      | None => Some row
      | Some best => if id best <? id row then Some row else Some best
      end
  end.

Definition get_ingestion_by_fingerprint (fp : option string)
    (collection_name : option string) (db : Db) : option LogRow :=
  latest (List.filter (fingerprint_match db fp collection_name)
                      (ingestion_log db)).

(** [file_needs_processing]: a row found is a non-empty dictionary, hence
    true. *)
Definition file_needs_processing (fp : option string)
    (collection_name : option string) (db : Db) : bool * option LogRow :=
  match get_ingestion_by_fingerprint fp collection_name db with
  | Some previous_ingestion => (false, Some previous_ingestion)
  | None => (true, None)
  end.

(** [get_all_records]: SELECT * FROM ingestion_log WHERE collection = ?. *)
Definition get_all_records (collection_name : option string) (db : Db)
  : list LogRow :=
  List.filter (fun il => sql_eq (log_collection il) collection_name)
              (ingestion_log db).

(** [delete_record]: DELETE .. WHERE collection = ? AND file_path = ?. *)
Definition delete_record (collection_name : option string) (path : string)
    (db : Db) : Db :=
  {| runs := runs db;
     ingestion_log :=
       List.filter (fun il => negb (sql_eq (log_collection il) collection_name
                                    && String.eqb (file_path il) path))
                   (ingestion_log db);
     last_id := last_id db |}.

End DatabaseManager.

(* ===================================================================== *)
(** ** core/run_manager.py: the run controller *)
(* ===================================================================== *)

Module RunManager.
Import DatabaseManager.

(** The attributes of a [RunManager] object.  The list of embedding
    workers is only used to post unload requests, which leave the
    controller and the database untouched. *)
Record RunManager := {
  run_id : option string;
  start_time : option Z;
  end_time : option Z;
  processed_files : Z;
  failed_files : Z;
  skipped_files : Z;
  already_processed_files : Z;
  total_files : Z;
  status : RunStatus;
  run_name : option string;
  collection : option string;
  embedding_model_name : option string;
  chunk_size : option Z;
  chunk_overlap : option Z
}.

(** [__init__] *)
Definition init : RunManager :=
  {| run_id := None; start_time := None; end_time := None;
     processed_files := 0; failed_files := 0; skipped_files := 0;
     already_processed_files := 0; total_files := 0; status := not_started;
     run_name := None; collection := None; embedding_model_name := None;
     chunk_size := None; chunk_overlap := None |}.

(** The state the methods act on: the object and the database behind it. *)
Definition State : Type := RunManager * Db.

Definition set_counters (p f s a : Z) (rm : RunManager) : RunManager :=
  {| run_id := run_id rm; start_time := start_time rm; end_time := end_time rm;
     processed_files := p; failed_files := f; skipped_files := s;
     already_processed_files := a; total_files := total_files rm;
     status := status rm; run_name := run_name rm;
     collection := collection rm;
     embedding_model_name := embedding_model_name rm;
     chunk_size := chunk_size rm; chunk_overlap := chunk_overlap rm |}.

Definition set_status (st : RunStatus) (rm : RunManager) : RunManager :=
  {| run_id := run_id rm; start_time := start_time rm; end_time := end_time rm;
     processed_files := processed_files rm; failed_files := failed_files rm;
     skipped_files := skipped_files rm;
     already_processed_files := already_processed_files rm;
     total_files := total_files rm; status := st; run_name := run_name rm;
     collection := collection rm;
     embedding_model_name := embedding_model_name rm;
     chunk_size := chunk_size rm; chunk_overlap := chunk_overlap rm |}.

Definition set_end_time (t : Z) (rm : RunManager) : RunManager :=
  {| run_id := run_id rm; start_time := start_time rm; end_time := Some t;
     processed_files := processed_files rm; failed_files := failed_files rm;
     skipped_files := skipped_files rm;
     already_processed_files := already_processed_files rm;
     total_files := total_files rm; status := status rm;
     run_name := run_name rm; collection := collection rm;
     embedding_model_name := embedding_model_name rm;
     chunk_size := chunk_size rm; chunk_overlap := chunk_overlap rm |}.

(** The run metadata dictionary built by the orchestrator. *)
Record CommandLineArgs := {
  ca_collection : option string;
  ca_embedding_model : option string;
  ca_chunk_size : option Z;
  ca_chunk_overlap : option Z
}.

Record Metadata := {
  md_run_name : option string;
  md_command_line_args : option CommandLineArgs
}.

Definition no_run_in_progress : Exn :=
  MkExn "ValueError" "No run in progress. Call start_run() first.".

(** [start_run]: [uuid] is the identifier [uuid.uuid4()] would give and
    [now] the clock reading. *)
Definition start_run (uuid : string) (now : Z) (total : Z)
    (rid : option string) (metadata : option Metadata) (s : State)
  : Outcome string * State :=
  let '(rm, db) := s in
  let the_id := if opt_truthy rid then default uuid rid else uuid in
  let cmd_args := metadata ≫= md_command_line_args in
  let rm :=
    {| run_id := Some the_id; start_time := Some now; end_time := end_time rm;
       processed_files := 0; failed_files := 0; skipped_files := 0;
       already_processed_files := 0; total_files := total; status := running;
       run_name := match metadata with
                   | Some m => md_run_name m
                   | None => run_name rm
                   end;
       collection := match cmd_args with
                     | Some a => ca_collection a
                     | None => collection rm
                     end;
       embedding_model_name := match cmd_args with
                               | Some a => ca_embedding_model a
                               | None => embedding_model_name rm
                               end;
       chunk_size := match cmd_args with
                     | Some a => ca_chunk_size a
                     | None => chunk_size rm
                     end;
       chunk_overlap := match cmd_args with
                        | Some a => ca_chunk_overlap a
                        | None => chunk_overlap rm
                        end |} in
  let run_record :=
    {| rr_run_id := the_id; rr_start_time := Some now; rr_end_time := None;
       rr_status := Some running; rr_total_files := Some total;
       rr_processed_files := Some 0; rr_failed_files := Some 0;
       rr_skipped_files := Some 0; rr_already_processed_files := Some 0;
       rr_total_processing_time := None;
       rr_run_name := run_name rm; rr_collection := collection rm;
       rr_embedding_model := embedding_model_name rm;
       rr_chunk_size := chunk_size rm; rr_chunk_overlap := chunk_overlap rm |} in
  match create_run the_id now total (Some run_record) db with
  | Returns db' => (Returns the_id, (rm, db'))
  | Raises e => (Raises e, (rm, db))
  end.

(** The four counter operations. *)
Definition increment_processed (s : State) : Outcome Z * State :=
  let '(rm, db) := s in
  if negb (opt_truthy (run_id rm)) then (Raises no_run_in_progress, s)
  else
    let rm := set_counters (processed_files rm + 1) (failed_files rm)
                (skipped_files rm) (already_processed_files rm) rm in
    let db := update_run (default EmptyString (run_id rm))
                {| u_end_time := None; u_status := None;
                   u_processed_files := Some (processed_files rm);
                   u_failed_files := None; u_skipped_files := None;
                   u_already_processed_files := None;
                   u_total_processing_time := None; u_run_record := None |}
                db in
    (Returns (processed_files rm), (rm, db)).

Definition increment_failed (s : State) : Outcome Z * State :=
  let '(rm, db) := s in
  if negb (opt_truthy (run_id rm)) then (Raises no_run_in_progress, s)
  else
    let rm := set_counters (processed_files rm) (failed_files rm + 1)
                (skipped_files rm) (already_processed_files rm) rm in
    let db := update_run (default EmptyString (run_id rm))
                {| u_end_time := None; u_status := None;
                   u_processed_files := None;
                   u_failed_files := Some (failed_files rm);
                   u_skipped_files := None;
                   u_already_processed_files := None;
                   u_total_processing_time := None; u_run_record := None |}
                db in
    (Returns (failed_files rm), (rm, db)).

Definition increment_skipped (s : State) : Outcome Z * State :=
  let '(rm, db) := s in
  if negb (opt_truthy (run_id rm)) then (Raises no_run_in_progress, s)
  else
    let rm := set_counters (processed_files rm) (failed_files rm)
                (skipped_files rm + 1) (already_processed_files rm) rm in
    let db := update_run (default EmptyString (run_id rm))
                {| u_end_time := None; u_status := None;
                   u_processed_files := None; u_failed_files := None;
                   u_skipped_files := Some (skipped_files rm);
                   u_already_processed_files := None;
                   u_total_processing_time := None; u_run_record := None |}
                db in
    (Returns (skipped_files rm), (rm, db)).

Definition increment_already_processed (s : State) : Outcome Z * State :=
  let '(rm, db) := s in
  if negb (opt_truthy (run_id rm)) then (Raises no_run_in_progress, s)
  else
    let rm := set_counters (processed_files rm) (failed_files rm)
                (skipped_files rm) (already_processed_files rm + 1) rm in
    let rm := set_counters (processed_files rm) (failed_files rm)
                (skipped_files rm + 1) (already_processed_files rm) rm in
    let db := update_run (default EmptyString (run_id rm))
                {| u_end_time := None; u_status := None;
                   u_processed_files := None; u_failed_files := None;
                   u_skipped_files := Some (skipped_files rm);
                   u_already_processed_files :=
                     Some (already_processed_files rm);
                   u_total_processing_time := None; u_run_record := None |}
                db in
    (Returns (already_processed_files rm), (rm, db)).

(** Dataclass [RunStatistics], without its two floating-point fields
    (completion percentage and processing time in seconds). *)
Record RunStatistics := {
  rs_run_id : string;
  rs_start_time : Z;
  rs_end_time : option Z;
  rs_status : RunStatus;
  rs_total_files : Z;
  rs_processed_files : Z;
  rs_failed_files : Z;
  rs_skipped_files : Z;
  rs_already_processed_files : Z;
  rs_run_name : option string;
  rs_collection : option string;
  rs_embedding_model : option string;
  rs_chunk_size : option Z;
  rs_chunk_overlap : option Z
}.

(** [get_run_stats]: reads the object and the row of the run; a run that
    never got a start time or whose row is gone makes it raise. *)
Definition get_run_stats (s : State) : Outcome RunStatistics :=
  let '(rm, db) := s in
  if negb (opt_truthy (run_id rm)) then Raises no_run_in_progress
  else
    match start_time rm with
    | None =>
        Raises (MkExn "TypeError" "unsupported operand type(s) for -")
    | Some start =>
        match get_run_record (default EmptyString (run_id rm)) db with
        | None =>
            Raises (MkExn "AttributeError"
                      "'NoneType' object has no attribute 'run_name'")
        | Some run_record =>
            Returns
              {| rs_run_id := default EmptyString (run_id rm);
                 rs_start_time := start;
                 rs_end_time := end_time rm;
                 rs_status := status rm;
                 rs_total_files := total_files rm;
                 rs_processed_files := processed_files rm;
                 rs_failed_files := failed_files rm;
                 rs_skipped_files := skipped_files rm;
                 rs_already_processed_files := already_processed_files rm;
                 rs_run_name := rr_run_name run_record;
                 rs_collection := rr_collection run_record;
                 rs_embedding_model := rr_embedding_model run_record;
                 rs_chunk_size := rr_chunk_size run_record;
                 rs_chunk_overlap := rr_chunk_overlap run_record |}
        end
    end.

(** The handler of [end_run]: mark the run failed, try to persist that,
    and raise again. *)
Definition end_run_failed (now_err : Z) (e : Exn) (s : State)
  : Outcome RunStatistics * State :=
  let '(rm, db) := s in
  let rm := set_status failed rm in
  let db := update_run (default EmptyString (run_id rm))
              {| u_end_time := Some now_err; u_status := Some (status rm);
                 u_processed_files := None; u_failed_files := None;
                 u_skipped_files := None; u_already_processed_files := None;
                 u_total_processing_time := None; u_run_record := None |}
              db in
  (Raises e, (rm, db)).

(** [end_run]: [now] is the clock reading taken in the body and
    [now_err] the one taken in the handler. *)
Definition end_run (now now_err : Z) (s : State)
  : Outcome RunStatistics * State :=
  let '(rm, db) := s in
  if negb (opt_truthy (run_id rm)) then (Raises no_run_in_progress, s)
  else
    let rm := set_end_time now rm in
    match start_time rm with
    | None =>
        end_run_failed now_err
          (MkExn "TypeError" "unsupported operand type(s) for -") (rm, db)
    | Some start =>
        let total_processing_time := now - start in
        let rm := set_status (if failed_files rm >? 0
                              then completed_with_errors else completed) rm in
        let run_record :=
          {| rr_run_id := default EmptyString (run_id rm);
             rr_start_time := None;
             rr_end_time := end_time rm;
             rr_status := Some (status rm);
             rr_total_files := Some 0;
             rr_processed_files := Some (processed_files rm);
             rr_failed_files := Some (failed_files rm);
             rr_skipped_files := Some (skipped_files rm);
             rr_already_processed_files := Some (already_processed_files rm);
             rr_total_processing_time := Some total_processing_time;
             rr_run_name := None; rr_collection := None;
             rr_embedding_model := None; rr_chunk_size := None;
             rr_chunk_overlap := None |} in
        let db := update_run (default EmptyString (run_id rm))
                    {| u_end_time := end_time rm;
                       u_status := Some (status rm);
                       u_processed_files := Some (processed_files rm);
                       u_failed_files := Some (failed_files rm);
                       u_skipped_files := Some (skipped_files rm);
                       u_already_processed_files :=
                         Some (already_processed_files rm);
                       u_total_processing_time := Some total_processing_time;
                       u_run_record := Some run_record |}
                    db in
        match get_run_stats (rm, db) with
        | Returns stats => (Returns stats, (rm, db))
        | Raises e => end_run_failed now_err e (rm, db)
        end
    end.

End RunManager.

(* ===================================================================== *)
(** ** core/ingestion.py: the embedding scheduler *)
(* ===================================================================== *)

Module Scheduler.

Section Embedding.

(** The vectors and the embedding a loaded model computes for one chunk;
    every worker holds the same model, so [embed_chunks] maps it over the
    batch it is given. *)
Variable Vec : Type.
Variable embedding : string -> Vec.

Definition embed_chunks (batch : list string) : list Vec :=
  List.map embedding batch.

(** [range(0, stop, step)] for a positive step. *)
Definition range_step (stop step : nat) : list nat :=
  List.map (fun k => k * step)%nat (seq 0 ((stop + step - 1) / step)%nat).

(** [l[i:j]] for [i <= j]. *)
Definition slice {A} (l : list A) (i j : nat) : list A :=
  firstn (j - i) (skipn i l).

(** [batch_size = max(1, len(chunks) // len(embedding_model_managers))] *)
Definition batch_size (total workers : nat) : nat :=
  Nat.max 1 (total / workers).

(** [[chunks[i:i + batch_size] for i in range(0, len(chunks), batch_size)]] *)
Definition make_batches (chunks : list string) (workers : nat)
  : list (list string) :=
  let size := batch_size (List.length chunks) workers in
  List.map (fun i => slice chunks i (i + size))
           (range_step (List.length chunks) size).

(** The dictionary [actor_tasks]: worker index to the batch it is working
    on, in insertion order.  A task is identified by its batch index. *)
Definition ActorTasks : Type := list (nat * nat).

(** [actor_tasks[actor] = task] for a key already present keeps its place. *)
Fixpoint reassign (actor task : nat) (tasks : ActorTasks) : ActorTasks :=
  match tasks with
  | [] => [(actor, task)]
  | (a, t) :: rest =>
      if Nat.eqb a actor then (a, task) :: rest
      else (a, t) :: reassign actor task rest
  end.

(** [del actor_tasks[actor]] *)
Definition remove_actor (actor : nat) (tasks : ActorTasks) : ActorTasks :=
  List.filter (fun '(a, _) => negb (Nat.eqb a actor)) tasks.

(** The initial submission: worker [i] gets batch [i] while batches last. *)
Definition initial_tasks (workers n_batches : nat) : ActorTasks :=
  List.map (fun i => (i, i))
           (List.filter (fun i => Nat.ltb i n_batches) (seq 0 workers)).

(** The state of the dispatch loop. *)
Record Loop := {
  actor_tasks : ActorTasks;
  results : list Vec;
  next_batch_idx : nat
}.

(** One pass of [while actor_tasks]: [ready] says which of the outstanding
    tasks [ray.wait] reports as done (an index into the current values,
    taken modulo their number). *)
Definition step (batches : list (list string)) (ready : nat) (st : Loop)
  : Loop :=
  match nth_error (actor_tasks st) (ready mod List.length (actor_tasks st)) with
  | None => st
  | Some (actor, task) =>
      let batch_result := embed_chunks (nth task batches []) in
      let results := (results st ++ batch_result)%list in
      if Nat.ltb (next_batch_idx st) (List.length batches) then
        {| actor_tasks := reassign actor (next_batch_idx st) (actor_tasks st);
           results := results;
           next_batch_idx := S (next_batch_idx st) |}
      else
        {| actor_tasks := remove_actor actor (actor_tasks st);
           results := results;
           next_batch_idx := next_batch_idx st |}
  end.

(** The loop, for at most [fuel] passes.  [order] lists the successive
    answers of [ray.wait]; when it runs out the first outstanding task is
    taken. *)
Fixpoint loop (fuel : nat) (batches : list (list string)) (order : list nat)
    (st : Loop) : option (list Vec) :=
  match actor_tasks st with
  | [] => Some (results st)
  | _ :: _ =>
      match fuel with
      | O => None
      | S fuel' =>
          loop fuel' batches (tl order) (step batches (hd O order) st)
      end
  end.

(** [distribute_embeddings]: [workers] is the size of the pool, [order]
    the completion order.  With an empty pool the first line indexes an
    empty list. *)
Definition distribute_embeddings (workers : nat) (order : list nat)
    (chunks : list string) : option (Outcome (list Vec)) :=
  if Nat.leb (List.length chunks) 1 || Nat.leb workers 1 then
    match workers with
    | O => Some (Raises (MkExn "IndexError" "list index out of range"))
    | S _ => Some (Returns (embed_chunks chunks))
    end
  else
    let batches := make_batches chunks workers in
    option_map Returns
      (loop (List.length batches) batches order
            {| actor_tasks := initial_tasks workers (List.length batches);
               results := [];
               next_batch_idx := workers |}).

End Embedding.

End Scheduler.

(* ===================================================================== *)
(** ** models/config.py *)
(* ===================================================================== *)

Module Config.

(** [ProcessingConfig] declares [chunk_size], [chunk_overlap],
    [embedding_model] and [db_path] (the path of the database, which the
    model holds as a value).  The attribute [ray_workers], which the
    ingestion manager reads, is not among them: it is [None] for an
    instance as the dataclass builds it, and [Some n] for a processing
    configuration that carries the attribute. *)
Record ProcessingConfig := {
  chunk_size : Z;
  chunk_overlap : Z;
  embedding_model : string;
  ray_workers : option nat
}.

Definition ProcessingConfig_fields : list string :=
  ["chunk_size"; "chunk_overlap"; "embedding_model"; "db_path"].

(** The [__init__] the dataclass generates, called with keyword
    arguments: a keyword that is not a field is refused. *)
Definition ProcessingConfig_init (keywords : list string) : Outcome unit :=
  match List.filter
          (fun k => negb (existsb (String.eqb k) ProcessingConfig_fields))
          keywords with
  | [] => Returns tt
  | k :: _ =>
      Raises (MkExn "TypeError"
                ("ProcessingConfig.__init__() got an unexpected keyword argument '"
                 +:+ k +:+ "'"))
  end.

(** [AppConfig], without the connection settings of the vector store. *)
Record AppConfig := {
  processing : ProcessingConfig;
  collection : option string;
  run_id : option string;
  run_name : option string
}.

End Config.

(* ===================================================================== *)
(** ** core/ingestion.py: the per-file orchestrator *)
(* ===================================================================== *)

Module IngestionManager.
Import PdfModels DatabaseManager.

(** The part of an [IngestionManager] the orchestration acts on: the
    configuration, the run manager (created lazily) and the database. *)
Record IngestionManager := {
  config : Config.AppConfig;
  run_manager : option RunManager.RunManager;
  db_manager : Db
}.

(** The diagnostics dictionary returned by [extract_text_from_pdf]. *)
Record ExtractionDiagnostics := {
  page_count : Z;
  failure_reason : option string;
  failure_details : option string
}.

(** What the collaborators answer for one file.  Each of them may raise. *)
Record FileEnv := {
  env_now : Z;                                   (* clock, for the log row *)
  env_fingerprint : Outcome string;              (* calculate_file_fingerprint *)
  env_delete : Outcome unit;                     (* weaviate_manager.delete *)
  env_analysis : Outcome PDFAnalysisResult;      (* pdf_processor.analyze_pdf *)
  env_extraction : Outcome (string * ExtractionDiagnostics);
  env_chunks : Outcome (list string);            (* split_text_into_chunks *)
  env_collection : Outcome unit;                 (* connect, create_or_get_collection *)
  env_embeddings : Outcome unit;                 (* distribute_embeddings *)
  env_store : Outcome unit                       (* store_chunks *)
}.

Definition no_run_manager : Exn :=
  MkExn "AttributeError" "'NoneType' object has no attribute 'run_id'".

(** A method call on [self.run_manager]. *)
Definition on_run_manager {A} (op : ST RunManager.State A)
  : ST IngestionManager A :=
  fun im =>
    match run_manager im with
    | None => (Raises no_run_manager, im)
    | Some rm =>
        let '(out, (rm', db')) := op (rm, db_manager im) in
        (out, {| config := config im;
                 run_manager := Some rm';
                 db_manager := db' |})
    end.

(** [self.run_manager.run_id] *)
Definition read_run_id : ST IngestionManager (option string) :=
  on_run_manager (fun s => (Returns (RunManager.run_id (fst s)), s)).

(** [self.db_manager.log_ingestion(..)] with the configured collection. *)
Definition log (now : Z) (path : string) (st : IngestionStatus)
    (analysis : option PDFAnalysisResult) (msg : ErrorPayload)
    (rid : option string) (fp : string) : ST IngestionManager unit :=
  modify (fun im =>
    {| config := config im;
       run_manager := run_manager im;
       db_manager := log_ingestion now path (Config.collection (config im)) st
                       analysis msg rid (Some fp) (db_manager im) |}).

(** [reason_messages.get(failure_reason, "Unknown extraction issue")] *)
Definition reason_message (failure_reason : string) : string :=
  if String.eqb failure_reason "empty_document" then "PDF has no pages"
  else if String.eqb failure_reason "extraction_command_failed"
       then "Text extraction command failed"
  else if String.eqb failure_reason "empty_extraction_output"
       then "PDF produced empty output during extraction"
  else if String.eqb failure_reason "decoding_error"
       then "Character encoding issues prevented text extraction"
  else if String.eqb failure_reason "decoding_failed"
       then "Failed to decode text with any supported encoding"
  else if String.eqb failure_reason "empty_text"
       then "PDF contains no extractable text"
  else if String.eqb failure_reason "command_execution_error"
       then "Error executing text extraction command"
  else if String.eqb failure_reason "general_extraction_error"
       then "General error during text extraction"
  else "Unknown extraction issue".

Definition extraction_error_msg (text : string) (d : ExtractionDiagnostics)
  : string :=
  if opt_truthy (failure_reason d) then
    "Text extraction failed: "
    +:+ reason_message (default EmptyString (failure_reason d)) +:+ ". "
    +:+ default "None" (failure_details d)
  else
    "Extracted text is too short: only "
    +:+ PDFAnalyzer.str_of_Z (Z.of_nat (String.length text))
    +:+ " characters. This PDF may not contain extractable text.".

(** The body of the [try] block entered once the file is accepted. *)
Definition process_accepted (env : FileEnv) (path : string)
    (rid : option string) (fp : string) (analysis_result : PDFAnalysisResult)
    (detailed_diagnostics : PDFProcessor.Diagnostics)
  : ST IngestionManager IngestionStatus :=
  do extracted <- lift (env_extraction env);
  let '(text, extraction_diagnostics) := extracted in
  if negb (str_truthy text) then
    exec log (env_now env) path skipped None
         (ExtractionFailure (extraction_error_msg text extraction_diagnostics)
                            detailed_diagnostics)
         rid fp;
    exec on_run_manager RunManager.increment_skipped;
    ret skipped
  else
    do chunks <- lift (env_chunks env);
    if negb (list_truthy chunks) then
      exec log (env_now env) path skipped None
           (Message "No chunks were created from the extracted text. Cannot proceed with embedding.")
           rid fp;
      exec on_run_manager RunManager.increment_skipped;
      ret skipped
    else
      exec lift (env_collection env);
      exec lift (env_embeddings env);
      exec lift (env_store env);
      exec log (env_now env) path success (Some analysis_result) NoMessage
           rid fp;
      exec on_run_manager RunManager.increment_processed;
      ret success.

(** The diagnostics are stored under [metadata["diagnostics"]], a
    dictionary created only when the metadata has no key ["metadata"].
    With that key present the subscript fails: the key ["diagnostics"] is
    missing, or it holds a string of the document's own metadata.  The
    dictionary stored is not read by what follows and is not modelled. *)
Definition attach_diagnostics (analysis_result : PDFAnalysisResult)
  : ST IngestionManager unit :=
  if has_key "metadata" (metadata analysis_result) then
    if has_key "diagnostics" (metadata analysis_result) then
      lift (Raises (MkExn "TypeError"
                      "'str' object does not support item assignment"))
    else lift (Raises (MkExn "KeyError" "'diagnostics'"))
  else ret tt.

(** [ingest_file] *)
Definition ingest_file (env : FileEnv) (path : string)
  : ST IngestionManager IngestionStatus :=
  do rid <- read_run_id;
  do fp <- lift (env_fingerprint env);
  do im <- get_state;
  if str_truthy fp
     && negb (fst (file_needs_processing (Some fp) (Config.collection (config im))
                                         (db_manager im)))
  then
    exec on_run_manager RunManager.increment_already_processed;
    ret already_processed
  else
    exec lift (env_delete env);
    match env_analysis env with
    | Raises e =>
        exec log (env_now env) path error None
             (Message ("Analysis error: " +:+ exn_msg e)) rid fp;
        exec on_run_manager RunManager.increment_failed;
        ret error
    | Returns analysis_result =>
        let '(is_acceptable, reason, detailed_diagnostics) :=
          PDFProcessor.is_pdf_acceptable analysis_result in
        exec attach_diagnostics analysis_result;
        if negb is_acceptable then
          exec log (env_now env) path skipped None
               (Rejection reason detailed_diagnostics) rid fp;
          exec on_run_manager RunManager.increment_skipped;
          ret skipped
        else
          try_except
            (process_accepted env path rid fp analysis_result
                              detailed_diagnostics)
            (fun e =>
               exec log (env_now env) path error (Some analysis_result)
                    (Message ("Ingestion error: " +:+ exn_msg e)) rid fp;
               exec on_run_manager RunManager.increment_failed;
               ret error)
    end.

(** [IngestionManager.start_run]: builds the run metadata from the
    configuration, creates the run manager if needed, starts the run and
    preloads the models ([preload] is what waiting for the workers gives). *)
Definition run_metadata (c : Config.AppConfig) : RunManager.Metadata :=
  {| RunManager.md_run_name :=
       if opt_truthy (Config.run_name c) then Config.run_name c else None;
     RunManager.md_command_line_args :=
       Some {| RunManager.ca_collection := Config.collection c;
               RunManager.ca_embedding_model :=
                 Some (Config.embedding_model (Config.processing c));
               RunManager.ca_chunk_size :=
                 Some (Config.chunk_size (Config.processing c));
               RunManager.ca_chunk_overlap :=
                 Some (Config.chunk_overlap (Config.processing c)) |} |}.

(** [get_embedding_model_managers]: the size of the pool.  The workers
    are created on first use, as many as [config.processing.ray_workers]
    says, and kept; the configuration does not change, so every call
    answers the same. *)
Definition get_embedding_model_managers : ST IngestionManager nat :=
  fun im =>
    match Config.ray_workers (Config.processing (config im)) with
    | Some num_workers => (Returns num_workers, im)
    | None =>
        (Raises (MkExn "AttributeError"
                   "'ProcessingConfig' object has no attribute 'ray_workers'"),
         im)
    end.

(** [get_run_manager]: the run manager is created on first use, once the
    pool is there. *)
Definition get_run_manager : ST IngestionManager unit :=
  fun im =>
    match run_manager im with
    | Some _ => (Returns tt, im)
    | None =>
        (exec get_embedding_model_managers;
         modify (fun im =>
           {| config := config im;
              run_manager := Some RunManager.init;
              db_manager := db_manager im |})) im
    end.

Definition start_run (uuid : string) (now : Z) (total : Z)
    (preload : Outcome unit) : ST IngestionManager string :=
  exec get_run_manager;
  do im <- get_state;
  do rid <- on_run_manager
              (RunManager.start_run uuid now total (Config.run_id (config im))
                 (Some (run_metadata (config im))));
  exec get_embedding_model_managers;
  exec lift preload;
  ret rid.

(** [IngestionManager.end_run] *)
Definition end_run (now now_err : Z)
  : ST IngestionManager (option RunManager.RunStatistics) :=
  fun im =>
    match run_manager im with
    | None => (Returns None, im)
    | Some _ =>
        (do stats <- on_run_manager (RunManager.end_run now now_err);
         ret (Some stats)) im
    end.

End IngestionManager.

(* ===================================================================== *)
(** ** cli/main.py: the [ingest] command *)
(* ===================================================================== *)

Module Cli.
Import DatabaseManager IngestionManager.

(** What the environment answers during one invocation. *)
Record RunEnv := {
  uuid : string;
  clock_start : Z;
  clock_end : Z;                (* read by [end_run] in the normal path *)
  clock_end_err : Z;            (* read by the handler inside [end_run] *)
  clock_abort : Z;              (* the same two readings when [end_run] *)
  clock_abort_err : Z;          (*   is called from the [except] block  *)
  connect : Outcome unit;       (* the connection check of the vector store *)
  preload : Outcome unit;
  stale_delete : string -> Outcome unit;      (* weaviate deletion of a stale path *)
  pdf_files : list (string * FileEnv)
}.

(** The reconciliation loop over [get_all_records(collection)]. *)
Fixpoint reconcile (env : RunEnv) (coll : option string) (records : list LogRow)
  : ST IngestionManager unit :=
  match records with
  | [] => ret tt
  | record :: rest =>
      if existsb (String.eqb (file_path record)) (List.map fst (pdf_files env))
      then reconcile env coll rest
      else
        exec lift (stale_delete env (file_path record));
        exec modify (fun im =>
               {| config := config im;
                  run_manager := run_manager im;
                  db_manager := delete_record coll (file_path record)
                                              (db_manager im) |});
        reconcile env coll rest
  end.

(** [for pdf_file in pdf_files: status = ingestion_manager.ingest_file(..)] *)
Fixpoint process_files (files : list (string * FileEnv))
  : ST IngestionManager (list IngestionStatus) :=
  match files with
  | [] => ret []
  | (path, fenv) :: rest =>
      do status <- ingest_file fenv path;
      do statuses <- process_files rest;
      ret (status :: statuses)
  end.

(** The [try] block after the connection check, up to the return of
    [end_run]. *)
Definition ingest_body (env : RunEnv) : ST IngestionManager unit :=
  exec start_run (uuid env) (clock_start env)
       (Z.of_nat (List.length (pdf_files env))) (preload env);
  do im <- get_state;
  exec reconcile env (Config.collection (config im))
       (get_all_records (Config.collection (config im)) (db_manager im));
  exec process_files (pdf_files env);
  exec IngestionManager.end_run (clock_end env) (clock_end_err env);
  ret tt.

(** The [except Exception] block: when a run was started, "mark the run
    as failed" by setting the status and calling [end_run], whose own
    failure is only reported. *)
Definition on_exception (env : RunEnv) : ST IngestionManager unit :=
  fun im =>
    match run_manager im with
    | Some rm =>
        if opt_truthy (RunManager.run_id rm) then
          try_except
            (exec on_run_manager (modify (fun s =>
                    (RunManager.set_status failed (fst s), snd s)));
             exec on_run_manager
                    (RunManager.end_run (clock_abort env) (clock_abort_err env));
             ret tt)
            (fun _ => ret tt) im
        else (Returns tt, im)
    | None => (Returns tt, im)
    end.

(** [_display_run_stats] is defined with the single parameter
    [run_stats]; its body only prints.  A call with another number of
    positional arguments fails before the body is entered. *)
Definition _display_run_stats (n_args : nat) : Outcome unit :=
  if Nat.eqb n_args 1 then Returns tt
  else Raises (MkExn "TypeError"
                 "_display_run_stats() takes 1 positional argument but 2 were given").

(** The [try] block after the connection check, to its end: once
    [end_run] has returned the command calls
    [_display_run_stats(run_stats, verbose)]. *)
Definition try_block (env : RunEnv) : ST IngestionManager unit :=
  exec ingest_body env;
  lift (_display_run_stats 2).

Definition is_ConnectionError (e : Exn) : bool :=
  String.eqb (exn_class e) "ConnectionError".

(** [ingest_pdfs], once the arguments have passed their checks and Ray
    is initialised: it builds the configuration, passing [ray_workers]
    to [ProcessingConfig] among the keywords, then creates the ingestion
    manager ([im], over the database as it is) and enters the [try]
    block.  The result is the exit code, or the exception that leaves
    the command, with the final state.  [sys.exit(1)] after a failed
    connection check passes the [except] block by. *)
Definition ingest_pdfs (env : RunEnv) (im : IngestionManager)
  : Outcome Z * IngestionManager :=
  match Config.ProcessingConfig_init
          ["chunk_size"; "chunk_overlap"; "embedding_model"; "db_path";
           "ray_workers"] with
  | Raises e => (Raises e, im)
  | Returns _ =>
      match connect env with
      | Raises e =>
          if is_ConnectionError e then (Returns 1, im)
          else (Returns 1, snd (on_exception env im))
      | Returns _ =>
          match try_block env im with
          | (Returns _, im') => (Returns 0, im')
          | (Raises _, im') => (Returns 1, snd (on_exception env im'))
          end
      end
  end.


End Cli.

(* ===================================================================== *)
(** ** core/pdf_processor.py: text extraction *)
(* ===================================================================== *)

Module TextExtraction.

(** The details dictionary the extraction interface returns beside the
    text; a key may be missing. *)
Record ExtractionDetails := {
  d_success : option bool;
  d_page_count : option Z;
  d_failure_reason : option string;
  d_failure_details : option string
}.

(** One entry of [extraction_attempts]. *)
Record Attempt := {
  method : string;
  attempt_success : bool;
  char_count : Z
}.

(** Dataclass [ExtractionResult]. *)
Record ExtractionResult := {
  text : string;
  page_count : Z;
  successful : bool;
  failure_reason : option string;
  failure_details : option string;
  extraction_attempts : list Attempt
}.

(** The dictionary built by [_create_diagnostics_from_result]. *)
Record Diagnostics := {
  diag_extraction_attempts : list Attempt;
  diag_page_count : Z;
  diag_failure_reason : option string;
  diag_failure_details : option string
}.

Definition _create_diagnostics_from_result (r : ExtractionResult) : Diagnostics :=
  {| diag_extraction_attempts := extraction_attempts r;
     diag_page_count := page_count r;
     diag_failure_reason := failure_reason r;
     diag_failure_details := failure_details r |}.

Section Strip.

(** [str.isspace] on one character. *)
Variable isspace : ascii -> bool.

(** [text.strip() == ""]: every character is white space. *)
Fixpoint strip_is_empty (text : string) : bool :=
  match text with
  | EmptyString => true
  | String c rest => isspace c && strip_is_empty rest
  end.

(** [extract_text_from_pdf]: [path_exists] is what [os.path.exists]
    answers and [backend] what the extraction interface answers. *)
Definition extract_text_from_pdf (pdf_path : string) (path_exists : bool)
    (backend : Outcome (string * ExtractionDetails))
  : Outcome (string * Diagnostics) :=
  if negb path_exists then
    Raises (MkExn "FileNotFoundError" ("PDF file not found: " +:+ pdf_path))
  else
    match backend with
    | Raises e =>
        Returns (EmptyString,
                 _create_diagnostics_from_result
                   {| text := EmptyString; page_count := 0;
                      successful := false;
                      failure_reason := Some "general_extraction_error";
                      failure_details :=
                        Some ("Error extracting text from PDF: " +:+ exn_msg e);
                      extraction_attempts := [] |})
    | Returns (extracted, extraction_details) =>
        let pages := default 0 (d_page_count extraction_details) in
        if negb (default false (d_success extraction_details)) then
          Returns (EmptyString,
                   _create_diagnostics_from_result
                     {| text := extracted; page_count := pages;
                        successful := false;
                        failure_reason :=
                          Some (default "unknown_error"
                                        (d_failure_reason extraction_details));
                        failure_details :=
                          Some (default "Unknown extraction error"
                                        (d_failure_details extraction_details));
                        extraction_attempts := [] |})
        else if pages =? 0 then
          Returns (EmptyString,
                   _create_diagnostics_from_result
                     {| text := extracted; page_count := pages;
                        successful := false;
                        failure_reason := Some "empty_document";
                        failure_details := Some "PDF has 0 pages";
                        extraction_attempts := [] |})
        else if negb (str_truthy extracted) || strip_is_empty extracted then
          Returns (EmptyString,
                   _create_diagnostics_from_result
                     {| text := extracted; page_count := pages;
                        successful := false;
                        failure_reason := Some "empty_text";
                        failure_details :=
                          Some "Extracted text is empty or contains only whitespace";
                        extraction_attempts := [] |})
        else
          Returns (extracted,
                   _create_diagnostics_from_result
                     {| text := extracted; page_count := pages;
                        successful := true;
                        failure_reason := None;
                        failure_details := None;
                        extraction_attempts :=
                          [{| method := "pymupdf_external";
                              attempt_success := true;
                              char_count :=
                                Z.of_nat (String.length extracted) |}] |})
    end.

End Strip.

End TextExtraction.

(* ===================================================================== *)
(** ** core/weaviate_manager.py: storing chunks *)
(* ===================================================================== *)

Module WeaviateManager.

(** A property value of a stored object. *)
Inductive Value :=
| VText (s : string)
| VNumber (n : Z)
| VDate (t : Z).

Section Store.

Variable Vec : Type.

(** What [batch.add_object] receives, without the random identifier. *)
Record StoredObject := {
  properties : gmap string Value;
  vector : Vec
}.

(** [properties[key] = value] for every item of [metadata], in order. *)
Definition override (metadata : list (string * Value))
    (props : gmap string Value) : gmap string Value :=
  fold_left (fun acc item => <[fst item := snd item]> acc) metadata props.

(** [d.get(key, default)] on a dictionary kept as a list of items: the
    last item of that key counts. *)
Definition lookup_item (key : string) (d : list (string * Value))
  : option Value :=
  override d ∅ !! key.

(** The object built for chunk number [i]. *)
Definition chunk_object (now : Z) (metadata : list (string * Value))
    (i : nat) (chunk : string) (embedding : Vec) : StoredObject :=
  let chunk_metadata := (metadata ++ [("chunk_index", VNumber (Z.of_nat i))])%list in
  {| properties :=
       override metadata
         (<["ts" := VDate now]>
          (<["total_chunks" :=
               default (VNumber 0) (lookup_item "total_chunks" chunk_metadata)]>
           (<["chunk_index" :=
                default (VNumber 0) (lookup_item "chunk_index" chunk_metadata)]>
            (<["full_path" :=
                 default (VText EmptyString)
                         (lookup_item "full_path" chunk_metadata)]>
             (<["text" := VText chunk]> ∅)))));
     vector := embedding |}.

(** [enumerate(zip(chunks, embeddings))] *)
Fixpoint objects_from (now : Z) (metadata : list (string * Value)) (i : nat)
    (chunks : list string) (embeddings : list Vec) : list StoredObject :=
  match chunks, embeddings with
  | chunk :: chunks', embedding :: embeddings' =>
      chunk_object now metadata i chunk embedding
      :: objects_from now metadata (S i) chunks' embeddings'
  | _, _ => []
  end.

(** [store_chunks]: the objects handed to the batch, or the exception.
    [batch] is what the batch context of the vector store answers. *)
Definition store_chunks (now : Z) (chunks : list string)
    (embeddings : list Vec) (metadata : list (string * Value))
    (batch : Outcome unit) : Outcome (list StoredObject) :=
  if negb (Nat.eqb (List.length chunks) (List.length embeddings)) then
    Raises (MkExn "ValueError"
              ("Number of chunks ("
               +:+ PDFAnalyzer.str_of_Z (Z.of_nat (List.length chunks))
               +:+ ") does not match number of embeddings ("
               +:+ PDFAnalyzer.str_of_Z (Z.of_nat (List.length embeddings))
               +:+ ")"))
  else
    match batch with
    | Raises e => Raises e
    | Returns _ => Returns (objects_from now metadata 0 chunks embeddings)
    end.

End Store.

(** The metadata [ingest_file] passes. *)
Definition ingest_metadata (abs_path : string) (chunk_size : Z)
    (chunks : list string) : list (string * Value) :=
  [("full_path", VText abs_path);
   ("chunk_size", VNumber chunk_size);
   ("total_chunks", VNumber (Z.of_nat (List.length chunks)))].

End WeaviateManager.

(* ===================================================================== *)
(** ** utils/file_utils.py: the fingerprint *)
(* ===================================================================== *)

Module FileUtils.

Section Fingerprint.

(** The hexadecimal SHA-256 digest of a byte string. *)
Variable sha256_hexdigest : string -> string.

(** [calculate_file_fingerprint]: [abs_path] is what [os.path.abspath]
    gives and [file_size] the size [os.stat] reports.  The two [update]
    calls feed the digest the path followed by the decimal size. *)
Definition calculate_file_fingerprint (abs_path : string) (file_size : Z)
  : string :=
  sha256_hexdigest (abs_path +:+ PDFAnalyzer.str_of_Z file_size).

End Fingerprint.

End FileUtils.

(* ===================================================================== *)
(** * Properties *)
(* ===================================================================== *)

(** ** Strings *)

Lemma append_cons (a : ascii) (s t : string) :
  String a s +:+ t = String a (s +:+ t).
Proof. reflexivity. Qed.

Lemma append_nil_l (s : string) : EmptyString +:+ s = s.
Proof. reflexivity. Qed.

Lemma append_assoc (s t u : string) : (s +:+ t) +:+ u = s +:+ (t +:+ u).
Proof.
  induction s as [|a s IH].
  - reflexivity.
  - rewrite !append_cons, IH. reflexivity.
Qed.

Lemma append_nil_r (s : string) : s +:+ EmptyString = s.
Proof.
  induction s as [|a s IH]; [reflexivity|].
  rewrite append_cons, IH. reflexivity.
Qed.

Lemma Substring_refl (s : string) : Substring s s.
Proof. exists EmptyString, EmptyString. rewrite append_nil_l, append_nil_r. reflexivity. Qed.

Lemma Substring_app_r (d p s : string) : Substring d s -> Substring d (p +:+ s).
Proof.
  intros (pre & post & ->). exists (p +:+ pre), post.
  rewrite append_assoc. reflexivity.
Qed.

Lemma Substring_app_l (d s q : string) : Substring d s -> Substring d (s +:+ q).
Proof.
  intros (pre & post & ->). exists pre, (post +:+ q).
  rewrite !append_assoc. reflexivity.
Qed.

Lemma join_cons (sep x y : string) (l : list string) :
  join sep (x :: y :: l) = x +:+ sep +:+ join sep (y :: l).
Proof. reflexivity. Qed.

(** Every item of a joined list occurs in the result. *)
Lemma Substring_join (sep d : string) (l : list string) :
  In d l -> Substring d (join sep l).
Proof.
  induction l as [|x [|y l] IH]; intros Hin.
  - destruct Hin.
  - destruct Hin as [->|[]]. apply Substring_refl.
  - rewrite join_cons. destruct Hin as [->|Hin].
    + apply Substring_app_l, Substring_refl.
    + apply Substring_app_r, Substring_app_r, IH, Hin.
Qed.

(** ** The acceptance policy *)

Module PolicyFacts.
Import PdfModels PDFProcessor.

Lemma is_high_iff (i : PDFIssue) : is_high i = true <-> severity i = "high".
Proof. unfold is_high. apply String.eqb_eq. Qed.

Lemma has_critical_issues_iff (r : PDFAnalysisResult) :
  has_critical_issues r = true
  <-> exists i, In i (issues r) /\ severity i = "high".
Proof.
  unfold has_critical_issues. rewrite existsb_exists.
  split; intros (i & Hin & Hi); exists i; split; auto; now apply is_high_iff.
Qed.

Lemma critical_rejects (r : PDFAnalysisResult) :
  has_critical_issues r = true ->
  is_pdf_acceptable r
  = (false, critical_reason r,
     diagnostics r (Some "critical_issues") (Some "critical_issues")).
Proof. intros H. unfold is_pdf_acceptable. rewrite H. reflexivity. Qed.

Lemma damaged_rejects (r : PDFAnalysisResult) :
  has_critical_issues r = false -> is_damaged r = true ->
  is_pdf_acceptable r
  = (false, "PDF is damaged", diagnostics r (Some "damaged") (Some "damaged")).
Proof. intros H1 H2. unfold is_pdf_acceptable. rewrite H1, H2. reflexivity. Qed.

(** C4. Whenever the analysis holds an issue of severity high, the policy
    rejects, and the description of every issue of severity high occurs
    in the reason it gives. *)
Theorem high_severity_rejects_with_all_descriptions (r : PDFAnalysisResult) :
  (exists i, In i (issues r) /\ severity i = "high") ->
  fst (fst (is_pdf_acceptable r)) = false
  /\ forall i, In i (issues r) -> severity i = "high" ->
       Substring (description i) (snd (fst (is_pdf_acceptable r))).
Proof.
  intros Hex. apply has_critical_issues_iff in Hex.
  rewrite (critical_rejects r Hex). cbn [fst snd]. split; [reflexivity|].
  intros i Hin Hsev. unfold critical_reason.
  apply Substring_app_r, Substring_join, in_map, filter_In.
  split; [exact Hin | now apply is_high_iff].
Qed.

Definition two_critical : PDFAnalysisResult :=
  {| filepath := "/data/a.pdf"; filesize := 10; num_pages := 3;
     is_encrypted := true; is_damaged := false; encoding_types := ∅;
     fonts := [];
     issues := [PDFAnalyzer.mk_issue PASSWORD_PROTECTED
                  "PDF is password protected" "high" [];
                PDFAnalyzer.mk_issue MISSING_FONTS
                  "Non-embedded font: Arial" "medium" [0];
                PDFAnalyzer.mk_issue DAMAGED "xref table is broken" "high" []];
     metadata := [] |}.

Example two_critical_reason :
  is_pdf_acceptable two_critical
  = (false,
     "Critical issues detected: PDF is password protected, xref table is broken",
     diagnostics two_critical (Some "critical_issues") (Some "critical_issues")).
Proof. reflexivity. Qed.

Lemma high_severity_rejects_witness :
  fst (fst (is_pdf_acceptable two_critical)) = false
  /\ forall i, In i (issues two_critical) -> severity i = "high" ->
       Substring (description i) (snd (fst (is_pdf_acceptable two_critical))).
Proof.
  apply (high_severity_rejects_with_all_descriptions two_critical).
  eexists. split; [left; reflexivity | reflexivity].
Defined.

(** A damaged scan as the analyzer produces it: the damage is reported
    by an issue of severity high. *)
Definition damaged_scan : PDFAnalysisResult :=
  {| filepath := "/data/scan.pdf"; filesize := 2048; num_pages := 1;
     is_encrypted := false; is_damaged := true; encoding_types := ∅;
     fonts := [];
     issues := [PDFAnalyzer.mk_issue DAMAGED "Stream is truncated" "high" [];
                PDFAnalyzer.mk_issue SCANNED_IMAGE
                  "Pages contain only images" "medium" []];
     metadata := [] |}.

(** C5, as stated, fails: a damaged result with a SCANNED_IMAGE issue that
    also holds an issue of severity high is rejected by rule 1, with the
    reason and category of critical issues, not the damaged ones. *)
Lemma damaged_scan_rejected_as_critical :
  is_damaged damaged_scan = true
  /\ (exists i, In i (issues damaged_scan) /\ issue_type i = SCANNED_IMAGE)
  /\ is_pdf_acceptable damaged_scan
     = (false, "Critical issues detected: Stream is truncated",
        diagnostics damaged_scan (Some "critical_issues")
                    (Some "critical_issues"))
  /\ snd (fst (is_pdf_acceptable damaged_scan)) <> "PDF is damaged".
Proof.
  split; [reflexivity|]. split.
  - eexists. split; [right; left; reflexivity | reflexivity].
  - split; [reflexivity | discriminate].
Qed.

(** C5, amended. A damaged result with a SCANNED_IMAGE issue is always
    rejected, never accepted with a warning; the reason is the damaged one
    exactly when no issue has severity high, and otherwise the one of
    rule 1. *)
Theorem damaged_outranks_scanned (r : PDFAnalysisResult) :
  is_damaged r = true ->
  (exists i, In i (issues r) /\ issue_type i = SCANNED_IMAGE) ->
  fst (fst (is_pdf_acceptable r)) = false
  /\ (has_critical_issues r = false ->
      is_pdf_acceptable r
      = (false, "PDF is damaged",
         diagnostics r (Some "damaged") (Some "damaged")))
  /\ (has_critical_issues r = true ->
      is_pdf_acceptable r
      = (false, critical_reason r,
         diagnostics r (Some "critical_issues") (Some "critical_issues"))).
Proof.
  intros Hdam _. split; [|split].
  - destruct (has_critical_issues r) eqn:Hc.
    + now rewrite critical_rejects.
    + now rewrite damaged_rejects.
  - intros Hc. now apply damaged_rejects.
  - intros Hc. now apply critical_rejects.
Qed.

Definition damaged_scan_no_critical : PDFAnalysisResult :=
  {| filepath := "/data/scan.pdf"; filesize := 2048; num_pages := 1;
     is_encrypted := false; is_damaged := true; encoding_types := ∅;
     fonts := [];
     issues := [PDFAnalyzer.mk_issue SCANNED_IMAGE
                  "Pages contain only images" "medium" []];
     metadata := [] |}.

Lemma damaged_outranks_scanned_witness :
  fst (fst (is_pdf_acceptable damaged_scan_no_critical)) = false
  /\ (has_critical_issues damaged_scan_no_critical = false ->
      is_pdf_acceptable damaged_scan_no_critical
      = (false, "PDF is damaged",
         diagnostics damaged_scan_no_critical (Some "damaged") (Some "damaged")))
  /\ (has_critical_issues damaged_scan_no_critical = true ->
      is_pdf_acceptable damaged_scan_no_critical
      = (false, critical_reason damaged_scan_no_critical,
         diagnostics damaged_scan_no_critical (Some "critical_issues")
                     (Some "critical_issues"))).
Proof.
  apply (damaged_outranks_scanned damaged_scan_no_critical).
  - reflexivity.
  - eexists. split; [left; reflexivity | reflexivity].
Defined.

End PolicyFacts.

(** ** The structural analyzer *)

Module AnalyzerFacts.
Import PdfModels PDFAnalyzer.

(** An issue of type DAMAGED and severity high is present. *)
Definition has_damaged_issue (r : PDFAnalysisResult) : Prop :=
  exists i, In i (issues r) /\ issue_type i = DAMAGED /\ severity i = "high".

Lemma startswith_spec (sig header : list byte) :
  startswith sig header = true <-> exists rest, header = (sig ++ rest)%list.
Proof.
  revert header. induction sig as [|a sig IH]; intros header; simpl.
  - split; [intros _; now exists header | reflexivity].
  - destruct header as [|b header].
    + split; [discriminate | intros (rest & Hrest); discriminate].
    + rewrite andb_true_iff, IH. split.
      * intros (Hab & rest & ->). exists rest.
        apply Byte.byte_dec_bl in Hab. now subst.
      * intros (rest & Heq). injection Heq as -> ->. split.
        -- apply Byte.byte_dec_lb. reflexivity.
        -- now exists rest.
Qed.

(** Reading only the first [n] bytes does not change the test as long as
    the signature fits. *)
Lemma startswith_firstn (sig header : list byte) (n : nat) :
  (List.length sig <= n)%nat ->
  startswith sig (firstn n header) = startswith sig header.
Proof.
  revert header n. induction sig as [|a sig IH]; intros header n Hn.
  - reflexivity.
  - simpl in Hn. destruct n as [|n]; [lia|].
    destruct header as [|b header]; [reflexivity|].
    simpl. f_equal. apply IH. lia.
Qed.

Lemma invalid_when_no_signature (f : FileEntry) :
  (forall content, file_bytes f = Returns content ->
     ~ exists rest, content = (pdf_signature ++ rest)%list) ->
  _is_valid_pdf f = false.
Proof.
  intros H. unfold _is_valid_pdf. destruct (file_bytes f) as [content|e].
  - rewrite startswith_firstn by (simpl; lia).
    apply not_true_is_false. rewrite startswith_spec. now apply H.
  - reflexivity.
Qed.

Lemma mark_failed_damaged (first second : string) (r : PDFAnalysisResult) :
  is_damaged (mark_failed first second r) = true
  /\ has_damaged_issue (mark_failed first second r).
Proof.
  split; [reflexivity|]. eexists. split.
  - unfold mark_failed, append_issue. simpl. apply in_app_iff.
    right. left. reflexivity.
  - split; reflexivity.
Qed.

(** *** The fallback parser leaves the damage flag alone *)

Lemma extract_one_font_damaged page_num entry st :
  is_damaged (snd (extract_one_font page_num entry st)) = is_damaged (snd st).
Proof.
  destruct st as [font_set r], entry as [key [font|e]]; simpl; [|reflexivity].
  case_bool_decide; [reflexivity|].
  destruct (pf_FontDescriptor font) as [[fd|e]|];
    destruct (font_encoding_of _); simpl;
    repeat match goal with |- context [if ?b then _ else _] => destruct b end;
    reflexivity.
Qed.

Lemma extract_page_fonts_damaged page_num page st :
  is_damaged (snd (extract_page_fonts page_num page st)) = is_damaged (snd st).
Proof.
  unfold extract_page_fonts.
  destruct (page_Resources page) as [res|]; [|reflexivity].
  destruct (res_Font res) as [page_fonts|]; [|reflexivity].
  revert st. induction page_fonts as [|entry rest IH]; intros st; simpl.
  - reflexivity.
  - rewrite IH. apply extract_one_font_damaged.
Qed.

Lemma extract_pages_damaged pages page_num st :
  is_damaged (snd (extract_pages page_num pages st)) = is_damaged (snd st).
Proof.
  revert page_num st. induction pages as [|page rest IH]; intros n st; simpl.
  - reflexivity.
  - rewrite IH. apply extract_page_fonts_damaged.
Qed.

Lemma pikepdf_body_damaged (opened : Outcome PikePdf) (r : PDFAnalysisResult) :
  is_damaged (snd (pikepdf_body opened r)) = is_damaged r.
Proof.
  unfold pikepdf_body, bind, lift, modify, when, get_state, ret,
    _extract_fonts_with_pikepdf.
  destruct opened as [pdf|e]; [|reflexivity].
  destruct (pike_pages pdf) as [pages|e]; [|reflexivity].
  destruct (pike_docinfo pdf) as [docinfo|e]; [|reflexivity].
  destruct (list_truthy docinfo);
    (destruct (pike_Root_has_EmbeddedFiles pdf) as [[|]|e]; [| |reflexivity]);
    (destruct (pike_objects_len pdf) as [n|e]; [|reflexivity]);
    simpl; destruct (n >? _); simpl;
    rewrite extract_pages_damaged; reflexivity.
Qed.

Lemma analyze_with_pikepdf_damaged (opened : Outcome PikePdf)
    (r : PDFAnalysisResult) :
  is_damaged (snd (_analyze_with_pikepdf opened r)) = is_damaged r.
Proof.
  unfold _analyze_with_pikepdf, try_except.
  pose proof (pikepdf_body_damaged opened r) as H.
  destruct (pikepdf_body opened r) as [[u|e] r']; simpl in *; [exact H|].
  destruct (is_PasswordError e); simpl; exact H.
Qed.

(** After the fallback was tried, the flag is set only by its handler. *)
Lemma fallback_damaged (first : string) (opened : Outcome PikePdf)
    (r : PDFAnalysisResult) :
  is_damaged r = false ->
  is_damaged (fallback first opened r) = true ->
  has_damaged_issue (fallback first opened r).
Proof.
  unfold fallback. intros Hr.
  pose proof (analyze_with_pikepdf_damaged opened r) as H.
  destruct (_analyze_with_pikepdf opened r) as [[u|e2] r']; simpl in *.
  - congruence.
  - intros _. apply mark_failed_damaged.
Qed.

Lemma fallback_raises (first : string) (opened : Outcome PikePdf)
    (r r' : PDFAnalysisResult) (e2 : Exn) :
  _analyze_with_pikepdf opened r = (Raises e2, r') ->
  fallback first opened r = mark_failed first (exn_msg e2) r'.
Proof. unfold fallback. intros ->. reflexivity. Qed.

(** *** The answer of the primary parser is copied *)

Lemma process_encoding_types_damaged names r :
  is_damaged (process_encoding_types names r) = is_damaged r.
Proof.
  unfold process_encoding_types. revert r.
  induction names as [|name rest IH]; intros r; simpl; [reflexivity|].
  rewrite IH. destruct (encoding_by_name name); reflexivity.
Qed.

Lemma process_fonts_damaged l r :
  is_damaged (fold_left process_font l r) = is_damaged r.
Proof.
  revert r. induction l as [|fd rest IH]; intros r; simpl; [reflexivity|].
  rewrite IH. reflexivity.
Qed.

Lemma process_issues_damaged l r :
  is_damaged (fold_left process_issue l r) = is_damaged r.
Proof.
  revert r. induction l as [|d rest IH]; intros r; simpl; [reflexivity|].
  rewrite IH. unfold process_issue.
  destruct (issue_type_by_name _); reflexivity.
Qed.

Lemma process_analysis_damaged (a : Analysis) (r : PDFAnalysisResult) :
  is_damaged (process_analysis a r) = get_or (a_is_damaged a) false.
Proof.
  unfold process_analysis.
  rewrite process_issues_damaged, process_fonts_damaged,
    process_encoding_types_damaged.
  destruct (a_metadata a) as [m|]; [destruct (list_truthy m)|]; reflexivity.
Qed.

(** *** Concrete files and parser answers *)

(** [%PDF-1.7] *)
Definition pdf_header : list byte := [x25; x50; x44; x46; x2d; x31; x2e; x37].

Definition good_file : FileEntry :=
  {| st_size := 8; file_bytes := Returns pdf_header |}.

(** A file that starts with [<html] *)
Definition html_file : FileEntry :=
  {| st_size := 5; file_bytes := Returns [x3c; x68; x74; x6d; x6c] |}.

Definition primary_failed : Analysis :=
  {| a_success := Some false; a_error := Some "cannot open document";
     a_num_pages := None; a_is_encrypted := None; a_is_damaged := None;
     a_metadata := None; a_encoding_types := None; a_fonts := None;
     a_issues := None |}.

Definition pike_broken : Outcome PikePdf :=
  Raises (MkExn "PdfError" "unable to find trailer dictionary").

(** When the primary parser gives no answer at all (the call raises, as
    any call of a method the interface does not define does), the flag is
    only ever set together with a DAMAGED issue. *)
Lemma damaged_flag_has_issue_when_primary_raises (path : string)
    (f : FileEntry) (e : Exn) (opened : Outcome PikePdf)
    (r : PDFAnalysisResult) (calls : list ParserCall) :
  analyze_file path (Some f) (Raises e) opened = (Returns r, calls) ->
  is_damaged r = true -> has_damaged_issue r.
Proof.
  unfold analyze_file. destruct (_is_valid_pdf f); simpl.
  - intros [= <- <-] Hd. now apply fallback_damaged in Hd.
  - intros [= <- <-] _. eexists. split; [left; reflexivity|].
    split; reflexivity.
Qed.

(** C7. Every result [analyze_file] produces with the damage flag set
    lists an issue of type DAMAGED (of severity high).  The call of the
    primary parser raises, so the result is built by the signature
    check or by the fallback, which set the flag only together with
    such an issue, and the fallback parser itself never sets it. *)
Theorem damaged_flag_has_damaged_issue (path : string)
    (file : option FileEntry) (opened : Outcome PikePdf)
    (r : PDFAnalysisResult) (calls : list ParserCall) :
  analyze_file path file pymupdf_analyze_pdf opened = (Returns r, calls) ->
  is_damaged r = true ->
  exists i, In i (issues r) /\ issue_type i = DAMAGED /\ severity i = "high".
Proof.
  destruct file as [f|]; [|discriminate].
  intros Hres Hd.
  exact (damaged_flag_has_issue_when_primary_raises path f _ opened r calls
           Hres Hd).
Qed.

Lemma damaged_flag_has_damaged_issue_witness :
  exists i,
    In i (issues (mark_failed
                    "'PyMuPDFInterface' object has no attribute 'analyze_pdf'"
                    "unable to find trailer dictionary"
                    (initial_result "/data/a.pdf" 8)))
    /\ issue_type i = DAMAGED /\ severity i = "high".
Proof.
  apply (damaged_flag_has_damaged_issue "/data/a.pdf" (Some good_file)
           pike_broken _ [CallPyMuPDF; CallPikepdf]).
  - reflexivity.
  - reflexivity.
Defined.

(** The primary parser failed: it raised, or answered without success. *)
Definition primary_fails (primary : Outcome Analysis) : Prop :=
  match primary with
  | Raises _ => True
  | Returns a => get_or (a_success a) false = false
  end.

(** C8. For an existing file [analyze_file] always returns a result.  If
    the content does not start with the signature (or cannot be read), the
    result is damaged with a DAMAGED issue of severity high and no parser
    was invoked.  If the signature is there, the primary parser fails and
    the fallback raises, the result is again damaged with a DAMAGED issue
    of severity high. *)
Theorem analyze_file_surfaces_malformed_input (path : string) (f : FileEntry)
    (primary : Outcome Analysis) (opened : Outcome PikePdf) :
  (exists r, fst (analyze_file path (Some f) primary opened) = Returns r)
  /\ ((forall content, file_bytes f = Returns content ->
         ~ exists rest, content = (pdf_signature ++ rest)%list) ->
      exists r, analyze_file path (Some f) primary opened = (Returns r, [])
                /\ is_damaged r = true /\ has_damaged_issue r)
  /\ (_is_valid_pdf f = true -> primary_fails primary ->
      (exists e2 r', _analyze_with_pikepdf opened
                       (initial_result path (st_size f)) = (Raises e2, r')) ->
      exists r, analyze_file path (Some f) primary opened
                = (Returns r, [CallPyMuPDF; CallPikepdf])
                /\ is_damaged r = true /\ has_damaged_issue r).
Proof.
  split; [|split].
  - unfold analyze_file. destruct (_is_valid_pdf f); simpl; [|eauto].
    destruct primary as [a|e]; [|eauto].
    destruct (get_or (a_success a) false); simpl; eauto.
  - intros Hsig. apply invalid_when_no_signature in Hsig.
    unfold analyze_file. rewrite Hsig. simpl. eexists. split; [reflexivity|].
    split; [reflexivity|]. eexists. split; [left; reflexivity|].
    split; reflexivity.
  - intros Hvalid Hprim (e2 & r' & Hpike). unfold analyze_file.
    rewrite Hvalid. simpl. destruct primary as [a|e]; simpl in Hprim.
    + rewrite Hprim. simpl. eexists. split; [reflexivity|].
      rewrite (fallback_raises _ _ _ _ _ Hpike). apply mark_failed_damaged.
    + eexists. split; [reflexivity|].
      rewrite (fallback_raises _ _ _ _ _ Hpike). apply mark_failed_damaged.
Qed.

Lemma html_file_has_no_signature :
  forall content, file_bytes html_file = Returns content ->
    ~ exists rest, content = (pdf_signature ++ rest)%list.
Proof. intros content [= <-] (rest & Heq). discriminate. Qed.

Lemma analyze_file_malformed_witness :
  (exists r, analyze_file "/data/page.pdf" (Some html_file)
               (Returns primary_failed) pike_broken = (Returns r, [])
             /\ is_damaged r = true /\ has_damaged_issue r)
  /\ (exists r, analyze_file "/data/a.pdf" (Some good_file)
                (Returns primary_failed) pike_broken
              = (Returns r, [CallPyMuPDF; CallPikepdf])
              /\ is_damaged r = true /\ has_damaged_issue r).
Proof.
  split.
  - apply (analyze_file_surfaces_malformed_input "/data/page.pdf" html_file
             (Returns primary_failed) pike_broken).
    exact html_file_has_no_signature.
  - apply (analyze_file_surfaces_malformed_input "/data/a.pdf" good_file
             (Returns primary_failed) pike_broken).
    + reflexivity.
    + reflexivity.
    + eexists; eexists; reflexivity.
Defined.

End AnalyzerFacts.

(** ** The resumption ledger *)

Module LedgerFacts.
Import DatabaseManager.

Lemma sql_eq_iff (column : option string) (v : string) :
  sql_eq column (Some v) = true <-> column = Some v.
Proof.
  destruct column as [a|]; simpl.
  - rewrite String.eqb_eq. split; congruence.
  - split; discriminate.
Qed.

(** The row belongs to a run stored in [runs] with collection [c]. *)
Definition run_collection_is (db : Db) (c : string) (il : LogRow) : Prop :=
  exists rid r, run_id il = Some rid /\ runs db !! rid = Some r
                /\ collection r = Some c.

Lemma fingerprint_match_iff (db : Db) (f c : string) (il : LogRow) :
  fingerprint_match db (Some f) (Some c) il = true
  <-> file_fingerprint il = Some f /\ run_collection_is db c il.
Proof.
  unfold fingerprint_match, run_collection_is.
  rewrite andb_true_iff, sql_eq_iff.
  split; intros [Hf Hrun]; (split; [exact Hf|]).
  - destruct (run_id il) as [rid|]; [|discriminate].
    destruct (runs db !! rid) as [r|] eqn:Hr; [|discriminate].
    exists rid, r. apply sql_eq_iff in Hrun. auto.
  - destruct Hrun as (rid & r & -> & -> & Hc). now apply sql_eq_iff.
Qed.

(** [latest] picks a row of the list whose [id] is the greatest. *)
Lemma latest_spec (rows : list LogRow) (row : LogRow) :
  In row rows ->
  exists best, latest rows = Some best /\ In best rows
               /\ forall other, In other rows -> id other <= id best.
Proof.
  revert row. induction rows as [|x rest IH]; intros row Hin; [destruct Hin|].
  simpl. destruct rest as [|y rest'].
  - exists x. simpl. split; [reflexivity|]. split; [now left|].
    intros other [->|[]]. lia.
  - destruct (IH y (or_introl eq_refl)) as (best & -> & Hbest & Hmax).
    destruct (id best <? id x) eqn:Hlt.
    + apply Z.ltb_lt in Hlt. exists x. split; [reflexivity|].
      split; [now left|]. intros other [->|Ho]; [lia|].
      specialize (Hmax other Ho). lia.
    + apply Z.ltb_ge in Hlt. exists best. split; [reflexivity|].
      split; [now right|]. intros other [->|Ho]; [lia|]. now apply Hmax.
Qed.

Lemma latest_none (rows : list LogRow) : latest rows = None -> rows = [].
Proof.
  destruct rows as [|x rest]; [reflexivity|]. simpl.
  destruct (latest rest) as [best|]; [destruct (id best <? id x)|]; discriminate.
Qed.

(** A ledger with one record of fingerprint ["f1"] and collection
    ["Docs"], logged without a run. *)
Definition orphan_ledger : Db :=
  log_ingestion 100 "/data/a.pdf" (Some "Docs") success None NoMessage
                None (Some "f1") empty_db.

(** The same record, logged under run ["r1"], a run stored with another
    collection. *)
Definition other_run_ledger : Db :=
  log_ingestion 100 "/data/a.pdf" (Some "Docs") success None NoMessage
                (Some "r1") (Some "f1")
    {| runs := {[ "r1" :=
                  {| start_time := Some 90; end_time := None;
                     status := Some running; total_files := Some 1;
                     processed_files := Some 0; failed_files := Some 0;
                     skipped_files := Some 0;
                     already_processed_files := Some 0;
                     total_processing_time := None; run_name := None;
                     collection := Some "Archive";
                     embedding_model := None; chunk_size := None;
                     chunk_overlap := None |} ]};
       ingestion_log := [];
       last_id := 0 |}.

(** C3, as stated, fails: the lookup compares the collection of the run a
    record belongs to, not the collection stored in the record.  A record
    with fingerprint f and collection c that has no run, or whose run is
    stored with another collection, does not stop reprocessing. *)
Lemma record_with_collection_not_found :
  (exists row, In row (ingestion_log orphan_ledger)
               /\ file_fingerprint row = Some "f1"
               /\ log_collection row = Some "Docs")
  /\ file_needs_processing (Some "f1") (Some "Docs") orphan_ledger
     = (true, None)
  /\ (exists row, In row (ingestion_log other_run_ledger)
                  /\ file_fingerprint row = Some "f1"
                  /\ log_collection row = Some "Docs")
  /\ file_needs_processing (Some "f1") (Some "Docs") other_run_ledger
     = (true, None).
Proof.
  split; [eexists; split; [left; reflexivity | split; reflexivity]|].
  split; [reflexivity|].
  split; [eexists; split; [left; reflexivity | split; reflexivity]|].
  vm_compute. reflexivity.
Qed.

(** The lookup finds the most recent of the records it selects. *)
Lemma lookup_finds_latest (db : Db) (f c : string) (row : LogRow) :
  In row (ingestion_log db) ->
  file_fingerprint row = Some f ->
  run_collection_is db c row ->
  exists previous,
    get_ingestion_by_fingerprint (Some f) (Some c) db = Some previous
    /\ In previous (ingestion_log db)
    /\ file_fingerprint previous = Some f
    /\ run_collection_is db c previous
    /\ forall other, In other (ingestion_log db) ->
         file_fingerprint other = Some f -> run_collection_is db c other ->
         id other <= id previous.
Proof.
  intros Hin Hf Hrun.
  assert (Hrow : In row (List.filter (fingerprint_match db (Some f) (Some c))
                                     (ingestion_log db))).
  { apply filter_In. split; [exact Hin|]. now apply fingerprint_match_iff. }
  destruct (latest_spec _ _ Hrow) as (best & Hbest & Hbin & Hmax).
  apply filter_In in Hbin as [Hbin Hbm].
  apply fingerprint_match_iff in Hbm as [Hbf Hbr].
  exists best. unfold get_ingestion_by_fingerprint.
  rewrite Hbest. repeat split; try assumption.
  intros other Ho Hof Hor. apply Hmax, filter_In.
  split; [exact Ho|]. now apply fingerprint_match_iff.
Qed.

(** C3, amended. If the ledger holds a record with fingerprint f whose run
    is stored in [runs] with collection c, then [file_needs_processing f c]
    answers false together with the most recent such record, whatever the
    status of the records. *)
Theorem file_needs_processing_false_for_known_fingerprint
    (db : Db) (f c : string) (row : LogRow) :
  In row (ingestion_log db) ->
  file_fingerprint row = Some f ->
  run_collection_is db c row ->
  exists previous,
    file_needs_processing (Some f) (Some c) db = (false, Some previous)
    /\ In previous (ingestion_log db)
    /\ file_fingerprint previous = Some f
    /\ run_collection_is db c previous
    /\ forall other, In other (ingestion_log db) ->
         file_fingerprint other = Some f -> run_collection_is db c other ->
         id other <= id previous.
Proof.
  intros Hin Hf Hrun.
  destruct (lookup_finds_latest db f c row Hin Hf Hrun)
    as (previous & Hget & Hrest).
  exists previous. unfold file_needs_processing. rewrite Hget.
  split; [reflexivity | exact Hrest].
Qed.

(** A ledger where the file was logged with status error under a run of
    collection ["Docs"]. *)
Definition docs_run : RunRow :=
  {| start_time := Some 90; end_time := None; status := Some running;
     total_files := Some 1; processed_files := Some 0;
     failed_files := Some 0; skipped_files := Some 0;
     already_processed_files := Some 0; total_processing_time := None;
     run_name := None; collection := Some "Docs"; embedding_model := None;
     chunk_size := None; chunk_overlap := None |}.

Definition failed_before : Db :=
  log_ingestion 100 "/data/a.pdf" (Some "Docs") error None
                (Message "Ingestion error: timeout") (Some "r1") (Some "f1")
    {| runs := {[ "r1" := docs_run ]}; ingestion_log := []; last_id := 0 |}.

Definition failed_row : LogRow :=
  {| id := 1; file_path := "/data/a.pdf"; log_collection := Some "Docs";
     log_status := error;
     error_message := Message "Ingestion error: timeout";
     ingestion_time := 100; log_is_encrypted := false;
     log_is_damaged := false; log_num_pages := 0; log_filesize := 0;
     analysis_result := None; run_id := Some "r1";
     file_fingerprint := Some "f1" |}.

Lemma file_needs_processing_false_witness :
  exists previous,
    file_needs_processing (Some "f1") (Some "Docs") failed_before
    = (false, Some previous)
    /\ In previous (ingestion_log failed_before)
    /\ file_fingerprint previous = Some "f1"
    /\ run_collection_is failed_before "Docs" previous
    /\ forall other, In other (ingestion_log failed_before) ->
         file_fingerprint other = Some "f1" ->
         run_collection_is failed_before "Docs" other ->
         id other <= id previous.
Proof.
  apply (file_needs_processing_false_for_known_fingerprint
           failed_before "f1" "Docs" failed_row).
  - left. reflexivity.
  - reflexivity.
  - exists "r1", docs_run. split; [reflexivity|]. split; [|reflexivity].
    apply lookup_singleton_eq.
Defined.

(** What the orchestrator maintains: every record's run is stored with
    the record's collection. *)
Definition runs_agree (db : Db) : Prop :=
  forall il c, In il (ingestion_log db) -> log_collection il = Some c ->
               run_collection_is db c il.

(** Under that invariant the lookup by the record's own collection never
    asks for reprocessing. *)
Lemma known_record_blocks_reprocessing (db : Db) (f c : string) (row : LogRow) :
  runs_agree db ->
  In row (ingestion_log db) -> file_fingerprint row = Some f ->
  log_collection row = Some c ->
  fst (file_needs_processing (Some f) (Some c) db) = false.
Proof.
  intros Hagree Hin Hf Hc.
  destruct (lookup_finds_latest db f c row) as (previous & Hget & _); auto.
  unfold file_needs_processing. now rewrite Hget.
Qed.

End LedgerFacts.

(** ** The run controller *)

Module RunFacts.
Import DatabaseManager RunManager.

(** The four counters: processed, failed, skipped, already processed. *)
Definition counters (rm : RunManager) : Z * Z * Z * Z :=
  (processed_files rm, failed_files rm, skipped_files rm,
   already_processed_files rm).

(** C10. Without a run (identifier unset or empty) each of the four
    operations raises ValueError and changes nothing; with a run in
    progress each returns the new value of its counter, which went up by
    exactly one, and leaves the other counters alone, except that
    [increment_already_processed] also adds one to the skipped counter. *)
Theorem counter_operations (rm : RunManager) (db : Db) :
  (opt_truthy (run_id rm) = false ->
     exn_class no_run_in_progress = "ValueError"
     /\ increment_processed (rm, db) = (Raises no_run_in_progress, (rm, db))
     /\ increment_failed (rm, db) = (Raises no_run_in_progress, (rm, db))
     /\ increment_skipped (rm, db) = (Raises no_run_in_progress, (rm, db))
     /\ increment_already_processed (rm, db)
        = (Raises no_run_in_progress, (rm, db)))
  /\ (opt_truthy (run_id rm) = true ->
      (exists s', increment_processed (rm, db)
                  = (Returns (processed_files rm + 1), s')
                  /\ counters (fst s')
                     = (processed_files rm + 1, failed_files rm,
                        skipped_files rm, already_processed_files rm))
      /\ (exists s', increment_failed (rm, db)
                     = (Returns (failed_files rm + 1), s')
                     /\ counters (fst s')
                        = (processed_files rm, failed_files rm + 1,
                           skipped_files rm, already_processed_files rm))
      /\ (exists s', increment_skipped (rm, db)
                     = (Returns (skipped_files rm + 1), s')
                     /\ counters (fst s')
                        = (processed_files rm, failed_files rm,
                           skipped_files rm + 1, already_processed_files rm))
      /\ (exists s', increment_already_processed (rm, db)
                     = (Returns (already_processed_files rm + 1), s')
                     /\ counters (fst s')
                        = (processed_files rm, failed_files rm,
                           skipped_files rm + 1,
                           already_processed_files rm + 1))).
Proof.
  split; intros Hrun.
  - unfold increment_processed, increment_failed, increment_skipped,
      increment_already_processed. rewrite Hrun. simpl. auto.
  - unfold increment_processed, increment_failed, increment_skipped,
      increment_already_processed. rewrite Hrun. simpl.
    repeat split; eexists; (split; [reflexivity|reflexivity]).
Qed.

(** A controller in the middle of run ["run-1"]. *)
Definition midway : RunManager :=
  {| run_id := Some "run-1"; start_time := Some 90; end_time := None;
     processed_files := 3; failed_files := 1; skipped_files := 2;
     already_processed_files := 1; total_files := 9; status := running;
     run_name := None; collection := Some "Docs";
     embedding_model_name := None; chunk_size := None;
     chunk_overlap := None |}.

Lemma counter_operations_witness :
  (exn_class no_run_in_progress = "ValueError"
   /\ increment_processed (init, empty_db)
      = (Raises no_run_in_progress, (init, empty_db))
   /\ increment_failed (init, empty_db)
      = (Raises no_run_in_progress, (init, empty_db))
   /\ increment_skipped (init, empty_db)
      = (Raises no_run_in_progress, (init, empty_db))
   /\ increment_already_processed (init, empty_db)
      = (Raises no_run_in_progress, (init, empty_db)))
  /\ ((exists s', increment_processed (midway, empty_db) = (Returns 4, s')
                  /\ counters (fst s') = (4, 1, 2, 1))
      /\ (exists s', increment_failed (midway, empty_db) = (Returns 2, s')
                     /\ counters (fst s') = (3, 2, 2, 1))
      /\ (exists s', increment_skipped (midway, empty_db) = (Returns 3, s')
                     /\ counters (fst s') = (3, 1, 3, 1))
      /\ (exists s', increment_already_processed (midway, empty_db)
                     = (Returns 2, s')
                     /\ counters (fst s') = (3, 1, 3, 2))).
Proof.
  split.
  - apply (counter_operations init empty_db). reflexivity.
  - apply (counter_operations midway empty_db). reflexivity.
Defined.

(** Every counter change reaches the row of the run at once. *)
Lemma increment_failed_persisted (rm : RunManager) (db : Db) (rid : string)
    (row : RunRow) :
  run_id rm = Some rid -> str_truthy rid = true ->
  runs db !! rid = Some row ->
  runs (snd (snd (increment_failed (rm, db)))) !! rid
    ≫= DatabaseManager.failed_files
  = Some (failed_files rm + 1).
Proof.
  intros Hid Ht Hrow. unfold increment_failed, opt_truthy.
  rewrite Hid, Ht. simpl. rewrite Hid. simpl.
  rewrite lookup_alter_eq, Hrow. reflexivity.
Qed.


End RunFacts.

(** ** The [ingest] command *)

Module CliFacts.
Import DatabaseManager IngestionManager Cli.


(** A manager for collection ["TestDocs"] and run ["run-1"], over an
    empty database. *)
Definition fresh_manager : IngestionManager :=
  {| config :=
       {| Config.processing :=
            {| Config.chunk_size := 1024; Config.chunk_overlap := 20;
               Config.embedding_model := "BAAI/bge-large-en-v1.5";
               Config.ray_workers := Some 2%nat |};
          Config.collection := Some "TestDocs";
          Config.run_id := Some "run-1";
          Config.run_name := None |};
     run_manager := None;
     db_manager := empty_db |}.

(** The file disappears after it was listed: taking its fingerprint
    raises, before any [try] of [ingest_file]. *)
Definition vanished : FileEnv :=
  {| env_now := 101;
     env_fingerprint :=
       Raises (MkExn "FileNotFoundError" "No such file or directory");
     env_delete := Returns tt;
     env_analysis := Raises (MkExn "FileNotFoundError" "File not found");
     env_extraction := Raises (MkExn "FileNotFoundError" "PDF file not found");
     env_chunks := Returns [];
     env_collection := Returns tt;
     env_embeddings := Returns tt;
     env_store := Returns tt |}.

Definition aborted_run : RunEnv :=
  {| uuid := "generated-id"; clock_start := 100; clock_end := 110;
     clock_end_err := 111; clock_abort := 120; clock_abort_err := 121;
     connect := Returns tt;
     preload := Returns tt;
     stale_delete := fun _ => Returns tt;
     pdf_files := [("/data/a.pdf", vanished)] |}.






End CliFacts.

(** ** The embedding scheduler *)

Module SchedulerFacts.
Import Scheduler.
Local Open Scope nat_scope.
Local Close Scope string_scope.

(** *** Batches *)

(** Number of batches: [ceil(total / size)]. *)
Definition batch_count (total size : nat) : nat := (total + size - 1) / size.

Lemma batch_size_pos (total workers : nat) : 1 <= batch_size total workers.
Proof. unfold batch_size. lia. Qed.

Lemma make_batches_eq (chunks : list string) (workers : nat) :
  make_batches chunks workers
  = List.map (fun k => take (batch_size (length chunks) workers)
                            (drop (k * batch_size (length chunks) workers)
                                  chunks))
             (seq 0 (batch_count (length chunks)
                                 (batch_size (length chunks) workers))).
Proof.
  unfold make_batches, range_step, batch_count. rewrite List.map_map.
  apply List.map_ext. intros k. unfold slice. f_equal. lia.
Qed.

Lemma length_make_batches (chunks : list string) (workers : nat) :
  length (make_batches chunks workers)
  = batch_count (length chunks) (batch_size (length chunks) workers).
Proof. rewrite make_batches_eq, List.length_map, List.length_seq. reflexivity. Qed.

(** The batches cover at least the whole sequence ... *)
Lemma batch_count_covers (total size : nat) :
  1 <= size -> total <= batch_count total size * size.
Proof.
  intros Hs. unfold batch_count.
  pose proof (Nat.div_mod_eq (total + size - 1) size) as Hd.
  pose proof (Nat.mod_upper_bound (total + size - 1) size) as Hm.
  nia.
Qed.

(** ... and the last one is not empty. *)
Lemma batch_count_tight (total size : nat) :
  1 <= size -> 1 <= batch_count total size ->
  (batch_count total size - 1) * size < total.
Proof.
  intros Hs Hc. unfold batch_count in *.
  pose proof (Nat.div_mod_eq (total + size - 1) size) as Hd.
  pose proof (Nat.mod_upper_bound (total + size - 1) size) as Hm.
  nia.
Qed.

Lemma concat_batches_take {A} (l : list A) (size n : nat) :
  concat (List.map (fun k => take size (drop (k * size) l)) (seq 0 n))
  = take (n * size) l.
Proof.
  induction n as [|n IH].
  - reflexivity.
  - rewrite seq_S, List.map_app, concat_app, IH. simpl.
    rewrite app_nil_r, take_take_drop. f_equal. lia.
Qed.

(** The batches are contiguous and cover the chunks in order. *)
Lemma concat_make_batches (chunks : list string) (workers : nat) :
  concat (make_batches chunks workers) = chunks.
Proof.
  rewrite make_batches_eq, concat_batches_take.
  apply take_ge, batch_count_covers, batch_size_pos.
Qed.

Lemma nth_map_seq {A} (f : nat -> A) (n k : nat) (d : A) :
  k < n -> nth k (List.map f (seq 0 n)) d = f k.
Proof.
  intros Hk.
  rewrite (List.nth_indep _ d (f 0))
    by (rewrite List.length_map, List.length_seq; exact Hk).
  rewrite List.map_nth, List.seq_nth by exact Hk. reflexivity.
Qed.

Lemma nth_make_batches (chunks : list string) (workers k : nat) :
  k < length (make_batches chunks workers) ->
  nth k (make_batches chunks workers) []
  = take (batch_size (length chunks) workers)
         (drop (k * batch_size (length chunks) workers) chunks).
Proof.
  intros Hk. rewrite length_make_batches in Hk. rewrite make_batches_eq.
  now rewrite nth_map_seq.
Qed.

Lemma length_nth_make_batches (chunks : list string) (workers k : nat) :
  k < length (make_batches chunks workers) ->
  length (nth k (make_batches chunks workers) [])
  = Nat.min (batch_size (length chunks) workers)
            (length chunks - k * batch_size (length chunks) workers).
Proof.
  intros Hk. rewrite nth_make_batches by exact Hk.
  rewrite length_take, length_drop. reflexivity.
Qed.

(** With at least as many chunks as workers there are at least as many
    batches as workers, and fewer than twice as many. *)
Lemma batch_count_bounds (total workers : nat) :
  1 <= workers -> workers <= total ->
  workers <= batch_count total (batch_size total workers)
  /\ batch_count total (batch_size total workers) < 2 * workers.
Proof.
  intros Hw Ht. unfold batch_count, batch_size.
  pose proof (Nat.div_mod_eq total workers) as Hq.
  pose proof (Nat.mod_upper_bound total workers) as Hr.
  assert (1 <= total / workers) by (apply Nat.div_le_lower_bound; lia).
  rewrite Nat.max_r by lia.
  set (q := total / workers) in *. set (r := total mod workers) in *.
  pose proof (Nat.div_mod_eq (total + q - 1) q) as Hd.
  pose proof (Nat.mod_upper_bound (total + q - 1) q) as Hm.
  set (n := (total + q - 1) / q) in *.
  assert (Hm' : (total + q - 1) mod q < q) by (apply Hm; lia).
  assert (Hr' : r < workers) by (apply Hr; lia).
  split.
  - destruct (le_lt_dec workers n) as [Hle|Hlt]; [exact Hle|exfalso].
    assert (q * n <= q * (workers - 1)) by (apply Nat.mul_le_mono_l; lia).
    rewrite Nat.mul_sub_distr_l in *. nia.
  - destruct (le_lt_dec (2 * workers) n) as [Hle|Hlt]; [exfalso|exact Hlt].
    assert (q * (2 * workers) <= q * n) by (apply Nat.mul_le_mono_l; lia).
    assert ((workers - 1) * (q - 1) + workers + q = workers * q + 1) by nia.
    nia.
Qed.

Lemma batch_count_few_chunks (total workers : nat) :
  total < workers -> batch_count total (batch_size total workers) = total.
Proof.
  intros Hlt. unfold batch_count, batch_size.
  rewrite (Nat.div_small total workers) by lia. change (Nat.max 1 0) with 1.
  rewrite Nat.div_1_r. lia.
Qed.

Lemma batch_count_divides (total workers : nat) :
  1 <= workers -> 1 <= total -> total mod workers = 0 ->
  batch_count total (batch_size total workers) = workers.
Proof.
  intros Hw Ht Hmod. unfold batch_count, batch_size.
  pose proof (Nat.div_mod_eq total workers) as Hq. rewrite Hmod in Hq.
  assert (1 <= total / workers) by nia.
  rewrite Nat.max_r by lia.
  set (q := total / workers) in *.
  symmetry. apply (Nat.div_unique _ _ _ (q - 1)); nia.
Qed.

Lemma filter_ltb_seq (workers n : nat) :
  List.filter (fun i => Nat.ltb i n) (seq 0 workers) = seq 0 (Nat.min workers n).
Proof.
  induction workers as [|w IH].
  - reflexivity.
  - rewrite seq_S, List.filter_app, IH. cbn [List.filter Nat.add].
    destruct (Nat.ltb_spec w n) as [Hlt|Hge].
    + rewrite (Nat.min_l w n), (Nat.min_l (S w) n) by lia.
      now rewrite seq_S.
    + rewrite (Nat.min_r w n), (Nat.min_r (S w) n) by lia.
      now rewrite app_nil_r.
Qed.

(** The initial submission gives batch [i] to worker [i] for the first
    [min(workers, number of batches)] workers. *)
Lemma initial_tasks_eq (workers n_batches : nat) :
  initial_tasks workers n_batches
  = List.map (fun i => (i, i)) (seq 0 (Nat.min workers n_batches)).
Proof. unfold initial_tasks. now rewrite filter_ltb_seq. Qed.

Definition five_chunks : list string := ["a"; "b"; "c"; "d"; "e"]%string.

(** C6, as stated, fails: five chunks and two workers give three batches
    of size two (the quotient rounded down), not two batches of size
    three, and the worker that finishes first is handed the third batch. *)
Lemma five_chunks_two_workers :
  make_batches five_chunks 2 = [["a"; "b"]; ["c"; "d"]; ["e"]]%string
  /\ batch_size (length five_chunks) 2 = 2
  /\ (length five_chunks + 2 - 1) / 2 = 3
  /\ 2 < length (make_batches five_chunks 2)
  /\ initial_tasks 2 (length (make_batches five_chunks 2)) = [(0, 0); (1, 1)]
  /\ actor_tasks string
       (step string id (make_batches five_chunks 2) 0
          {| actor_tasks := initial_tasks 2 3; results := [];
             next_batch_idx := 2 |})
     = [(0, 2); (1, 1)].
Proof. vm_compute. repeat split; lia. Qed.

(** The batches of the general path: their size, their number and the
    first assignment. *)
Lemma batches_partition (chunks : list string) (workers : nat) :
  1 < length chunks -> 1 < workers ->
  let size := batch_size (length chunks) workers in
  let batches := make_batches chunks workers in
  size = Nat.max 1 (length chunks / workers)
  /\ concat batches = chunks
  /\ length batches = batch_count (length chunks) size
  /\ (forall k, S k < length batches -> length (nth k batches []) = size)
  /\ (forall k, S k = length batches ->
        1 <= length (nth k batches []) <= size)
  /\ Nat.min workers (length chunks) <= length batches < 2 * workers
  /\ (length chunks mod workers = 0 -> length batches = workers)
  /\ initial_tasks workers (length batches)
     = List.map (fun i => (i, i)) (seq 0 (Nat.min workers (length batches))).
Proof.
  intros Hm Hw. cbv zeta.
  pose proof (batch_size_pos (length chunks) workers) as Hs.
  pose proof (length_make_batches chunks workers) as Hlen.
  split; [reflexivity|]. split; [apply concat_make_batches|].
  split; [exact Hlen|]. split; [|split; [|split; [|split]]].
  - intros k Hk. rewrite length_nth_make_batches by lia.
    pose proof (batch_count_tight (length chunks)
                  (batch_size (length chunks) workers) Hs) as Ht.
    rewrite <- Hlen in Ht. specialize (Ht ltac:(lia)).
    apply Nat.min_l.
    assert ((S k) * batch_size (length chunks) workers
            <= (length (make_batches chunks workers) - 1)
               * batch_size (length chunks) workers)
      by (apply Nat.mul_le_mono_r; lia).
    lia.
  - intros k Hk. rewrite length_nth_make_batches by lia.
    pose proof (batch_count_tight (length chunks)
                  (batch_size (length chunks) workers) Hs) as Ht.
    rewrite <- Hlen in Ht. specialize (Ht ltac:(lia)).
    replace (length (make_batches chunks workers) - 1) with k in Ht by lia.
    lia.
  - rewrite Hlen. destruct (le_lt_dec workers (length chunks)) as [Hle|Hlt].
    + pose proof (batch_count_bounds (length chunks) workers) as Hb. lia.
    + rewrite batch_count_few_chunks by exact Hlt. lia.
  - intros Hmod. rewrite Hlen. apply batch_count_divides; lia.
  - apply initial_tasks_eq.
Qed.

(** *** The dictionary of outstanding tasks *)

Lemma reassign_middle (actor task new : nat) (pre post : ActorTasks) :
  ~ In actor (List.map fst pre) ->
  reassign actor new (pre ++ (actor, task) :: post)
  = pre ++ (actor, new) :: post.
Proof.
  induction pre as [|[a t] pre IH]; intros Hnot; simpl.
  - now rewrite Nat.eqb_refl.
  - simpl in Hnot. destruct (Nat.eqb_spec a actor) as [->|Hne].
    + exfalso. apply Hnot. now left.
    + rewrite IH; [reflexivity|]. intros Hin. apply Hnot. now right.
Qed.

Lemma reassign_in (actor task : nat) (tasks : ActorTasks) :
  In (actor, task) (reassign actor task tasks).
Proof.
  induction tasks as [|[a t] tasks IH]; simpl; [now left|].
  destruct (Nat.eqb_spec a actor) as [->|Hne]; [now left|now right].
Qed.

Lemma reassign_length (actor task : nat) (tasks : ActorTasks) :
  In actor (List.map fst tasks) ->
  length (reassign actor task tasks) = length tasks.
Proof.
  induction tasks as [|[a t] tasks IH]; simpl; [intros []|].
  intros Hin. destruct (Nat.eqb_spec a actor) as [->|Hne]; [reflexivity|].
  simpl. f_equal. apply IH. destruct Hin; [contradiction|assumption].
Qed.

Lemma remove_actor_absent (actor : nat) (tasks : ActorTasks) :
  ~ In actor (List.map fst tasks) -> remove_actor actor tasks = tasks.
Proof.
  unfold remove_actor. induction tasks as [|[a t] tasks IH]; intros Hnot; simpl.
  - reflexivity.
  - simpl in Hnot. destruct (Nat.eqb_spec a actor) as [->|Hne]; simpl.
    + exfalso. apply Hnot. now left.
    + rewrite IH; [reflexivity|]. intros Hin. apply Hnot. now right.
Qed.

Lemma remove_actor_middle (actor task : nat) (pre post : ActorTasks) :
  ~ In actor (List.map fst pre) -> ~ In actor (List.map fst post) ->
  remove_actor actor (pre ++ (actor, task) :: post) = pre ++ post.
Proof.
  intros Hpre Hpost.
  pose proof (remove_actor_absent actor pre Hpre) as H1.
  pose proof (remove_actor_absent actor post Hpost) as H2.
  unfold remove_actor in *. rewrite List.filter_app. simpl.
  rewrite Nat.eqb_refl. simpl. now rewrite H1, H2.
Qed.

(** Keys of a dictionary are distinct: around any entry the key does not
    occur again. *)
Lemma distinct_keys_middle (actor task : nat) (pre post : ActorTasks) :
  List.NoDup (List.map fst (pre ++ (actor, task) :: post)) ->
  ~ In actor (List.map fst pre) /\ ~ In actor (List.map fst post)
  /\ List.NoDup (List.map fst (pre ++ post)).
Proof.
  rewrite !List.map_app. simpl. intros Hnd.
  apply List.NoDup_remove in Hnd as [Hnd Hnot].
  rewrite List.in_app_iff in Hnot. tauto.
Qed.

(** *** The dispatch loop *)

Section Loop.

Variable Vec : Type.
Variable embedding : string -> Vec.
Variable batches : list (list string).

Abbreviation embed := (embed_chunks Vec embedding).

(** The vectors of the outstanding tasks, in dictionary order. *)
Definition pending (tasks : ActorTasks) : list Vec :=
  concat (List.map (fun entry => embed (nth (snd entry) batches [])) tasks).

(** The vectors of the batches not yet submitted. *)
Definition unsubmitted (next : nat) : list Vec :=
  concat (List.map embed (drop next batches)).

(** Everything the batches are to produce. *)
Definition all_vectors : list Vec := concat (List.map embed batches).

(** What every pass of the loop keeps true. *)
Record Inv (st : Loop Vec) : Prop := {
  inv_keys : List.NoDup (List.map fst (actor_tasks Vec st));
  inv_perm : Permutation
               (results Vec st ++ pending (actor_tasks Vec st)
                  ++ unsubmitted (next_batch_idx Vec st))
               all_vectors;
  inv_busy : actor_tasks Vec st = [] -> length batches <= next_batch_idx Vec st
}.

(** What every pass of the loop makes smaller. *)
Definition work_left (st : Loop Vec) : nat :=
  length (actor_tasks Vec st) + (length batches - next_batch_idx Vec st).

Lemma pending_app (pre post : ActorTasks) :
  pending (pre ++ post) = pending pre ++ pending post.
Proof. unfold pending. now rewrite List.map_app, concat_app. Qed.

Lemma pending_cons (actor task : nat) (post : ActorTasks) :
  pending ((actor, task) :: post) = embed (nth task batches []) ++ pending post.
Proof. reflexivity. Qed.

Lemma unsubmitted_next (next : nat) :
  next < length batches ->
  unsubmitted next = embed (nth next batches []) ++ unsubmitted (S next).
Proof.
  intros Hlt. unfold unsubmitted.
  destruct (nth_lookup_or_length batches next []) as [Hl|Hge]; [|lia].
  now rewrite (drop_S _ _ _ Hl).
Qed.

Lemma unsubmitted_done (next : nat) :
  length batches <= next -> unsubmitted next = [].
Proof. intros Hge. unfold unsubmitted. now rewrite drop_ge. Qed.

Lemma step_preserves (ready : nat) (st : Loop Vec) :
  Inv st -> actor_tasks Vec st <> [] ->
  Inv (step Vec embedding batches ready st)
  /\ S (work_left (step Vec embedding batches ready st)) = work_left st.
Proof.
  intros [Hkeys Hperm Hbusy] Hne. unfold step, work_left.
  destruct st as [tasks res next]. simpl in *.
  assert (Hidx : ready mod length tasks < length tasks).
  { apply Nat.mod_upper_bound. destruct tasks; [congruence|simpl; lia]. }
  destruct (nth_error tasks (ready mod length tasks)) as [[actor task]|] eqn:Hnth;
    [|apply nth_error_None in Hnth; lia].
  apply nth_error_split in Hnth as (pre & post & -> & _).
  apply distinct_keys_middle in Hkeys as (Hpre & Hpost & Hnd).
  rewrite pending_app, pending_cons in Hperm.
  destruct (Nat.ltb_spec next (length batches)) as [Hlt|Hge]; simpl.
  - rewrite reassign_middle by exact Hpre. split.
    + constructor; simpl.
      * rewrite List.map_app in *. simpl.
        apply List.NoDup_Add with (a := actor) (l := List.map fst pre ++ List.map fst post).
        -- apply List.Add_app.
        -- split; [exact Hnd|]. rewrite List.in_app_iff. tauto.
      * rewrite pending_app, pending_cons.
        rewrite unsubmitted_next in Hperm by exact Hlt.
        rewrite <- Hperm, <- !app_assoc.
        apply Permutation_app_head.
        rewrite Permutation_app_swap_app. apply Permutation_app_head.
        apply Permutation_app_head.
        rewrite Permutation_app_swap_app. reflexivity.
      * intros Hnil. destruct pre; discriminate.
    + rewrite !length_app. simpl. lia.
  - rewrite remove_actor_middle by assumption. split.
    + constructor; simpl.
      * exact Hnd.
      * rewrite pending_app. rewrite <- Hperm, <- !app_assoc.
        apply Permutation_app_head.
        rewrite Permutation_app_swap_app. reflexivity.
      * intros _. exact Hge.
    + rewrite !length_app. simpl. lia.
Qed.

(** With enough fuel the loop returns, and what it returns is a
    rearrangement of the vectors of all batches. *)
Lemma loop_returns (fuel : nat) (order : list nat) (st : Loop Vec) :
  Inv st -> work_left st <= fuel ->
  exists vs, loop Vec embedding fuel batches order st = Some vs
             /\ Permutation vs all_vectors.
Proof.
  revert order st. induction fuel as [|fuel IH]; intros order st Hinv Hfuel.
  - destruct st as [tasks res next]. unfold work_left in Hfuel. simpl in *.
    destruct tasks as [|entry tasks]; [|simpl in Hfuel; lia].
    exists res. split; [reflexivity|].
    destruct Hinv as [_ Hperm Hbusy]. simpl in *.
    rewrite unsubmitted_done in Hperm by auto.
    now rewrite !app_nil_r in Hperm.
  - destruct (actor_tasks Vec st) as [|entry tasks] eqn:Htasks.
    + exists (results Vec st). simpl. rewrite Htasks. split; [reflexivity|].
      destruct Hinv as [_ Hperm Hbusy]. rewrite Htasks in *.
      rewrite unsubmitted_done in Hperm by auto.
      now rewrite !app_nil_r in Hperm.
    + destruct (step_preserves (hd 0 order) st Hinv) as [Hinv' Hless];
        [rewrite Htasks; discriminate|].
      destruct (IH (tl order) _ Hinv') as (vs & Hloop & Hperm); [lia|].
      exists vs. simpl. rewrite Htasks. split; assumption.
Qed.

End Loop.

(** *** [distribute_embeddings] *)

Lemma map_nth_seq_take {A} (l : list A) (d : A) (k : nat) :
  k <= length l -> List.map (fun i => nth i l d) (seq 0 k) = take k l.
Proof.
  induction k as [|k IH]; intros Hk.
  - reflexivity.
  - rewrite seq_S, List.map_app, IH by lia. simpl.
    destruct (nth_lookup_or_length l k d) as [Hl|Hge]; [|lia].
    now rewrite (take_S_r _ _ _ Hl).
Qed.

Section Distribute.

Variable Vec : Type.
Variable embedding : string -> Vec.

Lemma initial_state_inv (batches : list (list string)) (workers : nat) :
  1 <= workers ->
  Inv Vec embedding batches
      {| actor_tasks := initial_tasks workers (length batches);
         results := []; next_batch_idx := workers |}
  /\ work_left Vec batches
       {| actor_tasks := initial_tasks workers (length batches);
          results := []; next_batch_idx := workers |}
     <= length batches.
Proof.
  intros Hw. rewrite initial_tasks_eq. split.
  - constructor; simpl.
    + rewrite List.map_map. simpl. rewrite List.map_id. apply List.seq_NoDup.
    + unfold pending, unsubmitted, all_vectors.
      rewrite List.map_map. simpl.
      rewrite <- (List.map_map (fun i => nth i batches [])
                               (embed_chunks Vec embedding)).
      rewrite map_nth_seq_take by lia.
      replace (drop workers batches)
        with (drop (Nat.min workers (length batches)) batches).
      * rewrite <- concat_app, <- List.map_app, take_drop. reflexivity.
      * destruct (le_lt_dec workers (length batches)) as [Hle|Hlt].
        -- now rewrite Nat.min_l by exact Hle.
        -- rewrite Nat.min_r by lia. now rewrite !drop_ge by lia.
    + intros Hnil. apply (f_equal (@length _)) in Hnil.
      rewrite List.length_map, List.length_seq in Hnil. simpl in Hnil. lia.
  - unfold work_left. simpl. rewrite List.length_map, List.length_seq. lia.
Qed.

(** For a pool of at least one worker and every completion order the
    scheduler returns, and the vectors it returns are the embeddings of
    the chunks, each once, in some order; there are as many as chunks. *)
Theorem distribute_embeddings_rearranges (workers : nat) (order : list nat)
    (chunks : list string) :
  1 <= workers ->
  exists vs,
    distribute_embeddings Vec embedding workers order chunks
    = Some (Returns vs)
    /\ Permutation vs (List.map embedding chunks)
    /\ length vs = length chunks.
Proof.
  intros Hw. unfold distribute_embeddings.
  destruct (Nat.leb (length chunks) 1 || Nat.leb workers 1).
  - destruct workers; [lia|]. exists (embed_chunks Vec embedding chunks).
    split; [reflexivity|]. split; [reflexivity|]. apply List.length_map.
  - destruct (initial_state_inv (make_batches chunks workers) workers Hw)
      as [Hinv Hfuel].
    destruct (loop_returns Vec embedding _ _ order _ Hinv Hfuel)
      as (vs & -> & Hperm).
    unfold all_vectors in Hperm.
    change (List.map (embed_chunks Vec embedding))
      with (List.map (List.map embedding)) in Hperm.
    rewrite <- List.concat_map, concat_make_batches in Hperm.
    exists vs. split; [reflexivity|]. split; [exact Hperm|].
    rewrite (Permutation_length Hperm). apply List.length_map.
Qed.

(** C6, amended. In the general path the chunks are cut into contiguous
    batches of size [max(1, floor(total / N))]: all batches but the last
    have that size, the last one holds between one and that many chunks,
    and together they are the chunk sequence.  Their number is
    [ceil(total / size)]: at least [min(N, total)] and fewer than [2 N]; it
    is [N] when [N] divides the total.  The first [min(N, number of
    batches)] workers are given one batch each up front.  The remaining
    batches are handed out as workers finish: while a batch is left, the
    worker whose task is reported done has its result collected and is
    given the next batch, and no worker leaves the pool; so for every
    completion order the scheduler returns the embeddings of all the
    chunks. *)
Theorem batches_partition_chunks (chunks : list string) (workers : nat) :
  1 < length chunks -> 1 < workers ->
  let size := batch_size (length chunks) workers in
  let batches := make_batches chunks workers in
  size = Nat.max 1 (length chunks / workers)
  /\ concat batches = chunks
  /\ length batches = batch_count (length chunks) size
  /\ (forall k, S k < length batches -> length (nth k batches []) = size)
  /\ (forall k, S k = length batches ->
        1 <= length (nth k batches []) <= size)
  /\ Nat.min workers (length chunks) <= length batches < 2 * workers
  /\ (length chunks mod workers = 0 -> length batches = workers)
  /\ initial_tasks workers (length batches)
     = List.map (fun i => (i, i)) (seq 0 (Nat.min workers (length batches)))
  /\ (forall (st : Loop Vec) (ready actor task : nat),
        nth_error (actor_tasks Vec st)
                  (ready mod length (actor_tasks Vec st))
        = Some (actor, task) ->
        next_batch_idx Vec st < length batches ->
        In (actor, next_batch_idx Vec st)
           (actor_tasks Vec (step Vec embedding batches ready st))
        /\ length (actor_tasks Vec (step Vec embedding batches ready st))
           = length (actor_tasks Vec st)
        /\ next_batch_idx Vec (step Vec embedding batches ready st)
           = S (next_batch_idx Vec st)
        /\ results Vec (step Vec embedding batches ready st)
           = results Vec st
             ++ embed_chunks Vec embedding (nth task batches []))
  /\ (forall order,
        exists vs,
          distribute_embeddings Vec embedding workers order chunks
          = Some (Returns vs)
          /\ Permutation vs (List.map embedding chunks)).
Proof.
  intros Hm Hw. cbv zeta.
  destruct (batches_partition chunks workers Hm Hw)
    as (H1 & H2 & H3 & H4 & H5 & H6 & H7 & H8).
  repeat (split; [assumption|]). split.
  - intros st ready actor task Hnth Hlt. unfold step. rewrite Hnth.
    apply Nat.ltb_lt in Hlt. rewrite Hlt. simpl.
    split; [apply reassign_in|]. split; [|split; reflexivity].
    apply reassign_length. apply nth_error_In in Hnth.
    apply (List.in_map fst) in Hnth. exact Hnth.
  - intros order.
    destruct (distribute_embeddings_rearranges workers order chunks)
      as (vs & Hvs & Hperm & _); [lia|].
    exists vs. split; assumption.
Qed.

(** With one chunk or one worker the order is kept. *)
Lemma fast_path_keeps_order (workers : nat) (order : list nat)
    (chunks : list string) :
  1 <= workers -> length chunks <= 1 \/ workers <= 1 ->
  distribute_embeddings Vec embedding workers order chunks
  = Some (Returns (List.map embedding chunks)).
Proof.
  intros Hw Hfast. unfold distribute_embeddings.
  replace (Nat.leb (length chunks) 1 || Nat.leb workers 1) with true.
  - destruct workers; [lia|reflexivity].
  - symmetry. apply orb_true_iff.
    destruct Hfast; [left|right]; now apply Nat.leb_le.
Qed.

(** C1, evaluated where it fails: two chunks, two workers, and the second
    worker finishes first.  The vector of the second chunk comes first in
    the output. *)
Theorem completion_order_decides_output_order :
  distribute_embeddings Vec embedding 2 [1] ["a"; "b"]%string
  = Some (Returns [embedding "b"%string; embedding "a"%string])
  /\ distribute_embeddings Vec embedding 2 [0] ["a"; "b"]%string
     = Some (Returns [embedding "a"%string; embedding "b"%string]).
Proof. split; reflexivity. Qed.

End Distribute.

Lemma batches_partition_chunks_witness :
  batch_size (length five_chunks) 3 = Nat.max 1 (length five_chunks / 3)
  /\ concat (make_batches five_chunks 3) = five_chunks
  /\ length (make_batches five_chunks 3)
     = batch_count (length five_chunks) (batch_size (length five_chunks) 3)
  /\ (forall k, S k < length (make_batches five_chunks 3) ->
        length (nth k (make_batches five_chunks 3) [])
        = batch_size (length five_chunks) 3)
  /\ (forall k, S k = length (make_batches five_chunks 3) ->
        1 <= length (nth k (make_batches five_chunks 3) [])
        <= batch_size (length five_chunks) 3)
  /\ Nat.min 3 (length five_chunks) <= length (make_batches five_chunks 3)
     < 2 * 3
  /\ (length five_chunks mod 3 = 0 ->
      length (make_batches five_chunks 3) = 3)
  /\ initial_tasks 3 (length (make_batches five_chunks 3))
     = List.map (fun i => (i, i))
         (seq 0 (Nat.min 3 (length (make_batches five_chunks 3))))
  /\ (forall (st : Loop string) (ready actor task : nat),
        nth_error (actor_tasks string st)
                  (ready mod length (actor_tasks string st))
        = Some (actor, task) ->
        next_batch_idx string st < length (make_batches five_chunks 3) ->
        In (actor, next_batch_idx string st)
           (actor_tasks string
              (step string id (make_batches five_chunks 3) ready st))
        /\ length (actor_tasks string
                     (step string id (make_batches five_chunks 3) ready st))
           = length (actor_tasks string st)
        /\ next_batch_idx string
             (step string id (make_batches five_chunks 3) ready st)
           = S (next_batch_idx string st)
        /\ results string
             (step string id (make_batches five_chunks 3) ready st)
           = results string st
             ++ embed_chunks string id
                  (nth task (make_batches five_chunks 3) []))
  /\ (forall order,
        exists vs,
          distribute_embeddings string id 3 order five_chunks
          = Some (Returns vs)
          /\ Permutation vs (List.map id five_chunks)).
Proof.
  apply (batches_partition_chunks string id five_chunks 3).
  - simpl. lia.
  - lia.
Defined.

(** With the identity as embedding the swap is visible: output 0 is not
    the vector of chunk 0. *)
Lemma swapped_output_differs :
  exists vs, distribute_embeddings string id 2 [1] ["a"; "b"]%string
             = Some (Returns vs)
             /\ length vs = 2
             /\ nth 0 vs EmptyString = "b"%string
             /\ nth 0 (List.map id ["a"; "b"]%string) EmptyString = "a"%string.
Proof. eexists. repeat split. Qed.

(** Even when the first outstanding task always finishes first, more
    batches than workers leave the output out of order. *)
Lemma first_done_first_is_not_in_order :
  distribute_embeddings string id 2 [] five_chunks
  = Some (Returns ["a"; "b"; "e"; "c"; "d"]%string).
Proof. reflexivity. Qed.

End SchedulerFacts.

(** ** The per-file orchestrator *)

Module IngestionFacts.
Import DatabaseManager IngestionManager.

(** The rows of the ingestion log. *)
Definition log_of (im : IngestionManager) : list LogRow :=
  ingestion_log (db_manager im).

(** Case analysis on what the goal branches on: an outcome of the
    environment, the answer of the ledger, the verdict of the policy. *)
Ltac branch :=
  match goal with
  | |- context [str_truthy ?f && negb ?n] => destruct (str_truthy f && negb n)
  | |- context [match ?x with _ => _ end] => is_var x; destruct x
  | |- context [negb ?b] => is_var b; destruct b
  | |- context [str_truthy ?t] => is_var t; destruct t
  | |- context [list_truthy ?l] => is_var l; destruct l
  | |- context [PDFProcessor.is_pdf_acceptable ?a] =>
      destruct (PDFProcessor.is_pdf_acceptable a) as [[? ?] ?]
  | |- context [has_key ?k ?d] => destruct (has_key k d)
  end.

(** The one update of the run's row an already processed file causes:
    the skipped and the already-processed counters, each one more than
    the controller [rm] held. *)
Definition already_processed_update (rm : RunManager.RunManager) : RunUpdate :=
  {| u_end_time := None; u_status := None; u_processed_files := None;
     u_failed_files := None;
     u_skipped_files := Some (RunManager.skipped_files rm + 1);
     u_already_processed_files :=
       Some (RunManager.already_processed_files rm + 1);
     u_total_processing_time := None; u_run_record := None |}.

(** C9, amended. A call of [ingest_file] that returns success, error or
    skipped has appended exactly one row to the ingestion log, for the
    file and the configured collection, whose status is the value
    returned; a call that returns already_processed has appended none,
    and all it has done is to add one to the skipped and to the
    already-processed counter of the run, in the controller and in the
    row of the run. *)
Theorem ingest_file_logs_its_outcome (env : FileEnv) (path : string)
    (im im' : IngestionManager) (s : IngestionStatus) :
  ingest_file env path im = (Returns s, im') ->
  match s with
  | already_processed =>
      log_of im' = log_of im
      /\ exists rm,
           run_manager im = Some rm
           /\ im' = {| config := config im;
                       run_manager :=
                         Some (RunManager.set_counters
                                 (RunManager.processed_files rm)
                                 (RunManager.failed_files rm)
                                 (RunManager.skipped_files rm + 1)
                                 (RunManager.already_processed_files rm + 1)
                                 rm);
                       db_manager :=
                         update_run
                           (default EmptyString (RunManager.run_id rm))
                           (already_processed_update rm) (db_manager im) |}
  | _ => exists row, log_of im' = (log_of im ++ [row])%list
                     /\ log_status row = s
                     /\ file_path row = path
                     /\ log_collection row = Config.collection (config im)
  end.
Proof.
  destruct im as [cfg [rm|] db]; [|discriminate].
  destruct rm as [rid ? ? ? ? ? ? ? ? ? ? ? ? ?].
  destruct env as [now fp del an ex ch co em sto].
  unfold ingest_file, process_accepted, attach_diagnostics, try_except,
    bind, lift, ret, log, modify, get_state, read_run_id, on_run_manager,
    log_of,
    RunManager.increment_already_processed, RunManager.increment_failed,
    RunManager.increment_skipped, RunManager.increment_processed.
  cbn -[file_needs_processing PDFProcessor.is_pdf_acceptable Z.add
        extraction_error_msg String.append has_key].
  destruct fp as [fp|e]; [|discriminate].
  destruct (opt_truthy rid) eqn:Hrid;
    cbn -[file_needs_processing PDFProcessor.is_pdf_acceptable Z.add
          extraction_error_msg String.append has_key];
    repeat (first [rewrite Hrid | branch];
            cbn -[file_needs_processing PDFProcessor.is_pdf_acceptable Z.add
                  extraction_error_msg String.append has_key]);
    intros Heq; try discriminate; inversion Heq; subst; clear Heq;
    cbn;
    first [ split; [reflexivity|]; eexists; split; reflexivity
          | eexists; (split; [reflexivity|]); repeat split ].
Qed.

(** *** The same file ingested twice *)

Definition clean_analysis : PdfModels.PDFAnalysisResult :=
  {| PdfModels.filepath := "/data/a.pdf"; PdfModels.filesize := 4096;
     PdfModels.num_pages := 3; PdfModels.is_encrypted := false;
     PdfModels.is_damaged := false; PdfModels.encoding_types := ∅;
     PdfModels.fonts := []; PdfModels.issues := [];
     PdfModels.metadata := [] |}.

(** A three-page file with text: every collaborator answers. *)
Definition readable : FileEnv :=
  {| env_now := 101;
     env_fingerprint := Returns "f1";
     env_delete := Returns tt;
     env_analysis := Returns clean_analysis;
     env_extraction :=
       Returns ("Some text. More text.",
                {| page_count := 3; failure_reason := None;
                   failure_details := None |});
     env_chunks := Returns ["Some text."; "More text."];
     env_collection := Returns tt;
     env_embeddings := Returns tt;
     env_store := Returns tt |}.

Definition test_docs : IngestionManager :=
  {| config :=
       {| Config.processing :=
            {| Config.chunk_size := 1024; Config.chunk_overlap := 20;
               Config.embedding_model := "BAAI/bge-large-en-v1.5";
               Config.ray_workers := Some 1%nat |};
          Config.collection := Some "TestDocs";
          Config.run_id := None;
          Config.run_name := None |};
     run_manager := None;
     db_manager := empty_db |}.

(** The first invocation, after its run was started. *)
Definition first_started : IngestionManager :=
  snd (start_run "run-0" 100 1 (Returns tt) test_docs).

(** The second invocation: a new process on the database the first one
    left, after its run was started. *)
Definition second_started : IngestionManager :=
  snd (start_run "run-1" 200 1 (Returns tt)
         {| config := config test_docs;
            run_manager := None;
            db_manager :=
              db_manager
                (snd (IngestionManager.end_run 110 111
                        (snd (ingest_file readable "/data/a.pdf"
                                          first_started)))) |}).

Example first_ingestion_succeeds :
  fst (ingest_file readable "/data/a.pdf" first_started) = Returns success
  /\ List.map log_status
       (log_of (snd (ingest_file readable "/data/a.pdf" first_started)))
     = [success]
  /\ (RunManager.processed_files
        <$> run_manager (snd (ingest_file readable "/data/a.pdf"
                                          first_started)))
     = Some 1.
Proof. vm_compute. repeat split; reflexivity. Qed.

(** C9, as stated, fails: the second ingestion of the file returns
    already_processed and only updates the counters of the run; the
    ingestion log has the same rows before and after. *)
Lemma already_processed_is_not_logged :
  fst (ingest_file readable "/data/a.pdf" second_started)
  = Returns already_processed
  /\ log_of (snd (ingest_file readable "/data/a.pdf" second_started))
     = log_of second_started
  /\ List.map log_status (log_of second_started) = [success]
  /\ (RunManager.already_processed_files
        <$> run_manager (snd (ingest_file readable "/data/a.pdf"
                                          second_started)))
     = Some 1.
Proof. vm_compute. repeat split; reflexivity. Qed.

Lemma ingest_file_logs_its_outcome_witness :
  exists row,
    log_of (snd (ingest_file readable "/data/a.pdf" first_started))
    = (log_of first_started ++ [row])%list
    /\ log_status row = success
    /\ file_path row = "/data/a.pdf"
    /\ log_collection row = Config.collection (config first_started).
Proof.
  apply (ingest_file_logs_its_outcome readable "/data/a.pdf" first_started
           (snd (ingest_file readable "/data/a.pdf" first_started)) success).
  vm_compute. reflexivity.
Defined.

End IngestionFacts.

(* ===================================================================== *)
(** * Further properties *)
(* ===================================================================== *)

(** ** More on the acceptance policy *)

Module PolicyMore.
Import PdfModels PDFProcessor.

Lemma has_critical_issues_false_iff (r : PDFAnalysisResult) :
  has_critical_issues r = false
  <-> forall i, In i (issues r) -> severity i <> "high".
Proof.
  rewrite <- not_true_iff_false, PolicyFacts.has_critical_issues_iff. split.
  - intros Hno i Hin Hsev. apply Hno. now exists i.
  - intros Hall (i & Hin & Hsev). now apply (Hall i).
Qed.

(** X1. The policy accepts (with or without a warning) exactly the
    results that have no issue of severity high, are neither damaged nor
    encrypted, and have at least one page. *)
Theorem accepted_iff (r : PDFAnalysisResult) :
  fst (fst (is_pdf_acceptable r)) = true
  <-> (forall i, In i (issues r) -> severity i <> "high")
      /\ is_damaged r = false /\ is_encrypted r = false /\ num_pages r <> 0%Z.
Proof.
  rewrite <- has_critical_issues_false_iff. unfold is_pdf_acceptable.
  destruct (has_critical_issues r), (is_damaged r), (is_encrypted r),
    (Z.eqb_spec (num_pages r) 0); cbn [fst snd];
    try (split; [discriminate | intros (? & ? & ? & ?); congruence]).
  destruct (list_truthy _); [|destruct (list_truthy _)]; cbn [fst snd];
    (split; [intros _; auto | reflexivity]).
Qed.

(** The four categories of rejection. *)
Definition rejection_categories : list string :=
  ["critical_issues"; "damaged"; "encrypted"; "empty_document"].

(** X2. The diagnostics always list every issue of the result, in order,
    accepted or not.  A rejection names exactly one category, one of the
    four, both as primary reason and as the only issue found; an
    acceptance names no rejection category. *)
Theorem diagnostics_are_complete (r : PDFAnalysisResult) :
  all_issues (snd (is_pdf_acceptable r)) = List.map issue_entry (issues r)
  /\ (fst (fst (is_pdf_acceptable r)) = false ->
      exists category,
        In category rejection_categories
        /\ primary_rejection_reason (snd (is_pdf_acceptable r)) = Some category
        /\ issues_found (snd (is_pdf_acceptable r)) = [category])
  /\ (fst (fst (is_pdf_acceptable r)) = true ->
      forall category,
        primary_rejection_reason (snd (is_pdf_acceptable r)) = Some category ->
        ~ In category rejection_categories).
Proof.
  unfold is_pdf_acceptable, rejection_categories.
  destruct (has_critical_issues r); [|destruct (is_damaged r);
    [|destruct (is_encrypted r); [|destruct (num_pages r =? 0)%Z;
      [|destruct (list_truthy _); [|destruct (list_truthy _)]]]]];
    cbn [fst snd all_issues primary_rejection_reason issues_found diagnostics];
    (split; [reflexivity|]); split;
    try (intros _; eexists; split; [|split; reflexivity]; simpl; tauto);
    try discriminate;
    intros _ category [= <-]; simpl; intuition discriminate.
Qed.

Lemma diagnostics_are_complete_witness :
  all_issues (snd (is_pdf_acceptable PolicyFacts.two_critical))
  = List.map issue_entry (issues PolicyFacts.two_critical)
  /\ (exists category,
        In category rejection_categories
        /\ primary_rejection_reason
             (snd (is_pdf_acceptable PolicyFacts.two_critical)) = Some category
        /\ issues_found (snd (is_pdf_acceptable PolicyFacts.two_critical))
           = [category]).
Proof.
  destruct (diagnostics_are_complete PolicyFacts.two_critical)
    as (Hall & Hrej & _).
  split; [exact Hall|]. apply Hrej. reflexivity.
Defined.

End PolicyMore.

(** ** Text extraction *)

Module ExtractionFacts.
Import TextExtraction.

(** X3. For a path that exists [extract_text_from_pdf] never raises.  The
    text it returns is either empty or the text of the backend; it is not
    empty exactly when no failure reason is reported, which is exactly
    when the backend reported success, at least one page, and a text with
    a character that is not white space.  For a path that does not exist
    it raises FileNotFoundError whatever the backend would answer. *)
Theorem extract_text_outcomes (isspace : ascii -> bool) (pdf_path : string)
    (backend : Outcome (string * ExtractionDetails)) :
  (exists extracted diag,
     extract_text_from_pdf isspace pdf_path true backend
     = Returns (extracted, diag)
     /\ (str_truthy extracted = true <-> diag_failure_reason diag = None)
     /\ (str_truthy extracted = true <->
         exists details,
           backend = Returns (extracted, details)
           /\ d_success details = Some true
           /\ default 0%Z (d_page_count details) <> 0%Z
           /\ strip_is_empty isspace extracted = false)
     /\ (str_truthy extracted = true ->
         diag_extraction_attempts diag
         = [{| method := "pymupdf_external"; attempt_success := true;
               char_count := Z.of_nat (String.length extracted) |}]))
  /\ exists e, extract_text_from_pdf isspace pdf_path false backend = Raises e
               /\ exn_class e = "FileNotFoundError".
Proof.
  split; [|eexists; split; reflexivity].
  unfold extract_text_from_pdf. cbn [negb].
  destruct backend as [[extracted details]|e].
  - destruct (d_success details) as [[|]|] eqn:Hs; cbn [default negb].
    + destruct (Z.eqb_spec (default 0%Z (d_page_count details)) 0) as [Hp|Hp].
      * do 2 eexists. split; [reflexivity|]. cbn.
        split; [split; discriminate|]. split; [|discriminate].
        split; [discriminate|]. intros (d & _ & _ & _ & Hstrip). discriminate Hstrip.
      * destruct (str_truthy extracted) eqn:Ht; cbn [negb orb].
        -- destruct (strip_is_empty isspace extracted) eqn:Hb.
           ++ do 2 eexists. split; [reflexivity|]. cbn.
              split; [split; discriminate|]. split; [|discriminate].
              split; [discriminate|]. intros (d & _ & _ & _ & Hstrip). discriminate Hstrip.
           ++ do 2 eexists. split; [reflexivity|]. cbn. rewrite Ht.
              split; [split; reflexivity|]. split; [|reflexivity].
              split; [|reflexivity]. intros _. exists details. auto.
        -- do 2 eexists. split; [reflexivity|]. cbn.
           split; [split; discriminate|]. split; [|discriminate].
           split; [discriminate|]. intros (d & _ & _ & _ & Hstrip). discriminate Hstrip.
    + do 2 eexists. split; [reflexivity|]. cbn.
      split; [split; discriminate|]. split; [|discriminate].
      split; [discriminate|]. intros (d & _ & _ & _ & Hstrip). discriminate Hstrip.
    + do 2 eexists. split; [reflexivity|]. cbn.
      split; [split; discriminate|]. split; [|discriminate].
      split; [discriminate|]. intros (d & _ & _ & _ & Hstrip). discriminate Hstrip.
  - do 2 eexists. split; [reflexivity|]. cbn.
    split; [split; discriminate|]. split; [|discriminate].
    split; [discriminate|]. intros (d & _ & _ & _ & Hstrip). discriminate Hstrip.
Qed.

End ExtractionFacts.

(** ** More on the structural analyzer *)

Module AnalyzerMore.
Import PdfModels PDFAnalyzer.

(** X4. A file passes the signature check exactly when it can be read
    and its content starts with the five bytes [%PDF-]; reading only the
    first 1024 bytes does not change the verdict. *)
Theorem valid_pdf_iff (f : FileEntry) :
  _is_valid_pdf f = true
  <-> exists content rest,
        file_bytes f = Returns content
        /\ content = (pdf_signature ++ rest)%list.
Proof.
  unfold _is_valid_pdf. destruct (file_bytes f) as [content|e].
  - rewrite AnalyzerFacts.startswith_firstn by (simpl; lia).
    rewrite AnalyzerFacts.startswith_spec. split.
    + intros (rest & ->). now exists (pdf_signature ++ rest)%list, rest.
    + intros (content' & rest & [= <-] & ->). now exists rest.
  - split; [discriminate | intros (content & rest & Hc & _); discriminate].
Qed.

(** *** What the fallback parser may change *)

(** A property of the result that none of the updates made while reading
    an opened document can break. *)
Record Stable (P : PDFAnalysisResult -> Prop) : Prop := {
  stable_num_pages : forall n r, P r -> P (set_num_pages n r);
  stable_metadata : forall m r, P r -> P (set_metadata m r);
  stable_encoding : forall e r, P r -> P (add_encoding e r);
  stable_font : forall f r, P r -> P (append_font f r);
  stable_issue : forall t d pages r,
      P r -> P (append_issue (mk_issue t d "medium" pages) r)
}.

Lemma extract_one_font_stable P page_num entry st :
  Stable P -> P (snd st) -> P (snd (extract_one_font page_num entry st)).
Proof.
  intros HP Hr. destruct st as [font_set r], entry as [key [font|e]];
    simpl in *; [|exact Hr].
  case_bool_decide; [exact Hr|].
  assert (He : P (match font_encoding_of (get_or (pf_Encoding font) "Unknown")
                  with Some e => add_encoding e r | None => r end)).
  { destruct (font_encoding_of _); [now apply stable_encoding | exact Hr]. }
  destruct (pf_FontDescriptor font) as [[fd|e]|]; simpl; try exact He;
    match goal with
    | |- context [if ?b then _ else _] => destruct b
    end;
    repeat first [apply stable_issue | apply stable_font]; assumption.
Qed.

Lemma extract_pages_stable P pages page_num st :
  Stable P -> P (snd st) -> P (snd (extract_pages page_num pages st)).
Proof.
  intros HP. revert page_num st.
  induction pages as [|page rest IH]; intros n st Hst; simpl; [exact Hst|].
  apply IH. unfold extract_page_fonts.
  destruct (page_Resources page) as [res|]; [|exact Hst].
  destruct (res_Font res) as [page_fonts|]; [|exact Hst].
  revert st Hst. induction page_fonts as [|entry more IHf]; intros st Hst;
    simpl; [exact Hst|].
  apply IHf. now apply extract_one_font_stable.
Qed.

Lemma pikepdf_body_stable P (opened : Outcome PikePdf) (r : PDFAnalysisResult) :
  Stable P -> P r -> P (snd (pikepdf_body opened r)).
Proof.
  intros HP Hr.
  unfold pikepdf_body, bind, lift, modify, when, get_state, ret,
    _extract_fonts_with_pikepdf.
  destruct opened as [pdf|e]; [|exact Hr].
  destruct (pike_pages pdf) as [pages|e]; [|exact Hr].
  assert (H1 : P (set_num_pages (Z.of_nat (length pages)) r))
    by now apply stable_num_pages.
  destruct (pike_docinfo pdf) as [docinfo|e]; [|exact H1].
  set (r2 := snd ((if list_truthy docinfo
                   then fun r0 => (Returns tt, set_metadata docinfo r0)
                   else fun s => (Returns tt, s))
                  (set_num_pages (Z.of_nat (length pages)) r))).
  assert (H2 : P r2).
  { subst r2. destruct (list_truthy docinfo); simpl;
      [now apply stable_metadata | exact H1]. }
  destruct (list_truthy docinfo); simpl in *;
    (destruct (pike_Root_has_EmbeddedFiles pdf) as [embedded|e]; [|exact H2]);
    (destruct embedded; simpl;
     (destruct (pike_objects_len pdf) as [n|e];
      [|first [exact H2 | now apply stable_issue]]);
     simpl; destruct (n >? _)%Z; simpl;
     apply (extract_pages_stable P pages 0 (∅, _) HP); simpl;
     repeat apply stable_issue; try assumption; exact HP).
Qed.


Lemma stable_not_damaged : Stable (fun r => is_damaged r = false).
Proof. constructor; intros; assumption. Qed.



Lemma analyze_file_uses_fallback (path : string) (f : FileEntry)
    (primary : Outcome Analysis) (opened : Outcome PikePdf) :
  _is_valid_pdf f = true -> AnalyzerFacts.primary_fails primary ->
  exists first,
    analyze_file path (Some f) primary opened
    = (Returns (fallback first opened (initial_result path (st_size f))),
       [CallPyMuPDF; CallPikepdf]).
Proof.
  intros Hvalid Hprim. unfold analyze_file. rewrite Hvalid. simpl.
  destruct primary as [a|e]; simpl in Hprim.
  - rewrite Hprim. simpl. eauto.
  - eauto.
Qed.




(** X6. When the primary parser fails and the fallback parser meets a
    password error, the result is encrypted, not damaged, and carries a
    PASSWORD_PROTECTED issue of severity high, so that the policy rejects
    it for critical issues. *)
Theorem password_protected_document (path : string) (f : FileEntry)
    (primary : Outcome Analysis) (opened : Outcome PikePdf)
    (e : Exn) (r0 : PDFAnalysisResult) :
  _is_valid_pdf f = true -> AnalyzerFacts.primary_fails primary ->
  pikepdf_body opened (initial_result path (st_size f)) = (Raises e, r0) ->
  is_PasswordError e = true ->
  exists r,
    analyze_file path (Some f) primary opened
    = (Returns r, [CallPyMuPDF; CallPikepdf])
    /\ is_encrypted r = true /\ is_damaged r = false
    /\ (exists i, In i (issues r) /\ issue_type i = PASSWORD_PROTECTED
                  /\ severity i = "high")
    /\ fst (fst (PDFProcessor.is_pdf_acceptable r)) = false
    /\ PDFProcessor.primary_rejection_reason
         (snd (PDFProcessor.is_pdf_acceptable r)) = Some "critical_issues".
Proof.
  intros Hvalid Hprim Hbody Hpw.
  destruct (analyze_file_uses_fallback path f primary opened Hvalid Hprim)
    as (first & ->).
  assert (Hd : is_damaged r0 = false).
  { replace r0 with (snd (pikepdf_body opened (initial_result path (st_size f))))
      by now rewrite Hbody.
    now apply (pikepdf_body_stable _ _ _ stable_not_damaged). }
  unfold fallback, _analyze_with_pikepdf, try_except. rewrite Hbody, Hpw.
  cbn [bind modify fst snd]. eexists. split; [reflexivity|].
  split; [reflexivity|]. split; [exact Hd|].
  assert (Hissue : exists i,
             In i (issues (append_issue
                     (mk_issue PASSWORD_PROTECTED "PDF is password protected"
                               "high" []) (set_is_encrypted true r0)))
             /\ issue_type i = PASSWORD_PROTECTED /\ severity i = "high").
  { exists (mk_issue PASSWORD_PROTECTED "PDF is password protected" "high" []).
    split; [|split; reflexivity]. simpl. apply in_app_iff.
    right. now left. }
  split; [exact Hissue|].
  destruct Hissue as (i & Hin & _ & Hs).
  rewrite PolicyFacts.critical_rejects.
  - split; reflexivity.
  - apply PolicyFacts.has_critical_issues_iff. now exists i.
Qed.

Lemma password_protected_document_witness :
  exists r,
    analyze_file "/data/a.pdf" (Some AnalyzerFacts.good_file)
                 (Returns AnalyzerFacts.primary_failed)
                 (Raises (MkExn "PasswordError" "invalid password"))
    = (Returns r, [CallPyMuPDF; CallPikepdf])
    /\ is_encrypted r = true /\ is_damaged r = false
    /\ (exists i, In i (issues r) /\ issue_type i = PASSWORD_PROTECTED
                  /\ severity i = "high")
    /\ fst (fst (PDFProcessor.is_pdf_acceptable r)) = false
    /\ PDFProcessor.primary_rejection_reason
         (snd (PDFProcessor.is_pdf_acceptable r)) = Some "critical_issues".
Proof.
  apply (password_protected_document "/data/a.pdf" AnalyzerFacts.good_file
           (Returns AnalyzerFacts.primary_failed)
           (Raises (MkExn "PasswordError" "invalid password"))
           (MkExn "PasswordError" "invalid password")
           (initial_result "/data/a.pdf" 8)).
  - reflexivity.
  - reflexivity.
  - reflexivity.
  - reflexivity.
Defined.

(** *** Fonts are listed once *)





(** A document whose two pages both use the font [/Arial]. *)
Definition shared_font : PikePdf :=
  let arial :=
    Returns {| pf_Subtype := Some "/TrueType"; pf_BaseFont := Some "/Arial";
               pf_Encoding := Some "/WinAnsiEncoding";
               pf_FontDescriptor := None |} in
  let page :=
    {| page_Resources := Some {| res_Font := Some [("/F1", arial)] |} |} in
  {| pike_pages := Returns [page; page];
     pike_docinfo := Returns [];
     pike_Root_has_EmbeddedFiles := Returns false;
     pike_objects_len := Returns 12%Z |}.



Example shared_font_listed_once :
  List.map font_name
    (fonts (fallback "cannot open document" (Returns shared_font)
                     (initial_result "/data/a.pdf" 8)))
  = ["/Arial"].
Proof. vm_compute. reflexivity. Qed.

End AnalyzerMore.

(** ** More on the relational log *)

Module LedgerMore.
Import DatabaseManager.
Import LedgerFacts.

(** X8. [file_needs_processing f c] asks for processing exactly when no
    record with fingerprint f belongs to a run stored with collection c:
    records of runs of other collections do not block.  A missing
    collection name (None) matches no run, so the answer is then always
    to process. *)
Theorem needs_processing_iff (db : Db) (f c : string) :
  (file_needs_processing (Some f) (Some c) db = (true, None)
   <-> forall row, In row (ingestion_log db) ->
                   ~ (file_fingerprint row = Some f
                      /\ run_collection_is db c row))
  /\ (fst (file_needs_processing (Some f) (Some c) db) = false
      <-> exists row, In row (ingestion_log db)
                      /\ file_fingerprint row = Some f
                      /\ run_collection_is db c row)
  /\ file_needs_processing (Some f) None db = (true, None).
Proof.
  assert (Hnone : get_ingestion_by_fingerprint (Some f) (Some c) db = None
                  <-> forall row, In row (ingestion_log db) ->
                        ~ (file_fingerprint row = Some f
                           /\ run_collection_is db c row)).
  { unfold get_ingestion_by_fingerprint. split.
    - intros Hl row Hin Hm. apply latest_none in Hl.
      assert (Hf : In row (List.filter
                             (fingerprint_match db (Some f) (Some c))
                             (ingestion_log db))).
      { apply filter_In. split; [exact Hin|].
        now apply fingerprint_match_iff. }
      rewrite Hl in Hf. destruct Hf.
    - intros Hall.
      destruct (List.filter _ (ingestion_log db)) as [|x rest] eqn:Hfl;
        [reflexivity|].
      assert (Hx : In x (List.filter
                           (fingerprint_match db (Some f) (Some c))
                           (ingestion_log db)))
        by (rewrite Hfl; now left).
      apply filter_In in Hx as [Hin Hm].
      apply fingerprint_match_iff in Hm. now destruct (Hall x Hin). }
  split; [|split].
  - rewrite <- Hnone. unfold file_needs_processing.
    destruct (get_ingestion_by_fingerprint _ _ db);
      split; intros Heq; try discriminate Heq; reflexivity.
  - split.
    + unfold file_needs_processing.
      destruct (get_ingestion_by_fingerprint (Some f) (Some c) db)
        as [prev|] eqn:Hg; [intros _|discriminate].
      unfold get_ingestion_by_fingerprint in Hg.
      assert (Hin : In prev (List.filter
                               (fingerprint_match db (Some f) (Some c))
                               (ingestion_log db))).
      { destruct (List.filter _ (ingestion_log db)) as [|x rest] eqn:Hfl;
          [discriminate|].
        destruct (latest_spec (x :: rest) x (or_introl eq_refl))
          as (best & Hb & Hbin & _).
        rewrite Hg in Hb. injection Hb as <-. exact Hbin. }
      apply filter_In in Hin as [Hin Hm].
      apply fingerprint_match_iff in Hm as [Hf Hr]. now exists prev.
    + intros (row & Hin & Hf & Hr).
      destruct (lookup_finds_latest db f c row Hin Hf Hr)
        as (prev & Hget & _).
      unfold file_needs_processing. now rewrite Hget.
  - unfold file_needs_processing, get_ingestion_by_fingerprint.
    replace (List.filter (fingerprint_match db (Some f) None)
                         (ingestion_log db)) with (@nil LogRow);
      [reflexivity|].
    symmetry. clear Hnone.
    induction (ingestion_log db) as [|x rest IH]; [reflexivity|].
    simpl. rewrite <- IH.
    replace (fingerprint_match db (Some f) None x) with false; [reflexivity|].
    unfold fingerprint_match. destruct (sql_eq _ _); [|reflexivity].
    destruct (run_id x) as [rid|]; [|reflexivity].
    destruct (runs db !! rid) as [r|]; [|reflexivity].
    destruct (collection r); reflexivity.
Qed.

(** The identifiers of the log are distinct and were all handed out by
    the counter. *)
Definition ids_ok (db : Db) : Prop :=
  List.NoDup (List.map id (ingestion_log db))
  /\ forall row, In row (ingestion_log db) -> (id row <= last_id db)%Z.

Lemma ids_ok_empty : ids_ok empty_db.
Proof. split; [constructor | intros row []]. Qed.

Lemma filter_sublist_ids (keep : LogRow -> bool) (rows : list LogRow) :
  List.NoDup (List.map id rows) ->
  List.NoDup (List.map id (List.filter keep rows)).
Proof.
  induction rows as [|x rest IH]; simpl; intros Hnd; [constructor|].
  inversion Hnd as [|? ? Hnot Hrest]; subst.
  destruct (keep x); simpl; [|now apply IH].
  constructor; [|now apply IH].
  intros Hin. apply Hnot. apply in_map_iff in Hin as (y & Hy & Hyin).
  apply filter_In in Hyin as [Hyin _]. apply in_map_iff. now exists y.
Qed.

Lemma log_ingestion_ids_ok now path coll st analysis msg rid fp (db : Db) :
  ids_ok db -> ids_ok (log_ingestion now path coll st analysis msg rid fp db).
Proof.
  intros [Hnd Hle]. split; simpl.
  - rewrite List.map_app. simpl. apply List.NoDup_app.
    + exact Hnd.
    + repeat constructor. intros [].
    + intros i Hin [<-|[]]. apply in_map_iff in Hin as (row & Hid & Hin).
      specialize (Hle row Hin). lia.
  - intros row Hin. apply in_app_iff in Hin as [Hin|[<-|[]]]; simpl.
    + specialize (Hle row Hin). lia.
    + lia.
Qed.

Lemma delete_record_ids_ok coll path (db : Db) :
  ids_ok db -> ids_ok (delete_record coll path db).
Proof.
  intros [Hnd Hle]. split; simpl.
  - now apply filter_sublist_ids.
  - intros row Hin. apply filter_In in Hin as [Hin _]. now apply Hle.
Qed.

(** X9. Identifiers of log rows are never reused: logging keeps the
    identifiers distinct and gives the new row an identifier greater than
    every identifier handed out before, also after rows were deleted in
    between (deleting does not move the counter back). *)
Theorem identifiers_are_never_reused
    now path coll st analysis msg rid fp coll' path' (db : Db) :
  ids_ok db ->
  let deleted := delete_record coll' path' db in
  let logged := log_ingestion now path coll st analysis msg rid fp deleted in
  ids_ok deleted /\ ids_ok logged
  /\ exists row,
       ingestion_log logged = (ingestion_log deleted ++ [row])%list
       /\ id row = (last_id db + 1)%Z
       /\ forall old, In old (ingestion_log db) -> (id old < id row)%Z.
Proof.
  intros Hok. cbv zeta.
  pose proof (delete_record_ids_ok coll' path' db Hok) as Hdel.
  split; [exact Hdel|]. split; [now apply log_ingestion_ids_ok|].
  eexists. split; [reflexivity|]. split; [reflexivity|].
  intros old Hin. destruct Hok as [_ Hle]. specialize (Hle old Hin).
  simpl. lia.
Qed.

Lemma identifiers_are_never_reused_witness :
  ids_ok (delete_record (Some "Docs") "/data/a.pdf" orphan_ledger)
  /\ ids_ok (log_ingestion 200 "/data/b.pdf" (Some "Docs") success None
               NoMessage None (Some "f2")
               (delete_record (Some "Docs") "/data/a.pdf" orphan_ledger))
  /\ exists row,
       ingestion_log
         (log_ingestion 200 "/data/b.pdf" (Some "Docs") success None
            NoMessage None (Some "f2")
            (delete_record (Some "Docs") "/data/a.pdf" orphan_ledger))
       = (ingestion_log (delete_record (Some "Docs") "/data/a.pdf"
                                       orphan_ledger) ++ [row])%list
       /\ id row = (last_id orphan_ledger + 1)%Z
       /\ forall old, In old (ingestion_log orphan_ledger) ->
                      (id old < id row)%Z.
Proof.
  apply (identifiers_are_never_reused 200 "/data/b.pdf" (Some "Docs") success
           None NoMessage None (Some "f2") (Some "Docs") "/data/a.pdf"
           orphan_ledger).
  apply log_ingestion_ids_ok, ids_ok_empty.
Defined.

(** X10. Logging then looking up: with distinct identifiers, once an
    attempt is logged under a run stored with collection c, the lookup for
    its fingerprint and c answers not to process, together with the very
    row just logged, whatever the status logged and whatever collection
    the row itself carries. *)
Theorem logged_attempt_is_found now path coll st analysis msg
    (rid fp c : string) (r : RunRow) (db : Db) :
  ids_ok db -> runs db !! rid = Some r -> collection r = Some c ->
  exists row,
    ingestion_log (log_ingestion now path coll st analysis msg (Some rid)
                                 (Some fp) db)
    = (ingestion_log db ++ [row])%list
    /\ log_status row = st
    /\ file_needs_processing (Some fp) (Some c)
         (log_ingestion now path coll st analysis msg (Some rid) (Some fp) db)
       = (false, Some row).
Proof.
  intros [Hnd Hle] Hrun Hcoll.
  set (db' := log_ingestion now path coll st analysis msg (Some rid)
                            (Some fp) db).
  eexists. split; [reflexivity|]. split; [reflexivity|].
  match goal with |- _ = (false, Some ?row) => set (new := row) end.
  assert (Hin : In new (ingestion_log db'))
    by (simpl; apply in_app_iff; right; now left).
  assert (Hmatch : run_collection_is db' c new)
    by (exists rid, r; repeat split; assumption).
  destruct (lookup_finds_latest db' fp c new Hin eq_refl Hmatch)
    as (prev & Hget & Hpin & _ & _ & Hmax).
  unfold file_needs_processing. rewrite Hget. f_equal. f_equal.
  simpl in Hpin. apply in_app_iff in Hpin as [Hold|[<-|[]]]; [|reflexivity].
  specialize (Hle prev Hold). specialize (Hmax new Hin eq_refl Hmatch).
  simpl in Hmax. lia.
Qed.

Lemma logged_attempt_is_found_witness :
  exists row,
    ingestion_log
      (log_ingestion 100 "/data/a.pdf" (Some "Docs") error None
         (Message "Ingestion error: timeout") (Some "r1") (Some "f1")
         {| runs := {[ "r1" := docs_run ]}; ingestion_log := [];
            last_id := 0 |})
    = ([] ++ [row])%list
    /\ log_status row = error
    /\ file_needs_processing (Some "f1") (Some "Docs")
         (log_ingestion 100 "/data/a.pdf" (Some "Docs") error None
            (Message "Ingestion error: timeout") (Some "r1") (Some "f1")
            {| runs := {[ "r1" := docs_run ]}; ingestion_log := [];
               last_id := 0 |})
       = (false, Some row).
Proof.
  apply (logged_attempt_is_found 100 "/data/a.pdf" (Some "Docs") error None
           (Message "Ingestion error: timeout") "r1" "f1" "Docs" docs_run
           {| runs := {[ "r1" := docs_run ]}; ingestion_log := [];
              last_id := 0 |}).
  - split; [constructor | intros row []].
  - apply lookup_singleton_eq.
  - reflexivity.
Defined.

Lemma sql_eq_null (column : option string) : sql_eq column None = false.
Proof. destruct column; reflexivity. Qed.

(** X11. [delete_record c p] removes exactly the log rows whose own
    collection is c and whose path is p: every other row stays, the runs
    and the identifier counter are untouched, and afterwards no record
    of collection c has path p.  With no collection name (None) nothing
    is deleted. *)
Theorem delete_record_effect (db : Db) (c p : string) :
  runs (delete_record (Some c) p db) = runs db
  /\ last_id (delete_record (Some c) p db) = last_id db
  /\ (forall row,
        In row (ingestion_log (delete_record (Some c) p db))
        <-> In row (ingestion_log db)
            /\ ~ (log_collection row = Some c /\ file_path row = p))
  /\ (forall row,
        In row (get_all_records (Some c) (delete_record (Some c) p db)) ->
        file_path row <> p)
  /\ delete_record None p db = db.
Proof.
  assert (Hkeep : forall row,
             negb (sql_eq (log_collection row) (Some c)
                   && String.eqb (file_path row) p) = true
             <-> ~ (log_collection row = Some c /\ file_path row = p)).
  { intros row. rewrite negb_true_iff, <- not_true_iff_false, andb_true_iff,
      sql_eq_iff, String.eqb_eq. reflexivity. }
  split; [reflexivity|]. split; [reflexivity|]. split; [|split].
  - intros row. simpl. rewrite filter_In, Hkeep. reflexivity.
  - intros row Hin Hp. unfold get_all_records in Hin.
    apply filter_In in Hin as [Hin Hc]. apply sql_eq_iff in Hc.
    simpl in Hin. apply filter_In in Hin as [_ Hk]. apply Hkeep in Hk.
    now apply Hk.
  - destruct db as [rs log lid]. unfold delete_record. simpl. f_equal.
    rewrite (List.filter_ext _ (fun _ => true)); [apply List.filter_true|].
    intros row. now rewrite sql_eq_null.
Qed.

Lemma lookup_none_when_no_match (db : Db) (f c : string) :
  (forall row, In row (ingestion_log db) ->
     ~ (file_fingerprint row = Some f /\ run_collection_is db c row)) ->
  get_ingestion_by_fingerprint (Some f) (Some c) db = None.
Proof.
  intros Hall. unfold get_ingestion_by_fingerprint.
  destruct (List.filter _ (ingestion_log db)) as [|x rest] eqn:Hfl;
    [reflexivity|].
  assert (Hx : In x (List.filter (fingerprint_match db (Some f) (Some c))
                                 (ingestion_log db)))
    by (rewrite Hfl; now left).
  apply filter_In in Hx as [Hin Hm].
  apply fingerprint_match_iff in Hm. now destruct (Hall x Hin).
Qed.

(** X12. Retrying a file takes a deletion: if every record with
    fingerprint f is a record of collection c and path p, then after
    [delete_record c p] the lookup for f asks for processing again, for
    every collection. *)
Theorem deleted_file_is_processed_again (db : Db) (f c p c' : string) :
  (forall row, In row (ingestion_log db) -> file_fingerprint row = Some f ->
     log_collection row = Some c /\ file_path row = p) ->
  file_needs_processing (Some f) (Some c') (delete_record (Some c) p db)
  = (true, None).
Proof.
  intros Hall. unfold file_needs_processing.
  rewrite lookup_none_when_no_match; [reflexivity|].
  intros row Hin [Hf _]. simpl in Hin. apply filter_In in Hin as [Hin Hk].
  destruct (Hall row Hin Hf) as [Hc Hp].
  apply sql_eq_iff in Hc. apply String.eqb_eq in Hp.
  rewrite Hc, Hp in Hk. discriminate.
Qed.

Lemma deleted_file_is_processed_again_witness :
  file_needs_processing (Some "f1") (Some "Docs")
    (delete_record (Some "Docs") "/data/a.pdf" failed_before)
  = (true, None).
Proof.
  apply (deleted_file_is_processed_again failed_before "f1" "Docs"
           "/data/a.pdf" "Docs").
  intros row [<-|[]] _. split; reflexivity.
Defined.




(** X14. [update_run] touches one run only: the log, the identifier
    counter and every other run stay as they are, no run is created, and
    the start time and the total of the run are never changed.  Updating
    an unknown run, or updating with no argument given, changes
    nothing. *)
Theorem update_run_frame (rid : string) (u : RunUpdate) (db : Db) :
  ingestion_log (update_run rid u db) = ingestion_log db
  /\ last_id (update_run rid u db) = last_id db
  /\ (forall other, other <> rid ->
        runs (update_run rid u db) !! other = runs db !! other)
  /\ (forall k, is_Some (runs (update_run rid u db) !! k)
                <-> is_Some (runs db !! k))
  /\ (forall row, runs db !! rid = Some row ->
        exists row', runs (update_run rid u db) !! rid = Some row'
                     /\ start_time row' = start_time row
                     /\ total_files row' = total_files row)
  /\ (runs db !! rid = None -> update_run rid u db = db)
  /\ update_run rid no_update db = db.
Proof.
  split; [reflexivity|]. split; [reflexivity|].
  split; [|split; [|split; [|split]]].
  - intros other Hne. simpl. now rewrite lookup_alter_ne.
  - intros k. simpl. destruct (decide (rid = k)) as [->|Hne].
    + rewrite lookup_alter_eq. destruct (runs db !! k); simpl;
        split; intros [x Hx]; try discriminate; eauto.
    + now rewrite lookup_alter_ne.
  - intros row Hrow. simpl. rewrite lookup_alter_eq, Hrow. simpl.
    eexists. split; [reflexivity|]. split; reflexivity.
  - intros Hnone. destruct db as [rs log lid]. unfold update_run. simpl in *.
    f_equal. apply alter_id. intros x Hx. congruence.
  - destruct db as [rs log lid]. unfold update_run. simpl. f_equal.
    apply alter_id. intros [] _. reflexivity.
Qed.

End LedgerMore.

(** ** More on the run controller *)

Module RunMore.
Import DatabaseManager RunManager RunFacts.

(** X15. [start_run] uses the identifier given when it is not empty and
    a generated one otherwise, and resets the controller before it touches
    the database: in both outcomes the controller holds the identifier,
    zeroed counters and status running.  With the identifier unused the
    run is stored as running with zeroed counters, the total and the
    collection of the controller, and the log is untouched; with the
    identifier in use the call raises IntegrityError and the database is
    unchanged. *)
Theorem start_run_outcomes (uuid : string) (now total : Z)
    (rid : option string) (metadata : option Metadata) (rm : RunManager)
    (db : Db) :
  let the_id := if opt_truthy rid then default uuid rid else uuid in
  let out := start_run uuid now total rid metadata (rm, db) in
  (run_id (fst (snd out)) = Some the_id
   /\ counters (fst (snd out)) = (0, 0, 0, 0)
   /\ status (fst (snd out)) = running
   /\ total_files (fst (snd out)) = total
   /\ start_time (fst (snd out)) = Some now)
  /\ (runs db !! the_id = None ->
      fst out = Returns the_id
      /\ ingestion_log (snd (snd out)) = ingestion_log db
      /\ (forall other, other <> the_id ->
            runs (snd (snd out)) !! other = runs db !! other)
      /\ exists row,
           runs (snd (snd out)) !! the_id = Some row
           /\ DatabaseManager.status row = Some running
           /\ DatabaseManager.total_files row = Some total
           /\ DatabaseManager.processed_files row = Some 0
           /\ DatabaseManager.failed_files row = Some 0
           /\ DatabaseManager.skipped_files row = Some 0
           /\ DatabaseManager.already_processed_files row = Some 0
           /\ DatabaseManager.collection row = collection (fst (snd out)))
  /\ (is_Some (runs db !! the_id) ->
      snd (snd out) = db
      /\ exists e, fst out = Raises e /\ exn_class e = "IntegrityError").
Proof.
  intros the_id out. subst out. unfold start_run, create_run.
  fold the_id. split; [|split].
  - destruct (runs db !! the_id); repeat split.
  - intros ->. cbn. split; [reflexivity|]. split; [reflexivity|]. split.
    + intros other Hne. now rewrite lookup_insert_ne.
    + rewrite lookup_insert_eq. eexists. split; [reflexivity|].
      repeat split.
  - intros [row ->]. cbn. split; [reflexivity|].
    eexists. split; reflexivity.
Qed.

(** The run of the controller is stored, and the four counters of its
    row are those of the controller. *)
Definition synced (rid : string) (s : State) : Prop :=
  run_id (fst s) = Some rid /\ str_truthy rid = true
  /\ exists row,
       runs (snd s) !! rid = Some row
       /\ DatabaseManager.processed_files row = Some (processed_files (fst s))
       /\ DatabaseManager.failed_files row = Some (failed_files (fst s))
       /\ DatabaseManager.skipped_files row = Some (skipped_files (fst s))
       /\ DatabaseManager.already_processed_files row
          = Some (already_processed_files (fst s)).

(** The counter operations, as values, and a sequence of calls. *)
Inductive CounterOp := Processed | Failed | Skipped | AlreadyProcessed.

Definition counter_op (op : CounterOp) : State -> Outcome Z * State :=
  match op with
  | Processed => increment_processed
  | Failed => increment_failed
  | Skipped => increment_skipped
  | AlreadyProcessed => increment_already_processed
  end.

Fixpoint counter_ops (ops : list CounterOp) (s : State) : State :=
  match ops with
  | [] => s
  | op :: rest => counter_ops rest (snd (counter_op op s))
  end.

Lemma counter_op_synced (rid : string) (op : CounterOp) (s : State) :
  synced rid s ->
  synced rid (snd (counter_op op s))
  /\ (exists v, fst (counter_op op s) = Returns v)
  /\ ingestion_log (snd (snd (counter_op op s))) = ingestion_log (snd s)
  /\ processed_files (fst (snd (counter_op op s)))
     + failed_files (fst (snd (counter_op op s)))
     + skipped_files (fst (snd (counter_op op s)))
     = processed_files (fst s) + failed_files (fst s)
       + skipped_files (fst s) + 1
  /\ already_processed_files (fst (snd (counter_op op s)))
     - skipped_files (fst (snd (counter_op op s)))
     <= already_processed_files (fst s) - skipped_files (fst s).
Proof.
  destruct s as [rm db]. intros (Hid & Ht & row & Hrow & Hp & Hf & Hs & Ha).
  simpl in *.
  destruct op; unfold counter_op, increment_processed, increment_failed,
    increment_skipped, increment_already_processed, opt_truthy;
    rewrite Hid, Ht; unfold synced; cbn -[Z.add Z.sub]; rewrite Hid;
    cbn -[Z.add Z.sub];
    (split; [split; [first [reflexivity|exact Hid]|]; split; [exact Ht|];
             rewrite lookup_alter_eq, Hrow; cbn -[Z.add Z.sub];
             eexists; split; [reflexivity|]; repeat split; assumption
            |split; [eexists; reflexivity|]; split; [reflexivity|];
             split; lia]).
Qed.

(** X16. While a run is in progress the row of the run never falls
    behind: whatever sequence of counter operations is called on a
    controller whose counters agree with its row, they agree afterwards
    again, the log is untouched, processed + failed + skipped has grown
    by the number of calls, and the already-processed counter has not
    overtaken the skipped counter. *)
Theorem counters_stay_persisted (rid : string) (ops : list CounterOp)
    (s : State) :
  synced rid s ->
  synced rid (counter_ops ops s)
  /\ ingestion_log (snd (counter_ops ops s)) = ingestion_log (snd s)
  /\ processed_files (fst (counter_ops ops s))
     + failed_files (fst (counter_ops ops s))
     + skipped_files (fst (counter_ops ops s))
     = processed_files (fst s) + failed_files (fst s) + skipped_files (fst s)
       + Z.of_nat (length ops)
  /\ already_processed_files (fst (counter_ops ops s))
     - skipped_files (fst (counter_ops ops s))
     <= already_processed_files (fst s) - skipped_files (fst s).
Proof.
  revert s. induction ops as [|op ops IH]; intros s Hs.
  - simpl. split; [exact Hs|]. split; [reflexivity|]. split; lia.
  - destruct (counter_op_synced rid op s Hs) as (Hs' & _ & Hlog & Hsum & Hle).
    destruct (IH _ Hs') as (Hs'' & Hlog' & Hsum' & Hle').
    cbn [counter_ops]. split; [exact Hs''|]. split; [congruence|].
    split; [|lia]. rewrite Hsum', Hsum, length_cons. lia.
Qed.

Lemma counters_stay_persisted_witness :
  synced "run-1"
    (counter_ops [Processed; AlreadyProcessed; Failed]
       (snd (start_run "generated-id" 100 3 (Some "run-1") None
                       (init, empty_db))))
  /\ counters
       (fst (counter_ops [Processed; AlreadyProcessed; Failed]
               (snd (start_run "generated-id" 100 3 (Some "run-1") None
                               (init, empty_db)))))
     = (1, 1, 1, 1).
Proof.
  split; [|reflexivity].
  apply (counters_stay_persisted "run-1" [Processed; AlreadyProcessed; Failed]
           (snd (start_run "generated-id" 100 3 (Some "run-1") None
                           (init, empty_db)))).
  split; [reflexivity|]. split; [reflexivity|].
  eexists. split; [apply lookup_insert_eq|]. repeat split.
Defined.

(** X17. [end_run] has three outcomes.  Without a run it raises ValueError
    and changes nothing.  For a started run whose row is stored it
    returns the statistics of the controller; the final status is
    completed_with_errors when the failed counter is positive and
    completed otherwise, never failed; status, end time and the four
    counters are written to the row, whose start time, total and
    collection stay, and the log is untouched.  For a started run whose
    row is gone it raises AttributeError, marks the controller failed and
    leaves the database as it was. *)
Theorem end_run_outcomes (now now_err : Z) (rm : RunManager) (db : Db) :
  (opt_truthy (run_id rm) = false ->
   end_run now now_err (rm, db) = (Raises no_run_in_progress, (rm, db)))
  /\ (forall rid start,
        run_id rm = Some rid -> str_truthy rid = true ->
        start_time rm = Some start ->
        (forall row, runs db !! rid = Some row ->
           exists stats rm' db' row',
             end_run now now_err (rm, db) = (Returns stats, (rm', db'))
             /\ rs_status stats
                = (if failed_files rm >? 0
                   then completed_with_errors else completed)
             /\ status rm' = rs_status stats
             /\ (rs_processed_files stats, rs_failed_files stats,
                 rs_skipped_files stats, rs_already_processed_files stats)
                = counters rm
             /\ counters rm' = counters rm
             /\ rs_collection stats = DatabaseManager.collection row
             /\ ingestion_log db' = ingestion_log db
             /\ runs db' !! rid = Some row'
             /\ DatabaseManager.status row' = Some (rs_status stats)
             /\ DatabaseManager.end_time row' = Some now
             /\ DatabaseManager.processed_files row'
                = Some (processed_files rm)
             /\ DatabaseManager.failed_files row' = Some (failed_files rm)
             /\ DatabaseManager.skipped_files row' = Some (skipped_files rm)
             /\ DatabaseManager.already_processed_files row'
                = Some (already_processed_files rm)
             /\ DatabaseManager.start_time row'
                = DatabaseManager.start_time row
             /\ DatabaseManager.total_files row'
                = DatabaseManager.total_files row
             /\ DatabaseManager.collection row'
                = DatabaseManager.collection row)
        /\ (runs db !! rid = None ->
            exists e rm',
              end_run now now_err (rm, db) = (Raises e, (rm', db))
              /\ exn_class e = "AttributeError"
              /\ status rm' = failed
              /\ counters rm' = counters rm)).
Proof.
  split.
  - intros Hrun. unfold end_run. now rewrite Hrun.
  - intros rid start Hid Ht Hstart. split.
    + intros row Hrow. destruct rm; simpl in *. subst.
      unfold end_run, get_run_stats, get_run_record, update_run, opt_truthy.
      cbn -[Z.gtb Z.sub]. rewrite Ht. cbn -[Z.gtb Z.sub].
      rewrite !lookup_alter_eq, Hrow. cbn -[Z.gtb Z.sub].
      do 4 eexists. split; [reflexivity|]. cbn -[Z.gtb Z.sub].
      repeat (split; [reflexivity|]).
      split; [rewrite lookup_alter_eq, Hrow; reflexivity|].
      cbn -[Z.gtb Z.sub]. repeat split.
    + intros Hnone. destruct rm; destruct db as [rs log lid]; simpl in *.
      subst.
      unfold end_run, end_run_failed, get_run_stats, get_run_record,
        update_run, opt_truthy.
      cbn -[Z.gtb Z.sub]. rewrite Ht. cbn -[Z.gtb Z.sub].
      rewrite lookup_alter_eq, Hnone. cbn -[Z.gtb Z.sub].
      repeat (rewrite (alter_id _ rs rid) by (intros x Hx; congruence)).
      do 2 eexists. split; [reflexivity|]. repeat split.
Qed.

Lemma end_run_outcomes_witness :
  exists stats rm' db' row',
    end_run 110 111 (midway, {| runs := {[ "run-1" := LedgerFacts.docs_run ]};
                                ingestion_log := []; last_id := 0 |})
    = (Returns stats, (rm', db'))
    /\ rs_status stats = completed_with_errors
    /\ runs db' !! "run-1"%string = Some row'
    /\ DatabaseManager.status row' = Some completed_with_errors
    /\ DatabaseManager.failed_files row' = Some 1.
Proof.
  destruct (end_run_outcomes 110 111 midway
              {| runs := {[ "run-1" := LedgerFacts.docs_run ]};
                 ingestion_log := []; last_id := 0 |}) as [_ Hrun].
  destruct (Hrun "run-1"%string 90 eq_refl eq_refl eq_refl) as [Hrow _].
  destruct (Hrow LedgerFacts.docs_run (lookup_singleton_eq _ _))
    as (stats & rm' & db' & row' & Hend & Hst & _ & _ & _ & _ & _ & Hr
        & Hrs & _ & _ & Hf & _).
  exists stats, rm', db', row'. rewrite Hrs, Hst. auto.
Defined.

End RunMore.

(** ** More on the embedding scheduler *)

Module SchedulerMore.
Import Scheduler SchedulerFacts.
Local Close Scope string_scope.
Local Open Scope nat_scope.

Section Order.

Variable Vec : Type.
Variable embedding : string -> Vec.

(** X18. The scheduler always answers: with an empty pool it raises
    IndexError whatever the chunks, and with a pool of at least one
    worker it returns, for every completion order, a rearrangement of
    the embeddings of the chunks, with one vector per chunk. *)
Theorem scheduler_always_answers (workers : nat) (order : list nat)
    (chunks : list string) :
  (workers = 0
   /\ distribute_embeddings Vec embedding workers order chunks
      = Some (Raises (MkExn "IndexError" "list index out of range")))
  \/ (1 <= workers
      /\ exists vs,
           distribute_embeddings Vec embedding workers order chunks
           = Some (Returns vs)
           /\ Permutation vs (List.map embedding chunks)
           /\ length vs = length chunks).
Proof.
  destruct workers as [|w].
  - left. split; [reflexivity|]. unfold distribute_embeddings.
    now rewrite orb_true_r.
  - right. split; [lia|].
    apply distribute_embeddings_rearranges. lia.
Qed.

(** When no batch waits for a worker and the first outstanding task is
    always the one reported done, the loop hands the batches back in
    their order. *)
Lemma loop_in_dispatch_order (batches : list (list string)) (workers : nat) :
  length batches <= workers ->
  forall n j order res fuel,
    j + n = length batches -> Forall (fun ready => ready = 0) order ->
    n <= fuel ->
    loop Vec embedding fuel batches order
         {| actor_tasks := List.map (fun i => (i, i)) (seq j n);
            results := res; next_batch_idx := workers |}
    = Some (res ++ unsubmitted Vec embedding batches j).
Proof.
  intros Hfit. induction n as [|n IH]; intros j order res fuel Hj Hord Hfuel.
  - rewrite unsubmitted_done by lia. rewrite app_nil_r.
    destruct fuel; reflexivity.
  - destruct fuel as [|fuel]; [lia|].
    assert (Hhd : hd 0 order = 0) by (destruct Hord; auto).
    assert (Htl : Forall (fun ready => ready = 0) (tl order))
      by (destruct Hord; auto).
    cbn [loop seq List.map actor_tasks]. rewrite Hhd.
    unfold step. cbn [actor_tasks next_batch_idx results].
    rewrite Nat.Div0.mod_0_l. cbn [nth_error].
    destruct (Nat.ltb_spec workers (length batches)) as [Hlt|_]; [lia|].
    unfold remove_actor. cbn [List.filter]. rewrite Nat.eqb_refl.
    cbn [negb]. fold (remove_actor j (List.map (fun i => (i, i)) (seq (S j) n))).
    rewrite remove_actor_absent.
    + rewrite (IH (S j)) by (auto; lia).
      rewrite (unsubmitted_next Vec embedding batches j) by lia.
      now rewrite app_assoc.
    + rewrite List.map_map, List.map_id. rewrite in_seq. lia.
Qed.

Lemma batches_fit (total workers : nat) :
  1 <= workers -> total mod workers = 0 \/ total < workers ->
  batch_count total (batch_size total workers) <= workers.
Proof.
  intros Hw [Hmod|Hlt].
  - destruct total as [|t].
    + unfold batch_count, batch_size. rewrite Nat.Div0.div_0_l.
      simpl. lia.
    + rewrite batch_count_divides by (auto; lia). lia.
  - rewrite batch_count_few_chunks by exact Hlt. lia.
Qed.

(** X19. The input order is kept when the pool size divides the number
    of chunks, or exceeds it, and the tasks are reported done in the
    order they were handed out: output number i is then the embedding
    of chunk number i. *)
Theorem dispatch_order_keeps_input_order (workers : nat) (order : list nat)
    (chunks : list string) :
  1 <= workers ->
  length chunks mod workers = 0 \/ length chunks < workers ->
  Forall (fun ready => ready = 0) order ->
  distribute_embeddings Vec embedding workers order chunks
  = Some (Returns (List.map embedding chunks)).
Proof.
  intros Hw Hfit Hord. unfold distribute_embeddings.
  destruct (Nat.leb (length chunks) 1 || Nat.leb workers 1).
  - destruct workers; [lia|reflexivity].
  - pose proof (batches_fit (length chunks) workers Hw Hfit) as Hk.
    rewrite <- length_make_batches in Hk.
    rewrite initial_tasks_eq, Nat.min_r by exact Hk.
    rewrite (loop_in_dispatch_order _ workers Hk _ 0 order [])
      by (auto; lia).
    unfold unsubmitted. rewrite drop_0. simpl.
    change (List.map (embed_chunks Vec embedding))
      with (List.map (List.map embedding)).
    now rewrite <- List.concat_map, concat_make_batches.
Qed.

End Order.

Lemma dispatch_order_keeps_input_order_witness :
  distribute_embeddings string id 2 [0; 0] ["a"; "b"; "c"; "d"]%string
  = Some (Returns (List.map id ["a"; "b"; "c"; "d"]%string)).
Proof.
  apply (dispatch_order_keeps_input_order string id 2 [0; 0]
           ["a"; "b"; "c"; "d"]%string).
  - lia.
  - left. reflexivity.
  - repeat constructor.
Defined.

End SchedulerMore.

(** ** Storing chunks *)

Module StoreFacts.
Import Scheduler WeaviateManager.

Section Store.

Variable Vec : Type.

(** What the dictionary holds under a key after the metadata was copied
    into it: the metadata's value when it has one, the old one
    otherwise. *)
Lemma override_lookup (metadata : list (string * Value))
    (props : gmap string Value) (key : string) :
  override metadata props !! key
  = match lookup_item key metadata with
    | Some value => Some value
    | None => props !! key
    end.
Proof.
  unfold lookup_item. revert props.
  induction metadata as [|[k v] rest IH]; intros props.
  - reflexivity.
  - unfold override in *. cbn [fold_left fst snd].
    rewrite (IH (<[k := v]> props)), (IH (<[k := v]> ∅)).
    destruct (fold_left _ rest ∅ !! key); [reflexivity|].
    destruct (decide (k = key)) as [->|Hne].
    + now rewrite !lookup_insert_eq.
    + now rewrite !lookup_insert_ne, lookup_empty by exact Hne.
Qed.

Lemma lookup_item_app (key : string) (d : list (string * Value))
    (k : string) (v : Value) :
  lookup_item key (d ++ [(k, v)])%list
  = if decide (k = key) then Some v else lookup_item key d.
Proof.
  unfold lookup_item, override. rewrite fold_left_app. cbn [fold_left fst snd].
  destruct (decide (k = key)) as [->|Hne].
  - apply lookup_insert_eq.
  - now rewrite lookup_insert_ne by exact Hne.
Qed.

Lemma objects_from_length (now : Z) (metadata : list (string * Value))
    (chunks : list string) (embeddings : list Vec) (k : nat) :
  length chunks = length embeddings ->
  length (objects_from Vec now metadata k chunks embeddings) = length chunks.
Proof.
  revert embeddings k. induction chunks as [|c chunks IH];
    intros [|e embeddings] k Hlen; try discriminate; simpl in *.
  - reflexivity.
  - f_equal. apply IH. congruence.
Qed.

Lemma objects_from_nth (now : Z) (metadata : list (string * Value))
    (chunks : list string) (embeddings : list Vec) (k i : nat) (c : string)
    (e : Vec) :
  nth_error chunks i = Some c -> nth_error embeddings i = Some e ->
  nth_error (objects_from Vec now metadata k chunks embeddings) i
  = Some (chunk_object Vec now metadata (k + i) c e).
Proof.
  revert embeddings k i.
  induction chunks as [|c0 chunks IH]; intros [|e0 embeddings] k [|i] Hc He;
    try discriminate; simpl in *.
  - injection Hc as ->. injection He as ->. now rewrite Nat.add_0_r.
  - rewrite (IH embeddings (S k) i Hc He). now rewrite Nat.add_succ_r.
Qed.

(** The properties a chunk gets when the metadata says nothing. *)
Definition own_properties (now : Z) (i : nat) (c : string)
  : gmap string Value :=
  {[ "text" := VText c;
     "full_path" := VText EmptyString;
     "chunk_index" := VNumber (Z.of_nat i);
     "total_chunks" := VNumber 0;
     "ts" := VDate now ]}.

(** X20. [store_chunks] refuses lists of different lengths with ValueError
    before anything is stored, and passes on a failure of the batch.
    Otherwise it hands over one object per chunk, in order: object i
    carries vector i, and under every key the value the metadata gives
    when it has the key, else the text of chunk i, its index i, the
    time stamp, an empty path and a total of 0.  A metadata key named
    text or chunk_index thus replaces the chunk's own value. *)
Theorem store_chunks_pairs (now : Z) (chunks : list string)
    (embeddings : list Vec) (metadata : list (string * Value))
    (batch : Outcome unit) :
  (length chunks <> length embeddings ->
   exists e, store_chunks Vec now chunks embeddings metadata batch = Raises e
             /\ exn_class e = "ValueError")
  /\ (length chunks = length embeddings ->
      (forall e, batch = Raises e ->
         store_chunks Vec now chunks embeddings metadata batch = Raises e)
      /\ (forall u, batch = Returns u ->
          exists objs,
            store_chunks Vec now chunks embeddings metadata batch
            = Returns objs
            /\ length objs = length chunks
            /\ forall i c v,
                 nth_error chunks i = Some c ->
                 nth_error embeddings i = Some v ->
                 exists o,
                   nth_error objs i = Some o
                   /\ vector Vec o = v
                   /\ forall key,
                        properties Vec o !! key
                        = match lookup_item key metadata with
                          | Some value => Some value
                          | None => own_properties now i c !! key
                          end)).
Proof.
  unfold store_chunks. split.
  - intros Hne. apply Nat.eqb_neq in Hne. rewrite Hne. simpl.
    eexists. split; reflexivity.
  - intros Hlen.
    destruct (Nat.eqb_spec (length chunks) (length embeddings)) as [_|Hne];
      [|contradiction].
    simpl. split.
    + now intros e ->.
    + intros u ->. eexists. split; [reflexivity|].
      split; [now apply objects_from_length|].
      intros i c v Hc Hv. eexists.
      split; [apply (objects_from_nth now metadata chunks embeddings 0 i c v Hc Hv)|].
      split; [reflexivity|].
      intros key. cbn [properties chunk_object Nat.add].
      rewrite override_lookup.
      destruct (lookup_item key metadata) as [value|] eqn:Hkey;
        [reflexivity|].
      unfold own_properties. rewrite !lookup_item_app.
      repeat case_decide; try discriminate; try congruence.
      destruct (decide (key = "ts")) as [->|Hts];
        [now simplify_map_eq|].
      destruct (decide (key = "total_chunks")) as [->|Htc];
        [rewrite Hkey; now simplify_map_eq|].
      destruct (decide (key = "chunk_index")) as [->|Hci];
        [now simplify_map_eq|].
      destruct (decide (key = "full_path")) as [->|Hfp];
        [rewrite Hkey; now simplify_map_eq|].
      destruct (decide (key = "text")) as [->|Htx];
        now simplify_map_eq.
Qed.

Lemma lookup_item_cons (key k : string) (v : Value)
    (d : list (string * Value)) :
  lookup_item key ((k, v) :: d)
  = match lookup_item key d with
    | Some value => Some value
    | None => if decide (k = key) then Some v else None
    end.
Proof.
  unfold lookup_item at 1. change (override ((k, v) :: d) ∅)
    with (override d (<[k := v]> ∅)).
  rewrite override_lookup. destruct (lookup_item key d); [reflexivity|].
  destruct (decide (k = key)) as [->|Hne].
  - apply lookup_insert_eq.
  - now rewrite lookup_insert_ne, lookup_empty by exact Hne.
Qed.

Lemma lookup_item_nil (key : string) : lookup_item key [] = None.
Proof. apply lookup_empty. Qed.

Variable embedding : string -> Vec.

(** X21. What reaches the vector store for a file: for a pool of at
    least one worker and every completion order, the vectors the
    scheduler returns pass the length check of [store_chunks]; one
    object per chunk is stored; object i holds the text of chunk i, the
    path, the index i, the number of chunks, the chunk size and the time
    stamp, and its vector is the embedding of one of the chunks. *)
Theorem embedded_chunks_are_stored (workers : nat) (order : list nat)
    (chunks : list string) (abs_path : string) (chunk_size now : Z) :
  (1 <= workers)%nat ->
  exists vs objs,
    distribute_embeddings Vec embedding workers order chunks
    = Some (Returns vs)
    /\ store_chunks Vec now chunks vs
         (ingest_metadata abs_path chunk_size chunks) (Returns tt)
       = Returns objs
    /\ length objs = length chunks
    /\ forall i c,
         nth_error chunks i = Some c ->
         exists o,
           nth_error objs i = Some o
           /\ properties Vec o
              = {[ "text" := VText c;
                   "full_path" := VText abs_path;
                   "chunk_index" := VNumber (Z.of_nat i);
                   "total_chunks" := VNumber (Z.of_nat (length chunks));
                   "chunk_size" := VNumber chunk_size;
                   "ts" := VDate now ]}
           /\ exists c', In c' chunks /\ vector Vec o = embedding c'.
Proof.
  intros Hw.
  destruct (SchedulerFacts.distribute_embeddings_rearranges Vec embedding
              workers order chunks Hw) as (vs & Hvs & Hperm & Hlen).
  exists vs. eexists. split; [exact Hvs|]. unfold store_chunks.
  destruct (Nat.eqb_spec (length chunks) (length vs)) as [_|Hne];
    [|congruence].
  simpl. split; [reflexivity|].
  split; [apply objects_from_length; congruence|].
  intros i c Hc.
  destruct (nth_error vs i) as [v|] eqn:Hv.
  2:{ apply nth_error_None in Hv.
      assert (i < length chunks)%nat
        by (apply nth_error_Some; congruence). lia. }
  eexists.
  split; [apply (objects_from_nth now _ chunks vs 0 i c v Hc Hv)|].
  split.
  - cbn [properties chunk_object Nat.add]. apply map_eq. intros key.
    rewrite override_lookup. unfold ingest_metadata.
    rewrite !lookup_item_app, !lookup_item_cons, !lookup_item_nil.
    destruct (decide (key = "text")) as [->|?];
      [|destruct (decide (key = "full_path")) as [->|?];
        [|destruct (decide (key = "chunk_index")) as [->|?];
          [|destruct (decide (key = "total_chunks")) as [->|?];
            [|destruct (decide (key = "chunk_size")) as [->|?];
              [|destruct (decide (key = "ts")) as [->|?]]]]]];
      repeat case_decide; try discriminate; try congruence;
      simplify_map_eq; reflexivity.
  - cbn [vector chunk_object].
    assert (Hin : In v (List.map embedding chunks)).
    { apply (Permutation_in _ Hperm). eapply nth_error_In, Hv. }
    apply in_map_iff in Hin as (c' & <- & Hin). now exists c'.
Qed.

End Store.

Lemma embedded_chunks_are_stored_witness :
  exists vs objs,
    distribute_embeddings string id 2 [1%nat] ["a"; "b"]
    = Some (Returns vs)
    /\ store_chunks string 7 ["a"; "b"] vs
         (ingest_metadata "/data/a.pdf" 1024 ["a"; "b"]) (Returns tt)
       = Returns objs
    /\ length objs = length ["a"; "b"]
    /\ forall i c,
         nth_error ["a"; "b"] i = Some c ->
         exists o,
           nth_error objs i = Some o
           /\ properties string o
              = {[ "text" := VText c;
                   "full_path" := VText "/data/a.pdf";
                   "chunk_index" := VNumber (Z.of_nat i);
                   "total_chunks" := VNumber (Z.of_nat (length ["a"; "b"]));
                   "chunk_size" := VNumber 1024;
                   "ts" := VDate 7 ]}
           /\ exists c', In c' ["a"; "b"] /\ vector string o = id c'.
Proof.
  apply (embedded_chunks_are_stored string id 2 [1%nat] ["a"; "b"]
           "/data/a.pdf" 1024 7).
  lia.
Defined.

End StoreFacts.

(** ** More on the per-file orchestrator *)

Module IngestionMore.
Import DatabaseManager IngestionManager IngestionFacts.

(** The second database stores the same runs with the same collections. *)
Definition same_collections (db db' : Db) : Prop :=
  forall k, (collection <$> runs db' !! k) = (collection <$> runs db !! k).

Lemma same_collections_refl (db : Db) : same_collections db db.
Proof. intros k. reflexivity. Qed.

Lemma same_collections_trans (db1 db2 db3 : Db) :
  same_collections db1 db2 -> same_collections db2 db3 ->
  same_collections db1 db3.
Proof. intros H12 H23 k. now rewrite H23, H12. Qed.

Lemma same_collections_update (rid : string) (u : RunUpdate) (db db0 : Db) :
  u_run_record u = None -> runs db = runs db0 ->
  same_collections db0 (update_run rid u db).
Proof.
  intros Hu Hruns k. unfold update_run. simpl. rewrite Hruns.
  destruct (decide (rid = k)) as [->|Hne].
  - rewrite lookup_alter_eq. destruct (runs db0 !! k) as [row|]; simpl;
      [|reflexivity].
    now rewrite Hu.
  - now rewrite lookup_alter_ne.
Qed.

(** The counters after a call that returned [s]. *)
Definition counted (s : IngestionStatus) (rm : RunManager.RunManager)
  : RunManager.RunManager :=
  match s with
  | success =>
      RunManager.set_counters (RunManager.processed_files rm + 1)
        (RunManager.failed_files rm) (RunManager.skipped_files rm)
        (RunManager.already_processed_files rm) rm
  | error =>
      RunManager.set_counters (RunManager.processed_files rm)
        (RunManager.failed_files rm + 1) (RunManager.skipped_files rm)
        (RunManager.already_processed_files rm) rm
  | skipped =>
      RunManager.set_counters (RunManager.processed_files rm)
        (RunManager.failed_files rm) (RunManager.skipped_files rm + 1)
        (RunManager.already_processed_files rm) rm
  | already_processed =>
      RunManager.set_counters (RunManager.processed_files rm)
        (RunManager.failed_files rm) (RunManager.skipped_files rm + 1)
        (RunManager.already_processed_files rm + 1) rm
  end.

(** Everything a returning call of [ingest_file] does to the state. *)
Lemma ingest_file_effect (env : FileEnv) (path : string)
    (cfg : Config.AppConfig) (rm : RunManager.RunManager) (db : Db)
    (s : IngestionStatus) (im' : IngestionManager) :
  ingest_file env path
    {| config := cfg; run_manager := Some rm; db_manager := db |}
  = (Returns s, im') ->
  exists fp db',
    env_fingerprint env = Returns fp
    /\ im' = {| config := cfg; run_manager := Some (counted s rm);
                db_manager := db' |}
    /\ opt_truthy (RunManager.run_id rm) = true
    /\ same_collections db db'
    /\ match s with
       | already_processed =>
           ingestion_log db' = ingestion_log db
           /\ str_truthy fp = true
           /\ fst (file_needs_processing (Some fp) (Config.collection cfg) db)
              = false
       | _ =>
           exists row,
             ingestion_log db' = (ingestion_log db ++ [row])%list
             /\ log_status row = s
             /\ file_fingerprint row = Some fp
             /\ DatabaseManager.run_id row = RunManager.run_id rm
             /\ (str_truthy fp = true ->
                 fst (file_needs_processing (Some fp) (Config.collection cfg)
                                            db) = true)
       end.
Proof.
  destruct rm as [rid ? ? ? ? ? ? ? ? ? ? ? ? ?].
  destruct env as [now fp del an ex ch co em sto].
  unfold ingest_file, process_accepted, attach_diagnostics, try_except,
    bind, lift, ret, log, modify, get_state, read_run_id, on_run_manager,
    RunManager.increment_already_processed, RunManager.increment_failed,
    RunManager.increment_skipped, RunManager.increment_processed.
  cbn -[file_needs_processing PDFProcessor.is_pdf_acceptable Z.add
        extraction_error_msg String.append has_key update_run log_ingestion].
  destruct fp as [fp|e]; [|discriminate].
  destruct (str_truthy fp) eqn:Hfp;
  destruct (fst (file_needs_processing (Some fp) (Config.collection cfg) db))
    eqn:Hneed;
  destruct (opt_truthy rid) eqn:Hrid;
    cbn -[file_needs_processing PDFProcessor.is_pdf_acceptable Z.add
          extraction_error_msg String.append has_key update_run log_ingestion];
    repeat (first [rewrite Hrid | branch];
            cbn -[file_needs_processing PDFProcessor.is_pdf_acceptable Z.add
                  extraction_error_msg String.append has_key update_run
                  log_ingestion]);
    intros Heq; try discriminate; inversion Heq; subst; clear Heq;
    eexists _, _; (split; [reflexivity|]); (split; [reflexivity|]);
    (split; [reflexivity|]);
    (split; [apply same_collections_update; reflexivity|]);
    cbn; try (repeat split; assumption || reflexivity);
    eexists; (split; [reflexivity|]); repeat split; congruence.
Qed.

(** X22. Every file is counted once: a returning call of [ingest_file]
    adds one to the processed counter when it returns success, to the
    failed counter when it returns error and to the skipped counter when
    it returns skipped or already_processed (then also to the
    already-processed counter); the other counters, the run, its status
    and the configuration are untouched, and no run is added, dropped
    or moved to another collection. *)
Theorem ingest_file_counts_its_outcome (env : FileEnv) (path : string)
    (im im' : IngestionManager) (rm : RunManager.RunManager)
    (s : IngestionStatus) :
  run_manager im = Some rm ->
  ingest_file env path im = (Returns s, im') ->
  config im' = config im
  /\ same_collections (db_manager im) (db_manager im')
  /\ exists rm',
       run_manager im' = Some rm'
       /\ RunManager.run_id rm' = RunManager.run_id rm
       /\ RunManager.status rm' = RunManager.status rm
       /\ RunManager.total_files rm' = RunManager.total_files rm
       /\ RunFacts.counters rm'
          = match s with
            | success =>
                (RunManager.processed_files rm + 1,
                 RunManager.failed_files rm, RunManager.skipped_files rm,
                 RunManager.already_processed_files rm)
            | error =>
                (RunManager.processed_files rm,
                 RunManager.failed_files rm + 1, RunManager.skipped_files rm,
                 RunManager.already_processed_files rm)
            | skipped =>
                (RunManager.processed_files rm, RunManager.failed_files rm,
                 RunManager.skipped_files rm + 1,
                 RunManager.already_processed_files rm)
            | already_processed =>
                (RunManager.processed_files rm, RunManager.failed_files rm,
                 RunManager.skipped_files rm + 1,
                 RunManager.already_processed_files rm + 1)
            end.
Proof.
  destruct im as [cfg orm db]. simpl. intros -> Hcall.
  destruct (ingest_file_effect env path cfg rm db s im' Hcall)
    as (fp & db' & _ & -> & _ & Hsame & _).
  simpl. split; [reflexivity|]. split; [exact Hsame|].
  exists (counted s rm). destruct s; repeat split.
Qed.

Lemma ingest_file_counts_its_outcome_witness :
  config (snd (ingest_file readable "/data/a.pdf" first_started))
  = config first_started
  /\ same_collections (db_manager first_started)
       (db_manager (snd (ingest_file readable "/data/a.pdf" first_started)))
  /\ exists rm',
       run_manager (snd (ingest_file readable "/data/a.pdf" first_started))
       = Some rm'
       /\ RunManager.run_id rm' = Some "run-0"
       /\ RunManager.status rm' = running
       /\ RunManager.total_files rm' = 1
       /\ RunFacts.counters rm' = (1, 0, 0, 0).
Proof.
  apply (ingest_file_counts_its_outcome readable "/data/a.pdf" first_started
           (snd (ingest_file readable "/data/a.pdf" first_started))
           (RunManager.set_counters 0 0 0 0
              (default RunManager.init (run_manager first_started)))
           success).
  - vm_compute. reflexivity.
  - vm_compute. reflexivity.
Defined.

(** X23. With a run in progress a call of [ingest_file] that raises has
    written nothing: the exception left before the first row was logged
    and before any counter moved, and the manager is as it was. *)
Theorem raising_call_changes_nothing (env : FileEnv) (path : string)
    (im im' : IngestionManager) (rm : RunManager.RunManager) (e : Exn) :
  run_manager im = Some rm ->
  opt_truthy (RunManager.run_id rm) = true ->
  ingest_file env path im = (Raises e, im') ->
  im' = im
  /\ (env_fingerprint env = Raises e \/ env_delete env = Raises e
      \/ exists a, env_analysis env = Returns a
                   /\ has_key "metadata" (PdfModels.metadata a) = true).
Proof.
  destruct im as [cfg orm db]. simpl. intros -> Hrid.
  destruct rm as [rid ? ? ? ? ? ? ? ? ? ? ? ? ?].
  destruct env as [now fp del an ex ch co em sto].
  unfold ingest_file, process_accepted, attach_diagnostics, try_except,
    bind, lift, ret, log, modify, get_state, read_run_id, on_run_manager,
    RunManager.increment_already_processed, RunManager.increment_failed,
    RunManager.increment_skipped, RunManager.increment_processed.
  simpl in Hrid.
  cbn -[file_needs_processing PDFProcessor.is_pdf_acceptable Z.add
        extraction_error_msg String.append has_key update_run log_ingestion].
  destruct fp as [fp|e0].
  2:{ intros Heq. inversion Heq; subst. split; [reflexivity|]. now left. }
  cbn -[file_needs_processing PDFProcessor.is_pdf_acceptable Z.add
        extraction_error_msg String.append has_key update_run log_ingestion].
  rewrite ?Hrid.
  repeat (first [rewrite Hrid
                | match goal with
                  | |- context [has_key ?k ?d] =>
                      destruct (has_key k d) eqn:?
                  end
                | branch];
          cbn -[file_needs_processing PDFProcessor.is_pdf_acceptable Z.add
                extraction_error_msg String.append has_key update_run
                log_ingestion]);
    intros Heq; try discriminate; inversion Heq; subst; clear Heq;
    (split; [reflexivity|]);
    first [right; left; reflexivity
          | right; right; eexists; split; [reflexivity|]; assumption].
Qed.

Lemma raising_call_changes_nothing_witness :
  snd (ingest_file CliFacts.vanished "/data/a.pdf" first_started)
  = first_started
  /\ (env_fingerprint CliFacts.vanished
      = Raises (MkExn "FileNotFoundError" "No such file or directory")
      \/ env_delete CliFacts.vanished
         = Raises (MkExn "FileNotFoundError" "No such file or directory")
      \/ exists a, env_analysis CliFacts.vanished = Returns a
                   /\ has_key "metadata" (PdfModels.metadata a) = true).
Proof.
  apply (raising_call_changes_nothing CliFacts.vanished "/data/a.pdf"
           first_started
           (snd (ingest_file CliFacts.vanished "/data/a.pdf" first_started))
           (RunManager.set_counters 0 0 0 0
              (default RunManager.init (run_manager first_started)))
           (MkExn "FileNotFoundError" "No such file or directory")).
  - vm_compute. reflexivity.
  - vm_compute. reflexivity.
  - vm_compute. reflexivity.
Defined.

Lemma fingerprint_match_same (db db' : Db) (fp c : option string)
    (il : LogRow) :
  same_collections db db' ->
  fingerprint_match db' fp c il = fingerprint_match db fp c il.
Proof.
  intros Hsame. unfold fingerprint_match. f_equal.
  destruct (DatabaseManager.run_id il) as [rid|]; [|reflexivity].
  specialize (Hsame rid).
  destruct (runs db' !! rid), (runs db !! rid); simpl in Hsame;
    try discriminate; [|reflexivity].
  injection Hsame as Hsame. now rewrite Hsame.
Qed.

(** X24. An attempt is made once per collection: after a returning call
    of [ingest_file] for a file of fingerprint fp, under a run stored
    with the configured collection, the next call for a file of the
    same fingerprint returns already_processed and logs nothing,
    whatever the first call returned, an error included. *)
Theorem attempted_file_is_not_retried (env env' : FileEnv)
    (path path' : string) (im im' : IngestionManager)
    (rm : RunManager.RunManager) (rid fp c : string) (row : RunRow)
    (s : IngestionStatus) :
  run_manager im = Some rm -> RunManager.run_id rm = Some rid ->
  runs (db_manager im) !! rid = Some row ->
  collection row = Some c -> Config.collection (config im) = Some c ->
  env_fingerprint env = Returns fp -> env_fingerprint env' = Returns fp ->
  str_truthy fp = true ->
  ingest_file env path im = (Returns s, im') ->
  exists im'',
    ingest_file env' path' im' = (Returns already_processed, im'')
    /\ log_of im'' = log_of im'.
Proof.
  destruct im as [cfg orm db]. simpl.
  intros -> Hrid Hrow Hcoll Hcfg Hfp Hfp' Htruthy Hcall.
  destruct (ingest_file_effect env path cfg rm db s im' Hcall)
    as (fp0 & db' & Hfp0 & -> & Hrun & Hsame & Hlog).
  assert (fp0 = fp) as -> by congruence.
  assert (Hrow' : exists row', runs db' !! rid = Some row'
                               /\ collection row' = Some c).
  { specialize (Hsame rid). rewrite Hrow in Hsame.
    destruct (runs db' !! rid) as [row'|]; [|discriminate].
    exists row'. split; [reflexivity|]. simpl in Hsame. congruence. }
  destruct Hrow' as (row' & Hrow' & Hcoll').
  assert (Hknown : fst (file_needs_processing (Some fp) (Some c) db') = false).
  { destruct s.
    4:{ destruct Hlog as (Hlog & _ & Hneed). rewrite Hcfg in Hneed.
        unfold file_needs_processing, get_ingestion_by_fingerprint in *.
        rewrite Hlog.
        rewrite (List.filter_ext _ (fingerprint_match db (Some fp) (Some c)))
          by (intros il; now apply fingerprint_match_same).
        exact Hneed. }
    all: destruct Hlog as (new & Hlog & _ & Hnewfp & Hnewrun & _);
      assert (Hin : In new (ingestion_log db'))
        by (rewrite Hlog; apply in_app_iff; right; now left);
      assert (Hmatch : LedgerFacts.run_collection_is db' c new)
        by (exists rid, row'; repeat split; congruence);
      destruct (LedgerFacts.lookup_finds_latest db' fp c new Hin Hnewfp
                  Hmatch) as (prev & Hget & _);
      unfold file_needs_processing; now rewrite Hget. }
  assert (Hrid' : RunManager.run_id (counted s rm) = Some rid)
    by (destruct s; exact Hrid).
  assert (Hrun' : opt_truthy (RunManager.run_id (counted s rm)) = true)
    by (rewrite Hrid', <- Hrid; exact Hrun).
  unfold ingest_file, bind, lift, ret, get_state, read_run_id,
    on_run_manager, RunManager.increment_already_processed.
  cbn -[file_needs_processing update_run counted]. rewrite Hfp'.
  cbn -[file_needs_processing update_run counted].
  rewrite Hcfg, Htruthy, Hknown. cbn -[update_run counted].
  rewrite Hrun'. cbn -[update_run counted].
  eexists. split; reflexivity.
Qed.

Lemma attempted_file_is_not_retried_witness :
  exists im'',
    ingest_file readable "/data/copy-of-a.pdf"
      (snd (ingest_file readable "/data/a.pdf" first_started))
    = (Returns already_processed, im'')
    /\ log_of im''
       = log_of (snd (ingest_file readable "/data/a.pdf" first_started)).
Proof.
  apply (attempted_file_is_not_retried readable readable "/data/a.pdf"
           "/data/copy-of-a.pdf" first_started
           (snd (ingest_file readable "/data/a.pdf" first_started))
           (RunManager.set_counters 0 0 0 0
              (default RunManager.init (run_manager first_started)))
           "run-0" "f1" "TestDocs"
           (default LedgerFacts.docs_run
              (runs (db_manager first_started) !! "run-0"))
           success).
  all: vm_compute; reflexivity.
Defined.

End IngestionMore.

(** ** More on the [ingest] command *)

Module CliMore.
Import DatabaseManager IngestionManager Cli IngestionFacts IngestionMore.

(** [path in pdf_files] *)
Definition listed (env : RunEnv) (path : string) : bool :=
  existsb (String.eqb path) (List.map fst (pdf_files env)).

Lemma reconcile_effect (env : RunEnv) (coll : option string) :
  (forall p, stale_delete env p = Returns tt) ->
  forall records im,
    exists db',
      reconcile env coll records im
      = (Returns tt, {| config := config im; run_manager := run_manager im;
                        db_manager := db' |})
      /\ runs db' = runs (db_manager im)
      /\ forall row,
           In row (ingestion_log db')
           <-> In row (ingestion_log (db_manager im))
               /\ ~ (sql_eq (log_collection row) coll = true
                     /\ exists r, In r records
                                  /\ listed env (file_path r) = false
                                  /\ file_path r = file_path row).
Proof.
  intros Hdel. induction records as [|record rest IH]; intros im.
  - exists (db_manager im). destruct im. split; [reflexivity|].
    split; [reflexivity|]. intros row. simpl. split.
    + intros Hin. split; [exact Hin|]. now intros (_ & r & [] & _).
    + now intros [Hin _].
  - cbn [reconcile]. fold (listed env (file_path record)).
    destruct (listed env (file_path record)) eqn:Hlisted.
    + destruct (IH im) as (db' & Hrec & Hruns & Hlog).
      exists db'. split; [exact Hrec|]. split; [exact Hruns|].
      intros row. rewrite Hlog. split; intros [Hin Hnot]; (split; [exact Hin|]);
        intros (Hc & r & Hr & Hstale & Hpath); apply Hnot;
        (split; [exact Hc|]); exists r.
      * destruct Hr as [<-|Hr]; [congruence|]. auto.
      * split; [now right|]. auto.
    + unfold bind, lift, modify. rewrite Hdel.
      destruct (IH {| config := config im; run_manager := run_manager im;
                      db_manager := delete_record coll (file_path record)
                                                  (db_manager im) |})
        as (db' & Hrec & Hruns & Hlog).
      exists db'. split; [exact Hrec|]. split; [exact Hruns|].
      intros row. rewrite Hlog. cbn [db_manager delete_record ingestion_log].
      rewrite filter_In, negb_true_iff, <- not_true_iff_false, andb_true_iff,
        String.eqb_eq.
      split.
      * intros [[Hin Hkeep] Hnot]. split; [exact Hin|].
        intros (Hc & r & [<-|Hr] & Hstale & Hpath).
        -- apply Hkeep. auto.
        -- apply Hnot. split; [exact Hc|]. now exists r.
      * intros [Hin Hnot]. split; [split; [exact Hin|]|].
        -- intros [Hc Hpath]. apply Hnot. split; [exact Hc|].
           exists record. split; [now left|]. auto.
        -- intros (Hc & r & Hr & Hstale & Hpath). apply Hnot.
           split; [exact Hc|]. exists r. split; [now right|]. auto.
Qed.

(** X25. The reconciliation at the start of a command, when the vector
    store deletions go through, removes from the log exactly the records
    of the collection whose path is not among the files of this
    invocation: afterwards every record of the collection is a file
    being ingested, the records of other collections are all there, and
    the runs, the run manager and the configuration are untouched. *)
Theorem reconcile_removes_stale_records (env : RunEnv)
    (im : IngestionManager) (c : string) :
  (forall p, stale_delete env p = Returns tt) ->
  exists im',
    reconcile env (Some c) (get_all_records (Some c) (db_manager im)) im
    = (Returns tt, im')
    /\ config im' = config im
    /\ run_manager im' = run_manager im
    /\ runs (db_manager im') = runs (db_manager im)
    /\ forall row,
         In row (log_of im')
         <-> In row (log_of im)
             /\ ~ (log_collection row = Some c
                   /\ listed env (file_path row) = false).
Proof.
  intros Hdel.
  destruct (reconcile_effect env (Some c) Hdel
              (get_all_records (Some c) (db_manager im)) im)
    as (db' & Hrec & Hruns & Hlog).
  eexists. split; [exact Hrec|]. split; [reflexivity|].
  split; [reflexivity|]. split; [exact Hruns|].
  intros row. unfold log_of. cbn [db_manager]. rewrite Hlog.
  rewrite LedgerFacts.sql_eq_iff.
  split; intros [Hin Hnot]; (split; [exact Hin|]).
  - intros [Hc Hstale]. apply Hnot. split; [exact Hc|]. exists row.
    split; [|auto]. unfold get_all_records. apply filter_In.
    split; [exact Hin|]. now apply LedgerFacts.sql_eq_iff.
  - intros (Hc & r & _ & Hstale & Hpath). apply Hnot. split; [exact Hc|].
    now rewrite <- Hpath.
Qed.

Lemma reconcile_removes_stale_records_witness :
  exists im',
    reconcile CliFacts.aborted_run (Some "Docs")
      (get_all_records (Some "Docs")
         (db_manager {| config := config CliFacts.fresh_manager;
                        run_manager := None;
                        db_manager := LedgerFacts.failed_before |}))
      {| config := config CliFacts.fresh_manager; run_manager := None;
         db_manager := LedgerFacts.failed_before |}
    = (Returns tt, im')
    /\ config im' = config CliFacts.fresh_manager
    /\ run_manager im' = None
    /\ runs (db_manager im') = runs LedgerFacts.failed_before
    /\ forall row,
         In row (log_of im')
         <-> In row (ingestion_log LedgerFacts.failed_before)
             /\ ~ (log_collection row = Some "Docs"
                   /\ listed CliFacts.aborted_run (file_path row) = false).
Proof.
  apply (reconcile_removes_stale_records CliFacts.aborted_run
           {| config := config CliFacts.fresh_manager; run_manager := None;
              db_manager := LedgerFacts.failed_before |} "Docs").
  intros p. reflexivity.
Defined.

End CliMore.

(** ** The per-file loop of the command *)

Module LoopFacts.
Import DatabaseManager IngestionManager Cli IngestionFacts IngestionMore.

(** How many of the files got outcome [s]. *)
Definition tally (s : IngestionStatus) (statuses : list IngestionStatus) : Z :=
  Z.of_nat (count_occ IngestionStatus_eq_dec statuses s).

(** X26. The counters of the run are the tallies of the per-file
    outcomes: when the loop over the files returns, it has one outcome
    per file; the processed, failed and already-processed counters grew
    by the number of files that returned success, error and
    already_processed, the skipped counter by the number that returned
    skipped or already_processed; and the log grew by one row for every
    file that did not return already_processed. *)
Theorem process_files_tallies (files : list (string * FileEnv))
    (im im' : IngestionManager) (rm : RunManager.RunManager)
    (statuses : list IngestionStatus) :
  run_manager im = Some rm ->
  process_files files im = (Returns statuses, im') ->
  length statuses = length files
  /\ config im' = config im
  /\ same_collections (db_manager im) (db_manager im')
  /\ Z.of_nat (length (log_of im')) + tally already_processed statuses
     = Z.of_nat (length (log_of im)) + Z.of_nat (length files)
  /\ exists rm',
       run_manager im' = Some rm'
       /\ RunManager.run_id rm' = RunManager.run_id rm
       /\ RunManager.processed_files rm'
          = RunManager.processed_files rm + tally success statuses
       /\ RunManager.failed_files rm'
          = RunManager.failed_files rm + tally error statuses
       /\ RunManager.skipped_files rm'
          = RunManager.skipped_files rm + tally skipped statuses
            + tally already_processed statuses
       /\ RunManager.already_processed_files rm'
          = RunManager.already_processed_files rm
            + tally already_processed statuses.
Proof.
  revert im im' rm statuses.
  induction files as [|[path fenv] rest IH]; intros im im' rm statuses Hrm.
  - cbn. intros [= <- <-]. split; [reflexivity|]. split; [reflexivity|].
    split; [apply same_collections_refl|]. unfold tally. cbn [count_occ length].
    split; [lia|].
    exists rm. split; [exact Hrm|]. repeat split; lia.
  - destruct im as [cfg orm db]. simpl in Hrm. subst orm.
    cbn [process_files]. unfold bind at 1.
    destruct (ingest_file fenv path _) as [[status|e] im1] eqn:Hcall;
      [|discriminate].
    apply ingest_file_effect in Hcall
      as (fp & db1 & _ & -> & _ & Hsame & Hlog).
    unfold bind.
    destruct (process_files rest _) as [[sts|e] im2] eqn:Hrest;
      [|discriminate].
    unfold ret. intros [= <- <-].
    destruct (IH {| config := cfg; run_manager := Some (counted status rm);
                     db_manager := db1 |} im2 (counted status rm) sts eq_refl Hrest)
      as (Hlen & Hcfg & Hsame' & Hrows & rm' & Hrm' & Hid & Hp & Hf & Hs & Ha).
    split; [simpl; congruence|]. split; [exact Hcfg|].
    split; [exact (same_collections_trans _ _ _ Hsame Hsame')|].
    unfold log_of, tally in *. cbn [db_manager config run_manager] in *.
    split.
    + destruct status; cbn [count_occ] in *;
        try (destruct Hlog as (row & Hlog & _); rewrite Hlog, length_app in Hrows);
        try (destruct Hlog as (Hlog & _); rewrite Hlog in Hrows);
        repeat (destruct (IngestionStatus_eq_dec _ _); try congruence);
        cbn [length] in *; lia.
    + exists rm'. split; [exact Hrm'|].
      destruct status; cbn [counted count_occ] in *;
        repeat (destruct (IngestionStatus_eq_dec _ _); try congruence);
        cbn in *; repeat split; try assumption; lia.
Qed.

Lemma process_files_tallies_witness :
  length [success; already_processed]
  = length [("/data/a.pdf", readable); ("/data/copy-of-a.pdf", readable)]
  /\ config (snd (process_files [("/data/a.pdf", readable);
                                 ("/data/copy-of-a.pdf", readable)]
                                first_started))
     = config first_started
  /\ same_collections (db_manager first_started)
       (db_manager (snd (process_files [("/data/a.pdf", readable);
                                        ("/data/copy-of-a.pdf", readable)]
                                       first_started)))
  /\ Z.of_nat (length (log_of (snd (process_files
                                      [("/data/a.pdf", readable);
                                       ("/data/copy-of-a.pdf", readable)]
                                      first_started))))
     + tally already_processed [success; already_processed]
     = Z.of_nat (length (log_of first_started))
       + Z.of_nat (length [("/data/a.pdf", readable);
                           ("/data/copy-of-a.pdf", readable)])
  /\ exists rm',
       run_manager (snd (process_files [("/data/a.pdf", readable);
                                        ("/data/copy-of-a.pdf", readable)]
                                       first_started))
       = Some rm'
       /\ RunManager.run_id rm' = Some "run-0"
       /\ RunManager.processed_files rm'
          = 0 + tally success [success; already_processed]
       /\ RunManager.failed_files rm'
          = 0 + tally error [success; already_processed]
       /\ RunManager.skipped_files rm'
          = 0 + tally skipped [success; already_processed]
            + tally already_processed [success; already_processed]
       /\ RunManager.already_processed_files rm'
          = 0 + tally already_processed [success; already_processed].
Proof.
  apply (process_files_tallies
           [("/data/a.pdf", readable); ("/data/copy-of-a.pdf", readable)]
           first_started
           (snd (process_files [("/data/a.pdf", readable);
                                ("/data/copy-of-a.pdf", readable)]
                               first_started))
           (RunManager.set_counters 0 0 0 0
              (default RunManager.init (run_manager first_started)))
           [success; already_processed]).
  - vm_compute. reflexivity.
  - vm_compute. reflexivity.
Defined.

End LoopFacts.

(** ** The command as a whole *)

Module CommandFacts.
Import DatabaseManager IngestionManager Cli.

Lemma on_run_manager_config {A} (op : ST RunManager.State A)
    (im im' : IngestionManager) (out : Outcome A) :
  on_run_manager op im = (out, im') -> config im' = config im.
Proof.
  unfold on_run_manager. destruct (run_manager im) as [rm|].
  - destruct (op (rm, db_manager im)) as [o [rm' db']].
    intros [= _ <-]. reflexivity.
  - intros [= _ <-]. reflexivity.
Qed.

(** X27. The command as written starts no run.  It passes the keyword
    ray_workers to [ProcessingConfig], which declares no such field:
    TypeError is raised while the configuration is built, before the
    [try] block, and leaves the command with the database untouched.
    The ingestion manager in turn reads [config.processing.ray_workers]
    to create its workers: over a configuration without the attribute
    [start_run] never returns, and when no run manager exists yet it
    raises AttributeError before anything is created or written. *)
Theorem command_starts_no_run (env : RunEnv) (im : IngestionManager)
    (uuid : string) (now total : Z) (preload : Outcome unit) :
  ingest_pdfs env im
  = (Raises (MkExn "TypeError"
               "ProcessingConfig.__init__() got an unexpected keyword argument 'ray_workers'"),
     im)
  /\ (Config.ray_workers (Config.processing (config im)) = None ->
      (run_manager im = None ->
       IngestionManager.start_run uuid now total preload im
       = (Raises (MkExn "AttributeError"
                    "'ProcessingConfig' object has no attribute 'ray_workers'"),
          im))
      /\ forall rid im',
           IngestionManager.start_run uuid now total preload im
           <> (Returns rid, im')).
Proof.
  split; [reflexivity|]. intros Hnone. split.
  - intros Hrm. unfold IngestionManager.start_run, bind, get_run_manager.
    rewrite Hrm. unfold bind, get_embedding_model_managers.
    rewrite Hnone. reflexivity.
  - intros rid im'. unfold IngestionManager.start_run, bind, get_run_manager,
      get_state.
    destruct (run_manager im) as [rm|] eqn:Hrm.
    + destruct (on_run_manager _ im) as [[r|e] im1] eqn:Hstart;
        [|discriminate].
      apply on_run_manager_config in Hstart.
      unfold get_embedding_model_managers. rewrite Hstart, Hnone.
      discriminate.
    + unfold bind, get_embedding_model_managers. rewrite Hnone.
      discriminate.
Qed.

End CommandFacts.
